(** * CPE calculation platform: aggregation engine, slide rulings, ingestion

    A shallow embedding of the TypeScript sources:
    - [hooks/useCpeCalculator]  (the aggregation engine),
    - [components/SlideEditor]  (finalize / discard / undo-discard handlers),
    - [components/ReviewScreen] (the slide store the handlers report to),
    - [services/fileParser]     (spreadsheet and CSV ingestion).

    Numbers.  A JavaScript [number] is modelled as [NaN] or an exact
    rational: the branches the code takes on [NaN] and on zero are kept,
    finite values are carried without binary64 rounding, and infinities
    (overflow, division by zero) are outside the model.  Sums are stated
    in the order in which the code adds, and whole numbers are read and
    written exactly up to [2^53 - 1] only; the rounding of the credit is
    also given over numbers with the infinities ([JsWide], [CalcWide]).

    Strings.  A JavaScript string is the list of its UTF-16 code units. *)

From Stdlib Require Import QArith Qround Lqa ZArith Lia Bool.
From Stdlib Require Import Strings.String Strings.Ascii.
From Stdlib Require DecimalPos.
From stdpp Require Import base option list gmap sorting.

Local Open Scope Z_scope.

(** ** JavaScript numbers *)

Module JsNum.

Inductive number : Type :=
| NaN
| Fin (q : Q).

Definition of_Z (z : Z) : number := Fin (inject_Z z).
Definition of_nat (n : nat) : number := of_Z (Z.of_nat n).

(** [a + b] *)
Definition add (a b : number) : number :=
  match a, b with
  | Fin x, Fin y => Fin (x + y)
  | _, _ => NaN
  end.

(** [a - b] *)
Definition sub (a b : number) : number :=
  match a, b with
  | Fin x, Fin y => Fin (x - y)
  | _, _ => NaN
  end.

(** [a * b] *)
Definition mul (a b : number) : number :=
  match a, b with
  | Fin x, Fin y => Fin (x * y)
  | _, _ => NaN
  end.

(** [a / b].  Every divisor in the sources is a non-zero literal; a zero
    divisor (an infinity or NaN in JavaScript) is rendered as [NaN]. *)
Definition div (a b : number) : number :=
  match a, b with
  | Fin x, Fin y => if Qeq_bool y 0 then NaN else Fin (x / y)
  | _, _ => NaN
  end.

(** [Math.floor(a)] *)
Definition floor (a : number) : number :=
  match a with
  | Fin x => Fin (inject_Z (Qfloor x))
  | NaN => NaN
  end.

(** [a > b]: false as soon as one side is NaN. *)
Definition gt (a b : number) : bool :=
  match a, b with
  | Fin x, Fin y => negb (Qle_bool x y)
  | _, _ => false
  end.

(** [a === b] on numbers: NaN is not equal to itself. *)
Definition strict_eq (a b : number) : bool :=
  match a, b with
  | Fin x, Fin y => Qeq_bool x y
  | _, _ => false
  end.

(** [ToBoolean] on a number: zero and NaN are falsy. *)
Definition truthy (a : number) : bool :=
  match a with
  | Fin x => negb (Qeq_bool x 0)
  | NaN => false
  end.

(** [a || b] on numbers. *)
Definition or_else (a b : number) : number :=
  if truthy a then a else b.

(** Same numeric value: rationals up to [Qeq], NaN only with NaN. *)
Definition same (a b : number) : Prop :=
  match a, b with
  | NaN, NaN => True
  | Fin x, Fin y => (x == y)%Q
  | _, _ => False
  end.

(** [a <= b] as a proposition; it does not hold when a side is NaN. *)
Definition le (a b : number) : Prop :=
  match a, b with
  | Fin x, Fin y => (x <= y)%Q
  | _, _ => False
  end.

Definition is_finite (a : number) : Prop :=
  match a with Fin _ => True | NaN => False end.

(** [isNaN(a)] *)
Definition isNaN (a : number) : bool :=
  match a with NaN => true | Fin _ => false end.

(** [a < b] and [a <= b]: false as soon as one side is NaN. *)
Definition lt (a b : number) : bool :=
  match a, b with
  | Fin x, Fin y => negb (Qle_bool y x)
  | _, _ => false
  end.

Definition leb (a b : number) : bool :=
  match a, b with
  | Fin x, Fin y => Qle_bool x y
  | _, _ => false
  end.

(** The integer part, towards zero. *)
Definition truncate (q : Q) : Z :=
  if Qle_bool 0 q then Qfloor q else Qceiling q.

(** [a % b]: the remainder of the division truncated towards zero, so it
    has the sign of [a]; NaN when the divisor is zero. *)
Definition rem (a b : number) : number :=
  match a, b with
  | Fin x, Fin y =>
      if Qeq_bool y 0 then NaN
      else Fin (x - y * inject_Z (truncate (x / y)))
  | _, _ => NaN
  end.

(** [Math.round(a)]: [Math.floor(a + 0.5)]. *)
Definition round (a : number) : number :=
  floor (add a (Fin (1 # 2))).

End JsNum.

Import JsNum.

Declare Scope js_scope.
Delimit Scope js_scope with js.
Infix "+" := JsNum.add : js_scope.
Infix "-" := JsNum.sub : js_scope.
Infix "*" := JsNum.mul : js_scope.
Infix "/" := JsNum.div : js_scope.
Infix "≃" := JsNum.same (at level 70, no associativity).
Infix "⪯" := JsNum.le (at level 70, no associativity).

(** ** Numbers with the infinities *)

Module JsWide.

(** The values of a binary64: NaN, the finite values (exact rationals, as
    above) and the two infinities. *)
Inductive wide : Type :=
| wNaN
| wFin (q : Q)
| wInf (negative : bool).

Definition widen (a : number) : wide :=
  match a with
  | NaN => wNaN
  | Fin q => wFin q
  end.

Definition of_Z (z : Z) : wide := wFin (inject_Z z).

(** [a + b]: infinities of opposite signs give NaN. *)
Definition add (a b : wide) : wide :=
  match a, b with
  | wNaN, _ | _, wNaN => wNaN
  | wFin x, wFin y => wFin (x + y)
  | wFin _, wInf s | wInf s, wFin _ => wInf s
  | wInf s, wInf t => if Bool.eqb s t then wInf s else wNaN
  end.

(** [a * b]: an infinity times zero is NaN. *)
Definition mul (a b : wide) : wide :=
  match a, b with
  | wNaN, _ | _, wNaN => wNaN
  | wFin x, wFin y => wFin (x * y)
  | wFin x, wInf s | wInf s, wFin x =>
      if Qeq_bool x 0 then wNaN else wInf (xorb s (negb (Qle_bool 0 x)))
  | wInf s, wInf t => wInf (xorb s t)
  end.

(** [a / d] for a literal [d] above zero, as every divisor of the engine
    is. *)
Definition over (a : wide) (d : positive) : wide :=
  match a with
  | wNaN => wNaN
  | wFin x => wFin (x / inject_Z (Zpos d))
  | wInf s => wInf s
  end.

(** [Math.floor(a)] *)
Definition floor (a : wide) : wide :=
  match a with
  | wNaN => wNaN
  | wFin x => wFin (inject_Z (Qfloor x))
  | wInf s => wInf s
  end.

(** [a > b] *)
Definition gt (a b : wide) : bool :=
  match a, b with
  | wNaN, _ | _, wNaN => false
  | wFin x, wFin y => negb (Qle_bool x y)
  | wInf s, wFin _ => negb s
  | wFin _, wInf t => t
  | wInf s, wInf t => negb s && t
  end.

(** [ToBoolean]: zero and NaN are falsy, the infinities are not. *)
Definition truthy (a : wide) : bool :=
  match a with
  | wNaN => false
  | wFin x => negb (Qeq_bool x 0)
  | wInf _ => true
  end.

(** [a || b] *)
Definition or_else (a b : wide) : wide :=
  if truthy a then a else b.

(** Same value. *)
Definition same (a b : wide) : Prop :=
  match a, b with
  | wNaN, wNaN => True
  | wFin x, wFin y => (x == y)%Q
  | wInf s, wInf t => s = t
  | _, _ => False
  end.

End JsWide.

(** ** JavaScript strings *)

Module JsString.

(** A string is its sequence of UTF-16 code units. *)
Definition jsstring : Type := list N.

(** A string literal of the sources (ASCII only). *)
Definition lit (s : String.string) : jsstring :=
  List.map N_of_ascii (list_ascii_of_string s).

(** The characters matched by [\s] and stripped by [trim]: WhiteSpace
    (TAB, VT, FF, SP, NBSP, ZWNBSP and the Unicode space separators) and
    LineTerminator (LF, CR, LS, PS). *)
Definition isWhiteSpace (c : N) : bool :=
  ((9 <=? c) && (c <=? 13) || (c =? 32) || (c =? 160) || (c =? 5760)
   || (8192 <=? c) && (c <=? 8202) || (c =? 8232) || (c =? 8233)
   || (c =? 8239) || (c =? 8287) || (c =? 12288) || (c =? 65279))%N.

Fixpoint trimStart (s : jsstring) : jsstring :=
  match s with
  | [] => []
  | c :: r => if isWhiteSpace c then trimStart r else s
  end.

Definition trimEnd (s : jsstring) : jsstring :=
  rev (trimStart (rev s)).

(** [s.trim()] *)
Definition trim (s : jsstring) : jsstring :=
  trimEnd (trimStart s).

(** [s.split(/\s+/)], scanning left to right.  [in_run] says that the
    previous character belonged to the separator being consumed; [cur] is
    the current piece, reversed.  The piece before a separator is emitted
    when the separator starts, the last piece at the end of the string, so
    a leading or trailing separator yields an empty piece and the empty
    string yields one empty piece. *)
Fixpoint split_ws_from (in_run : bool) (cur : jsstring) (s : jsstring)
  : list jsstring :=
  match s with
  | [] => [rev cur]
  | c :: r =>
      if isWhiteSpace c then
        if in_run then split_ws_from true cur r
        else rev cur :: split_ws_from true [] r
      else split_ws_from false (c :: cur) r
  end.

Definition split_ws (s : jsstring) : list jsstring :=
  split_ws_from false [] s.

(** [Boolean(s)] on a string: the empty string is falsy. *)
Definition truthy (s : jsstring) : bool :=
  match s with [] => false | _ :: _ => true end.

(** [a || b] on strings. *)
Definition or_else (a b : jsstring) : jsstring :=
  if truthy a then a else b.

End JsString.

Import JsString.

(** ** The data model ([types.ts]) *)

Inductive SourceType : Type :=
| OST
| AUDIO
| BOTH.

Inductive AudioSource : Type :=
| upload
| manual.

Inductive Simulated : Type :=
| sim_upload
| sim_transcription
| sim_trim
| sim_none.

Record Segment : Type := mkSegment {
  seg_start : number;
  seg_end : number;
  seg_text : jsstring
}.

Record Transcription : Type := mkTranscription {
  segments : list Segment;
  wordCount : number
}.

Record AudioMeta : Type := mkAudioMeta {
  source : AudioSource;
  fileId : option jsstring;
  fileName : option jsstring;
  fileSize : option number;
  originalDuration : option number;
  trimmedDuration : option number;
  trimmedRanges : option (list (number * number));
  isTrimmed : option bool;
  simulated : option Simulated;
  commandSnippet : option jsstring;
  transcription : option Transcription
}.

(** [{ source: 'manual' }] *)
Definition manualMeta : AudioMeta :=
  mkAudioMeta manual None None None None None None None None None None.

(** Optional members ([isDiscarded?] ...) are [None] when absent. *)
Record Slide : Type := mkSlide {
  id : Z;
  ost : jsstring;
  transcript : jsstring;
  selectedSource : SourceType;
  audioDuration : number;
  isFinalized : bool;
  audioMeta : AudioMeta;
  isDiscarded : option bool;
  discardReason : option jsstring;
  discardNote : option jsstring;
  discardedAt : option jsstring;
  discardedBy : option jsstring;
  undoAt : option jsstring;
  undoBy : option jsstring
}.

Record CpeMetrics : Type := mkCpeMetrics {
  totalWords : number;
  totalAvMinutes : number;
  totalQuestions : number;
  wordsCpe : number;
  avCpe : number;
  questionsCpe : number;
  rawCpeHours : number;
  roundedCpe : number
}.

(** ** The aggregation engine ([useCpeCalculator]) *)

Module Calc.

(** [text.trim().split(/\s+/).filter(Boolean).length] *)
Definition getWordCount (text : jsstring) : nat :=
  length (List.filter JsString.truthy (split_ws (trim text))).

(** [!slide.isDiscarded]: an absent flag counts as not discarded. *)
Definition notDiscarded (slide : Slide) : bool :=
  match isDiscarded slide with
  | Some true => false
  | Some false | None => true
  end.

Definition activeSlides (slides : list Slide) : list Slide :=
  List.filter notDiscarded slides.

(** The accumulator of the [reduce]. *)
Record Totals : Type := mkTotals {
  t_totalWords : number;
  t_totalAvMinutes : number
}.

(** The reducer: one [switch] on [selectedSource]. *)
Definition step (acc : Totals) (slide : Slide) : Totals :=
  match selectedSource slide with
  | OST =>
      mkTotals (t_totalWords acc + of_nat (getWordCount (ost slide)))%js
               (t_totalAvMinutes acc)
  | AUDIO =>
      mkTotals (t_totalWords acc)
               (t_totalAvMinutes acc + audioDuration slide)%js
  | BOTH =>
      mkTotals (t_totalWords acc + of_nat (getWordCount (ost slide)))%js
               (t_totalAvMinutes acc + audioDuration slide)%js
  end.

Definition totalsOf (slides : list Slide) : Totals :=
  fold_left step (activeSlides slides) (mkTotals (of_Z 0) (of_Z 0)).

(** The literal [1.85]. *)
Definition minutesPerQuestion : number := Fin (185 # 100).

(** Lines 40 and 49: [Math.floor(raw * 2) / 2], then the guard
    [roundedCpe > 0 ? roundedCpe : 0]. *)
Definition roundDown (raw : number) : number :=
  let roundedCpe := (JsNum.floor (raw * of_Z 2) / of_Z 2)%js in
  if JsNum.gt roundedCpe (of_Z 0) then roundedCpe else of_Z 0.

Definition useCpeCalculator
    (slides : list Slide) (reviewQuestions finalExamQuestions : number)
  : CpeMetrics :=
  let totals := totalsOf slides in
  let totalQuestions :=
    (JsNum.or_else reviewQuestions (of_Z 0)
     + JsNum.or_else finalExamQuestions (of_Z 0))%js in
  let wordsCpe := (t_totalWords totals / of_Z 180)%js in
  let avCpe := t_totalAvMinutes totals in
  let questionsCpe := (totalQuestions * minutesPerQuestion)%js in
  let totalCpeMinutes := (wordsCpe + avCpe + questionsCpe)%js in
  let rawCpeHours := (totalCpeMinutes / of_Z 60)%js in
  {| totalWords := t_totalWords totals;
     totalAvMinutes := t_totalAvMinutes totals;
     totalQuestions := totalQuestions;
     wordsCpe := wordsCpe;
     avCpe := avCpe;
     questionsCpe := questionsCpe;
     rawCpeHours := rawCpeHours;
     roundedCpe := roundDown rawCpeHours |}.

End Calc.

(** ** The credit over numbers with the infinities

    Lines 32 to 49 of the engine once more, on the two totals that the
    [reduce] yields and the two question counts, each of them any binary64
    value: a total or a count may be an infinity (a duration or a count
    that is one, or sums that overflow). *)

Module CalcWide.

Import JsWide.

Definition rawCpeHours
    (totalWords totalAvMinutes reviewQuestions finalExamQuestions : wide)
  : wide :=
  let totalQuestions :=
    add (or_else reviewQuestions (of_Z 0))
      (or_else finalExamQuestions (of_Z 0)) in
  let wordsCpe := over totalWords 180 in
  let avCpe := totalAvMinutes in
  let questionsCpe := mul totalQuestions (widen Calc.minutesPerQuestion) in
  let totalCpeMinutes := add (add wordsCpe avCpe) questionsCpe in
  over totalCpeMinutes 60.

(** Lines 40 and 49. *)
Definition roundDown (raw : wide) : wide :=
  let roundedCpe := over (floor (mul raw (of_Z 2))) 2 in
  if gt roundedCpe (of_Z 0) then roundedCpe else of_Z 0.

Definition roundedCpe
    (totalWords totalAvMinutes reviewQuestions finalExamQuestions : wide)
  : wide :=
  roundDown
    (rawCpeHours totalWords totalAvMinutes reviewQuestions finalExamQuestions).

End CalcWide.

(** ** The slide editor ([SlideEditor]) *)

Module SlideEditor.

(** What the component reports to its parent. *)
Inductive Callback : Type :=
| onUpdate (slide : Slide)
| onFinalizeAndNext
| onDiscardAndNext (slide : Slide).

(** The prop [slide] and the [useState] cells of the component.  The cells
    that share a name with a member of [Slide] carry the prefix [e_]. *)
Record State : Type := mkState {
  slide : Slide;
  e_ost : jsstring;
  e_transcript : jsstring;
  e_selectedSource : SourceType;
  e_isFinalized : bool;
  finalizeError : option jsstring;
  isAudioModalOpen : bool;
  isDiscardModalOpen : bool;
  e_discardReason : jsstring;
  e_discardNote : jsstring;
  e_audioMeta : AudioMeta;
  minutes : number;
  seconds : number;
  e_audioDuration : number
}.

Definition setFinalizeError (v : option jsstring) (e : State) : State :=
  mkState (slide e) (e_ost e) (e_transcript e) (e_selectedSource e)
    (e_isFinalized e) v (isAudioModalOpen e) (isDiscardModalOpen e)
    (e_discardReason e) (e_discardNote e) (e_audioMeta e)
    (minutes e) (seconds e) (e_audioDuration e).

Definition setIsFinalized (v : bool) (e : State) : State :=
  mkState (slide e) (e_ost e) (e_transcript e) (e_selectedSource e)
    v (finalizeError e) (isAudioModalOpen e) (isDiscardModalOpen e)
    (e_discardReason e) (e_discardNote e) (e_audioMeta e)
    (minutes e) (seconds e) (e_audioDuration e).

Definition setIsDiscardModalOpen (v : bool) (e : State) : State :=
  mkState (slide e) (e_ost e) (e_transcript e) (e_selectedSource e)
    (e_isFinalized e) (finalizeError e) (isAudioModalOpen e) v
    (e_discardReason e) (e_discardNote e) (e_audioMeta e)
    (minutes e) (seconds e) (e_audioDuration e).

Definition setDiscardReason (v : jsstring) (e : State) : State :=
  mkState (slide e) (e_ost e) (e_transcript e) (e_selectedSource e)
    (e_isFinalized e) (finalizeError e) (isAudioModalOpen e)
    (isDiscardModalOpen e) v (e_discardNote e) (e_audioMeta e)
    (minutes e) (seconds e) (e_audioDuration e).

Definition setDiscardNote (v : jsstring) (e : State) : State :=
  mkState (slide e) (e_ost e) (e_transcript e) (e_selectedSource e)
    (e_isFinalized e) (finalizeError e) (isAudioModalOpen e)
    (isDiscardModalOpen e) (e_discardReason e) v (e_audioMeta e)
    (minutes e) (seconds e) (e_audioDuration e).

Definition setAudioMeta (v : AudioMeta) (e : State) : State :=
  mkState (slide e) (e_ost e) (e_transcript e) (e_selectedSource e)
    (e_isFinalized e) (finalizeError e) (isAudioModalOpen e)
    (isDiscardModalOpen e) (e_discardReason e) (e_discardNote e) v
    (minutes e) (seconds e) (e_audioDuration e).

Definition setMinutes (v : number) (e : State) : State :=
  mkState (slide e) (e_ost e) (e_transcript e) (e_selectedSource e)
    (e_isFinalized e) (finalizeError e) (isAudioModalOpen e)
    (isDiscardModalOpen e) (e_discardReason e) (e_discardNote e)
    (e_audioMeta e) v (seconds e) (e_audioDuration e).

Definition setSeconds (v : number) (e : State) : State :=
  mkState (slide e) (e_ost e) (e_transcript e) (e_selectedSource e)
    (e_isFinalized e) (finalizeError e) (isAudioModalOpen e)
    (isDiscardModalOpen e) (e_discardReason e) (e_discardNote e)
    (e_audioMeta e) (minutes e) v (e_audioDuration e).

Definition setAudioDuration (v : number) (e : State) : State :=
  mkState (slide e) (e_ost e) (e_transcript e) (e_selectedSource e)
    (e_isFinalized e) (finalizeError e) (isAudioModalOpen e)
    (isDiscardModalOpen e) (e_discardReason e) (e_discardNote e)
    (e_audioMeta e) (minutes e) (seconds e) v.

(** The effect on [minutes, seconds]:
    [(minutes || 0) + (seconds || 0) / 60]. *)
Definition durationEffect (e : State) : State :=
  setAudioDuration
    (JsNum.or_else (minutes e) (of_Z 0)
     + JsNum.or_else (seconds e) (of_Z 0) / of_Z 60)%js e.

(** [onChange] of the minutes field; [v] is [parseInt(e.target.value)]. *)
Definition changeMinutes (v : number) (e : State) : State :=
  durationEffect
    (setAudioMeta manualMeta (setMinutes (JsNum.or_else v (of_Z 0)) e)).

(** [onChange] of the seconds field. *)
Definition changeSeconds (v : number) (e : State) : State :=
  durationEffect
    (setAudioMeta manualMeta (setSeconds (JsNum.or_else v (of_Z 0)) e)).

Definition finalizeErrorMessage : jsstring :=
  lit "Please enter audio duration for the selected source before finalizing.".

Definition needsDuration (s : SourceType) : bool :=
  match s with
  | AUDIO | BOTH => true
  | OST => false
  end.

(** [{ ...slide, ost, transcript, selectedSource, audioDuration,
       audioMeta, isFinalized: f }] *)
Definition snapshot (e : State) (f : bool) : Slide :=
  let s := slide e in
  {| id := id s;
     ost := e_ost e;
     transcript := e_transcript e;
     selectedSource := e_selectedSource e;
     audioDuration := e_audioDuration e;
     isFinalized := f;
     audioMeta := e_audioMeta e;
     isDiscarded := isDiscarded s;
     discardReason := discardReason s;
     discardNote := discardNote s;
     discardedAt := discardedAt s;
     discardedBy := discardedBy s;
     undoAt := undoAt s;
     undoBy := undoBy s |}.

(** [handleFinalize]: the returned boolean, the next component state and
    the callbacks fired. *)
Definition handleFinalize (e : State) : bool * State * list Callback :=
  if negb (e_isFinalized e)
     && needsDuration (e_selectedSource e)
     && JsNum.strict_eq (e_audioDuration e) (of_Z 0)
  then (false, setFinalizeError (Some finalizeErrorMessage) e, [])
  else
    let finalizedState := negb (e_isFinalized e) in
    (true,
     setIsFinalized finalizedState (setFinalizeError None e),
     [onUpdate (snapshot e finalizedState)]).

(** [handleFinalizeAndNextClick] *)
Definition handleFinalizeAndNextClick (e : State) : State * list Callback :=
  if e_isFinalized e then (e, [onFinalizeAndNext])
  else
    match handleFinalize e with
    | (true, e', cbs) => (e', cbs ++ [onFinalizeAndNext])
    | (false, e', cbs) => (e', cbs)
    end.

Definition Other : jsstring := lit "Other".
Definition user : jsstring := lit "user".

(** [handleDiscardConfirm]; [now] is [new Date().toISOString()]. *)
Definition handleDiscardConfirm (now : jsstring) (e : State)
  : State * list Callback :=
  if negb (JsString.truthy (e_discardReason e)) then (e, [])
  else
    let s := slide e in
    let discardedSlide :=
      {| id := id s;
         ost := e_ost e;
         transcript := e_transcript e;
         selectedSource := e_selectedSource e;
         audioDuration := e_audioDuration e;
         isFinalized := isFinalized s;
         audioMeta := e_audioMeta e;
         isDiscarded := Some true;
         discardReason := Some (e_discardReason e);
         discardNote :=
           Some (if decide (e_discardReason e = Other)
                 then e_discardNote e else []);
         discardedAt := Some now;
         discardedBy := Some user;
         undoAt := undoAt s;
         undoBy := undoBy s |} in
    (setIsDiscardModalOpen false e, [onDiscardAndNext discardedSlide]).

(** [handleUndoDiscard]:
    [{ ...slide, isDiscarded: false, undoAt: now, undoBy: 'user' }]. *)
Definition handleUndoDiscard (now : jsstring) (e : State)
  : State * list Callback :=
  let s := slide e in
  (e,
   [onUpdate
      {| id := id s;
         ost := ost s;
         transcript := transcript s;
         selectedSource := selectedSource s;
         audioDuration := audioDuration s;
         isFinalized := isFinalized s;
         audioMeta := audioMeta s;
         isDiscarded := Some false;
         discardReason := discardReason s;
         discardNote := discardNote s;
         discardedAt := discardedAt s;
         discardedBy := discardedBy s;
         undoAt := Some now;
         undoBy := Some user |}]).

(** [Math.round(x)] is [Math.floor(x + 0.5)]. *)
Definition round (a : number) : number :=
  JsNum.floor (a + Fin (1 # 2))%js.

(** The initial values of the [useState] cells when the editor is mounted
    on [s] (the component is keyed by the slide id), followed by the first
    run of the duration effect. *)
Definition mount (s : Slide) : State :=
  let initialMinutes := JsNum.floor (audioDuration s) in
  let initialSeconds :=
    round ((audioDuration s - initialMinutes) * of_Z 60)%js in
  durationEffect
    {| slide := s;
       e_ost := ost s;
       e_transcript := transcript s;
       e_selectedSource := selectedSource s;
       e_isFinalized := isFinalized s;
       finalizeError := None;
       isAudioModalOpen := false;
       isDiscardModalOpen := false;
       e_discardReason := [];
       e_discardNote := [];
       e_audioMeta := audioMeta s;
       minutes := initialMinutes;
       seconds := initialSeconds;
       e_audioDuration := audioDuration s |}.

(** A re-render with a new value of the prop [slide]; the cells stay. *)
Definition rerender (s : Slide) (e : State) : State :=
  mkState s (e_ost e) (e_transcript e) (e_selectedSource e)
    (e_isFinalized e) (finalizeError e) (isAudioModalOpen e)
    (isDiscardModalOpen e) (e_discardReason e) (e_discardNote e)
    (e_audioMeta e) (minutes e) (seconds e) (e_audioDuration e).

Definition setIsAudioModalOpen (v : bool) (e : State) : State :=
  mkState (slide e) (e_ost e) (e_transcript e) (e_selectedSource e)
    (e_isFinalized e) (finalizeError e) v (isDiscardModalOpen e)
    (e_discardReason e) (e_discardNote e) (e_audioMeta e)
    (minutes e) (seconds e) (e_audioDuration e).

(** [handleAcceptDuration], followed by the duration effect that the new
    minutes and seconds trigger. *)
Definition handleAcceptDuration (durationInSeconds : number)
    (meta : AudioMeta) (e : State) : State :=
  let newMinutes := JsNum.floor (durationInSeconds / of_Z 60)%js in
  let newSeconds := JsNum.round (JsNum.rem durationInSeconds (of_Z 60)) in
  durationEffect
    (setIsAudioModalOpen false
       (setAudioMeta meta (setSeconds newSeconds (setMinutes newMinutes e)))).

(** The debounced effect of a finalized editor: after the delay, the
    current cells are reported to the parent as a finalized slide. *)
Definition autoSync (e : State) : list Callback :=
  if e_isFinalized e then [onUpdate (snapshot e true)] else [].

(** [s.replace(/c/g, by)] for a single character [c]. *)
Definition replaceChar (c : N) (by_ : jsstring) (s : jsstring) : jsstring :=
  flat_map (fun x => if (x =? c)%N then by_ else [x]) s.

(** [escapeHtml]: the five replacements, in the order of the source. *)
Definition escapeHtml (unsafe : jsstring) : jsstring :=
  replaceChar 39 (lit "&#039;")
    (replaceChar 34 (lit "&quot;")
       (replaceChar 62 (lit "&gt;")
          (replaceChar 60 (lit "&lt;")
             (replaceChar 38 (lit "&amp;") unsafe)))).

End SlideEditor.

(** ** The slide store ([ReviewScreen]) *)

Module ReviewScreen.

Import SlideEditor.

Inductive Toast : Type :=
| toastFinalized (slideId : Z)
| toastDiscarded (slideId : Z).

Record State : Type := mkState {
  slides : list Slide;
  activeSlideId : option Z;
  reviewQuestions : number;
  finalExamQuestions : number;
  toastMessage : option Toast
}.

(** The initial [activeSlideId]:
    [initialSlides.length > 0 ? initialSlides[0].id : null]. *)
Definition activeSlideId_of (initialSlides : list Slide) : option Z :=
  match initialSlides with
  | s :: _ => Some (id s)
  | [] => None
  end.

(** [slides.find(s => s.id === i)] *)
Definition findSlide (i : Z) (l : list Slide) : option Slide :=
  List.find (fun s => Z.eqb (id s) i) l.

(** [slides.findIndex(s => s.id === i)], [-1] when there is none. *)
Fixpoint findIndexFrom (k : Z) (i : Z) (l : list Slide) : Z :=
  match l with
  | [] => -1
  | s :: r => if Z.eqb (id s) i then k else findIndexFrom (k + 1) i r
  end.

Definition findIndex (i : Z) (l : list Slide) : Z := findIndexFrom 0 i l.

(** [slides[k]] *)
Definition at_index (l : list Slide) (k : Z) : option Slide :=
  if k <? 0 then None else l !! Z.to_nat k.

Definition truthyFlag (b : option bool) : bool :=
  match b with Some true => true | _ => false end.

(** The toast raised by [handleSlideUpdate]; a later [showToast] replaces
    an earlier one. *)
Definition toastFor (old : option Slide) (updatedSlide : Slide)
    (current : option Toast) : option Toast :=
  match old with
  | None => current
  | Some oldSlide =>
      let t1 :=
        if negb (isFinalized oldSlide) && isFinalized updatedSlide
        then Some (toastFinalized (id updatedSlide)) else current in
      if negb (truthyFlag (isDiscarded oldSlide))
         && truthyFlag (isDiscarded updatedSlide)
      then Some (toastDiscarded (id updatedSlide)) else t1
  end.

(** [handleSlideUpdate]: every slide with the id of [updatedSlide] is
    replaced by it. *)
Definition handleSlideUpdate (updatedSlide : Slide) (r : State) : State :=
  mkState
    (List.map (fun s => if Z.eqb (id s) (id updatedSlide)
                        then updatedSlide else s) (slides r))
    (activeSlideId r) (reviewQuestions r) (finalExamQuestions r)
    (toastFor (findSlide (id updatedSlide) (slides r)) updatedSlide
       (toastMessage r)).

Definition setActiveSlideId (v : option Z) (r : State) : State :=
  mkState (slides r) v (reviewQuestions r) (finalExamQuestions r)
    (toastMessage r).

(** [slides.findIndex(s => s.id === activeSlideId)]: no slide has the id
    [null]. *)
Definition activeIndex (r : State) : Z :=
  match activeSlideId r with
  | Some a => findIndex a (slides r)
  | None => -1
  end.

(** [handleNextSlide] *)
Definition handleNextSlide (r : State) : State :=
  let currentNavIndex := activeIndex r in
  if currentNavIndex <? Z.of_nat (length (slides r)) - 1 then
    match at_index (slides r) (currentNavIndex + 1) with
    | Some s => setActiveSlideId (Some (id s)) r
    | None => r
    end
  else r.

(** [handlePreviousSlide] *)
Definition handlePreviousSlide (r : State) : State :=
  let currentNavIndex := activeIndex r in
  if 0 <? currentNavIndex then
    match at_index (slides r) (currentNavIndex - 1) with
    | Some s => setActiveSlideId (Some (id s)) r
    | None => r
    end
  else r.

(** [handleDiscardAndNext]: the focus moves to the next slide by position,
    else to the previous one, else to none; positions are read in the
    collection as it was before the update. *)
Definition handleDiscardAndNext (updatedSlide : Slide) (r : State) : State :=
  let r' := handleSlideUpdate updatedSlide r in
  let currentIndex := findIndex (id updatedSlide) (slides r) in
  let len := Z.of_nat (length (slides r)) in
  if currentIndex <? len - 1 then
    setActiveSlideId (id <$> at_index (slides r) (currentIndex + 1)) r'
  else if 0 <? currentIndex then
    setActiveSlideId (id <$> at_index (slides r) (currentIndex - 1)) r'
  else setActiveSlideId None r'.

(** The parent's reaction to one callback of the editor. *)
Definition deliver1 (r : State) (c : Callback) : State :=
  match c with
  | onUpdate s => handleSlideUpdate s r
  | onFinalizeAndNext => handleNextSlide r
  | onDiscardAndNext s => handleDiscardAndNext s r
  end.

Definition deliver (cbs : list Callback) (r : State) : State :=
  fold_left deliver1 cbs r.

(** [slides.filter(s => !s.isDiscarded).every(s => s.isFinalized)] *)
Definition allSlidesFinalized (r : State) : bool :=
  forallb isFinalized (Calc.activeSlides (slides r)).

(** The state of the screen when it is mounted: the initial values of its
    [useState] cells. *)
Definition initial (initialSlides : list Slide)
    (initialReviewQuestions initialFinalExamQuestions : number) : State :=
  mkState initialSlides (activeSlideId_of initialSlides)
    initialReviewQuestions initialFinalExamQuestions None.

End ReviewScreen.

(** ** Ingestion ([fileParser]) *)

Module FileParser.

(** [s.toLowerCase()], on the letters A to Z; other code units are kept
    (the case mapping of non-ASCII letters is not modelled). *)
Definition toLowerCase (s : jsstring) : jsstring :=
  List.map (fun c => if ((65 <=? c) && (c <=? 90))%N then (c + 32)%N else c) s.

Definition isDigit (c : N) : bool := ((48 <=? c) && (c <=? 57))%N.

(** The value of the longest prefix of decimal digits, after [acc]. *)
Fixpoint digitsValue (acc : Z) (s : jsstring) : Z :=
  match s with
  | [] => acc
  | c :: r =>
      if isDigit c then digitsValue (10 * acc + (Z.of_N c - 48)) r else acc
  end.

(** [Number.MAX_SAFE_INTEGER], [2^53 - 1], and [Number.isSafeInteger] on a
    whole number: up to that magnitude every whole number is a binary64,
    so a computation that yields it yields it exactly. *)
Definition MAX_SAFE_INTEGER : Z := 2 ^ 53 - 1.

Definition isSafeInteger (z : Z) : bool := Z.abs z <=? MAX_SAFE_INTEGER.

(** The outcome of [parseInt]: NaN, or the binary64 nearest to the whole
    number that the sign and the digits denote.  That is the whole number
    itself when it is a safe integer; beyond, the code gets a rounded
    value or an infinity, of which only the sign is kept here. *)
Inductive Parsed : Type :=
| parsedNaN
| parsedInt (z : Z)
| parsedBeyond (negative : bool).

Definition parsed (z : Z) : Parsed :=
  if isSafeInteger z then parsedInt z else parsedBeyond (z <? 0).

(** [parseInt(s, 10)]: leading white space is skipped, one sign is read,
    then the longest run of digits; without a digit the result is NaN. *)
Definition signed (t : jsstring) : Z * jsstring :=
  match t with
  | 45%N :: r => (-1, r)
  | 43%N :: r => (1, r)
  | _ => (1, t)
  end.

Definition parseInt (s : jsstring) : Parsed :=
  let '(sign, rest) := signed (trimStart s) in
  match rest with
  | c :: _ => if isDigit c then parsed (sign * digitsValue 0 rest)
              else parsedNaN
  | [] => parsedNaN
  end.

(** [!isNaN(idFromCell) && idFromCell > 0]: a number beyond the safe
    integers passes by its sign. *)
Definition validId (idFromCell : Parsed) : bool :=
  match idFromCell with
  | parsedNaN => false
  | parsedInt z => 0 <? z
  | parsedBeyond negative => negb negative
  end.

(** The whole number that was read, when it was read exactly. *)
Definition exactly (p : Parsed) : option Z :=
  match p with
  | parsedInt z => Some z
  | parsedNaN | parsedBeyond _ => None
  end.

(** The number that was read, in the numbers of the model, which have no
    value for what lies beyond the safe integers. *)
Definition numberOf (p : Parsed) : option number :=
  match p with
  | parsedNaN => Some NaN
  | parsedInt z => Some (of_Z z)
  | parsedBeyond _ => None
  end.

Definition createSlideObject (i : Z) (o t : jsstring) : Slide :=
  {| id := i;
     ost := o;
     transcript := t;
     selectedSource := OST;
     audioDuration := of_Z 0;
     isFinalized := false;
     audioMeta := manualMeta;
     isDiscarded := Some false;
     discardReason := None;
     discardNote := None;
     discardedAt := None;
     discardedBy := None;
     undoAt := None;
     undoBy := None |}.

(** The outcome of the promise: resolved with slides; resolved with
    slides of which one has a slide number beyond the safe integers (its id
    is then a rounded or an infinite number, which the ids of the model do
    not carry); rejected with an error of the parser and its message;
    rejected with the [TypeError] that the engine throws for a method call
    on [undefined] (its message is the engine's own). *)
Inductive Result : Type :=
| resolve (slides : list Slide)
| resolveBeyond
| reject (message : jsstring)
| rejectTypeError.

Definition slideNoNames : list jsstring :=
  [lit "slide no"; lit "slide #"; lit "slideno"; lit "slide number"].
Definition ostNames : list jsstring := [lit "ost"; lit "on-screen text"].
Definition transcriptNames : list jsstring := [lit "transcript"; lit "audio"].

(** *** Spreadsheets *)

(** A cell of [sheet_to_json(..., {header: 1})]: a hole of the row (a
    blank cell), text, or a number.  Of the numbers only the safe
    integers are covered: fractions and larger numbers, for which [String]
    writes a decimal point or an exponent, are not inputs of the model. *)
Inductive Cell : Type :=
| CellUndefined
| CellString (s : jsstring)
| CellNumber (z : Z) (safe : Is_true (isSafeInteger z)).

Fixpoint uintCodes (u : Decimal.uint) : jsstring :=
  match u with
  | Decimal.Nil => []
  | Decimal.D0 r => 48%N :: uintCodes r
  | Decimal.D1 r => 49%N :: uintCodes r
  | Decimal.D2 r => 50%N :: uintCodes r
  | Decimal.D3 r => 51%N :: uintCodes r
  | Decimal.D4 r => 52%N :: uintCodes r
  | Decimal.D5 r => 53%N :: uintCodes r
  | Decimal.D6 r => 54%N :: uintCodes r
  | Decimal.D7 r => 55%N :: uintCodes r
  | Decimal.D8 r => 56%N :: uintCodes r
  | Decimal.D9 r => 57%N :: uintCodes r
  end.

(** The decimal numeral of a whole number, with a minus sign when it is
    negative.  It is what [String] writes for a whole number below [10^21]
    in magnitude, so for every safe integer; from [10^21] on [String]
    writes an exponent, which no definition here follows. *)
Definition decimal (z : Z) : jsstring :=
  match z with
  | Z0 => [48%N]
  | Zpos p => uintCodes (Pos.to_uint p)
  | Zneg p => 45%N :: uintCodes (Pos.to_uint p)
  end.

(** A cell of [json[0].map(h => String(h))]: [map] leaves the holes of
    the row as they are ([None]). *)
Definition headerText (c : Cell) : option jsstring :=
  match c with
  | CellUndefined => None
  | CellString s => Some s
  | CellNumber z _ => Some (decimal z)
  end.

(** [String(cell || '')]: absent cells, the empty text and zero give the
    empty string. *)
Definition cellText (c : Cell) : jsstring :=
  match c with
  | CellUndefined => []
  | CellString s => s
  | CellNumber z _ => if Z.eqb z 0 then [] else decimal z
  end.

(** [row[k]] for a column index that is not [-1]. *)
Definition cellAt (row : list Cell) (k : nat) : Cell :=
  default CellUndefined (row !! k).

(** The outcome of a look-up in the header: an index, [-1], or the
    [TypeError] of [h.toLowerCase()] on a hole. *)
Inductive Lookup : Type :=
| found (k : nat)
| notFound
| thrown.

(** [header.findIndex(h => h.toLowerCase().trim() === name.toLowerCase())]:
    the cells are visited from the first one, holes included, until one
    matches. *)
Fixpoint findIndexOf (name : jsstring) (k : nat)
    (header : list (option jsstring)) : Lookup :=
  match header with
  | [] => notFound
  | None :: _ => thrown
  | Some h :: r =>
      if decide (trim (toLowerCase h) = toLowerCase name) then found k
      else findIndexOf name (S k) r
  end.

(** [findColumn]: the first potential name that some header cell carries. *)
Fixpoint findColumn (header : list (option jsstring))
    (potentialNames : list jsstring) : Lookup :=
  match potentialNames with
  | [] => notFound
  | name :: r =>
      match findIndexOf name 0 header with
      | notFound => findColumn header r
      | outcome => outcome
      end
  end.

(** An index that is not [-1]. *)
Definition columnIndex (l : Lookup) : option nat :=
  match l with
  | found k => Some k
  | notFound | thrown => None
  end.

(** The text of the error, with its double quotes (code unit 34). *)
Definition columnsError (kind : jsstring) : jsstring :=
  lit "Could not find " ++ [34%N] ++ lit "OST" ++ [34%N] ++ lit " or "
  ++ [34%N] ++ lit "Transcript" ++ [34%N] ++ lit " columns in the "
  ++ kind ++ lit " file.".

Definition xlsxError : jsstring := columnsError (lit "Excel").

Section Xlsx.
Variables ostIndex transcriptIndex slideNoIndex : option nat.

(** The [filter] callback. *)
Definition xlsxKeep (row : list Cell) : bool :=
  match slideNoIndex with
  | Some k => validId (parseInt (cellText (cellAt row k)))
  | None =>
      let ostContent :=
        match ostIndex with
        | Some i => trim (cellText (cellAt row i))
        | None => []
        end in
      let transcriptContent :=
        match transcriptIndex with
        | Some i => trim (cellText (cellAt row i))
        | None => []
        end in
      (0 <? length ostContent)%nat || (0 <? length transcriptContent)%nat
  end.

(** The [map] callback; no slide of the model ([None]) when the id is a
    number beyond the safe integers. *)
Definition xlsxSlide (index : nat) (row : list Cell) : option Slide :=
  let slideId :=
    match slideNoIndex with
    | Some k =>
        let idFromCell := parseInt (cellText (cellAt row k)) in
        if validId idFromCell then exactly idFromCell
        else Some (Z.of_nat index + 1)
    | None => Some (Z.of_nat index + 1)
    end in
  (fun i =>
     createSlideObject i
       (match ostIndex with
        | Some i => cellText (cellAt row i)
        | None => []
        end)
       (match transcriptIndex with
        | Some i => cellText (cellAt row i)
        | None => []
        end)) <$> slideId.

Definition xlsxSlides (dataRows : list (list Cell)) : option (list Slide) :=
  mapM (fun slide => slide) (imap xlsxSlide (List.filter xlsxKeep dataRows)).
End Xlsx.

(** [parseXlsx], from the rows [json] of the first sheet. *)
Definition parseXlsx (json : list (list Cell)) : Result :=
  match json with
  | [] | [_] => resolve []
  | headerRow :: dataRows =>
      let header := List.map headerText headerRow in
      let ostIndex := findColumn header ostNames in
      let transcriptIndex := findColumn header transcriptNames in
      let slideNoIndex := findColumn header slideNoNames in
      match ostIndex, transcriptIndex, slideNoIndex with
      | thrown, _, _ | _, thrown, _ | _, _, thrown => rejectTypeError
      | notFound, notFound, _ => reject xlsxError
      | _, _, _ =>
          match xlsxSlides (columnIndex ostIndex) (columnIndex transcriptIndex)
                  (columnIndex slideNoIndex) dataRows with
          | Some slides => resolve slides
          | None => resolveBeyond
          end
      end
  end.

(** *** Delimited text *)

(** A row of [Papa.parse(..., {header: true})]: an object from header
    fields to cell texts. *)
Definition CsvRow : Type := gmap jsstring jsstring.

(** [header.find(h => names.includes(h.toLowerCase().trim()))] *)
Definition findKey (names : list jsstring) (header : list jsstring)
  : option jsstring :=
  List.find (fun h => bool_decide (trim (toLowerCase h) ∈ names)) header.

(** [String(row[key] || '')] *)
Definition fieldText (row : CsvRow) (key : jsstring) : jsstring :=
  default [] (row !! key).

Definition csvError : jsstring := columnsError (lit "CSV").

Section Csv.
Variables ostKey transcriptKey slideNoKey : option jsstring.

(** The [filter] callback. *)
Definition csvKeep (row : CsvRow) : bool :=
  match slideNoKey with
  | Some k => validId (parseInt (fieldText row k))
  | None =>
      let ostContent :=
        match ostKey with
        | Some i => trim (fieldText row i)
        | None => []
        end in
      let transcriptContent :=
        match transcriptKey with
        | Some i => trim (fieldText row i)
        | None => []
        end in
      (0 <? length ostContent)%nat || (0 <? length transcriptContent)%nat
  end.

(** The [map] callback; no slide of the model ([None]) when the id is a
    number beyond the safe integers. *)
Definition csvSlide (index : nat) (row : CsvRow) : option Slide :=
  let slideId :=
    match slideNoKey with
    | Some k =>
        let idFromCell := parseInt (fieldText row k) in
        if validId idFromCell then exactly idFromCell
        else Some (Z.of_nat index + 1)
    | None => Some (Z.of_nat index + 1)
    end in
  (fun i =>
     createSlideObject i
       (match ostKey with
        | Some i => fieldText row i
        | None => []
        end)
       (match transcriptKey with
        | Some i => fieldText row i
        | None => []
        end)) <$> slideId.

Definition csvSlides (data : list CsvRow) : option (list Slide) :=
  mapM (fun slide => slide) (imap csvSlide (List.filter csvKeep data)).
End Csv.

(** [parseCsv], from [results.meta.fields] and [results.data]. *)
Definition parseCsv (fields : option (list jsstring)) (data : list CsvRow)
  : Result :=
  let header := default [] fields in
  let ostKey := findKey ostNames header in
  let transcriptKey := findKey transcriptNames header in
  let slideNoKey := findKey slideNoNames header in
  match ostKey, transcriptKey with
  | None, None => reject csvError
  | _, _ =>
      match csvSlides ostKey transcriptKey slideNoKey data with
      | Some slides => resolve slides
      | None => resolveBeyond
      end
  end.

(** *** Slide decks *)

(** [runs.join(' ')] *)
Fixpoint joinSpace (runs : list jsstring) : jsstring :=
  match runs with
  | [] => []
  | [r] => r
  | r :: rest => r ++ 32%N :: joinSpace rest
  end.

(** What the callback of [parsePptx] returns for one slide part: the
    number in its file name and the trimmed texts of the slide and of its
    notes. *)
Record SlideData : Type := mkSlideData {
  _sortId : Z;
  d_ost : jsstring;
  d_transcript : jsstring
}.

Definition slideData (slideId : Z) (ostNodes transcriptNodes : list jsstring)
  : SlideData :=
  mkSlideData slideId (trim (joinSpace ostNodes))
    (trim (joinSpace transcriptNodes)).

(** [sort((a, b) => a._sortId - b._sortId)]: the sort is stable, so its
    result is the one of inserting each element, from the last to the
    first, before the first element that does not have a smaller number. *)
Fixpoint insertBySortId (d : SlideData) (l : list SlideData)
  : list SlideData :=
  match l with
  | [] => [d]
  | x :: r =>
      if _sortId d <=? _sortId x then d :: x :: r
      else x :: insertBySortId d r
  end.

Definition sortBySortId (l : list SlideData) : list SlideData :=
  foldr insertBySortId [] l.

(** The end of [parsePptx], from the results of [Promise.all]: the parts
    that gave no slide ([null]) are left out, the rest is sorted by slide
    number and numbered from 1. *)
Definition parsePptx (resolved : list (option SlideData)) : list Slide :=
  let resolvedSlidesData := sortBySortId (omap (fun d => d) resolved) in
  imap (fun index data =>
          createSlideObject (Z.of_nat index + 1) (d_ost data)
            (d_transcript data))
    resolvedSlidesData.

(** *** Dispatch on the file name *)

(** [s.split(c)] for a single character [c]. *)
Fixpoint splitOnFrom (c : N) (cur : jsstring) (s : jsstring)
  : list jsstring :=
  match s with
  | [] => [rev cur]
  | x :: r =>
      if (x =? c)%N then rev cur :: splitOnFrom c [] r
      else splitOnFrom c (x :: cur) r
  end.

Definition splitOn (c : N) (s : jsstring) : list jsstring :=
  splitOnFrom c [] s.

(** [file.name.split('.').pop()?.toLowerCase()] *)
Definition extension (name : jsstring) : jsstring :=
  toLowerCase (List.last (splitOn 46 name) []).

(** A file: its name and what the three libraries read in it. *)
Record File : Type := mkFile {
  name : jsstring;
  sheet : list (list Cell);
  csvFields : option (list jsstring);
  csvData : list CsvRow;
  deck : list (option SlideData)
}.

Definition unsupportedError : jsstring :=
  lit "Unsupported file type. Please upload an Excel, CSV, or PPTX file.".

(** [parseFile] *)
Definition parseFile (file : File) : Result :=
  let ext := extension (name file) in
  if decide (ext = lit "xlsx") then parseXlsx (sheet file)
  else if decide (ext = lit "xls") then parseXlsx (sheet file)
  else if decide (ext = lit "csv") then parseCsv (csvFields file) (csvData file)
  else if decide (ext = lit "pptx") then resolve (parsePptx (deck file))
  else reject unsupportedError.

(** [handleFileChange] of the upload screen: an error message (for a
    [TypeError], the engine's own), or the slides handed to the
    application (of which one may have an id beyond the safe integers). *)
Inductive UploadOutcome : Type :=
| uploadError (message : jsstring)
| uploadTypeError
| onFileUpload (slides : list Slide) (fileName : jsstring)
| onFileUploadBeyond (fileName : jsstring).

Definition noSlidesError : jsstring :=
  lit "Could not extract any slides. Please check the file format and content.".

Definition handleFileChange (file : File) : UploadOutcome :=
  match parseFile file with
  | resolve [] => uploadError noSlidesError
  | resolve slides => onFileUpload slides (name file)
  | resolveBeyond => onFileUploadBeyond (name file)
  | reject message => uploadError message
  | rejectTypeError => uploadTypeError
  end.

End FileParser.

(** ** The live statistics ([StatsPanel]) *)

Module StatsPanel.

Definition activeSlides (slides : list Slide) : list Slide :=
  List.filter Calc.notDiscarded slides.

Definition finalizedSlides (slides : list Slide) : list Slide :=
  List.filter isFinalized (activeSlides slides).

Definition metrics (slides : list Slide) (reviewQuestions finalExamQuestions : number)
  : CpeMetrics :=
  Calc.useCpeCalculator (finalizedSlides slides) reviewQuestions
    finalExamQuestions.

(** The three counters: total, active, [slides.length - activeSlides.length]. *)
Definition totalCount (slides : list Slide) : Z := Z.of_nat (length slides).
Definition activeCount (slides : list Slide) : Z :=
  Z.of_nat (length (activeSlides slides)).
Definition discardedCount (slides : list Slide) : Z :=
  totalCount slides - activeCount slides.
Definition finalizedCount (slides : list Slide) : Z :=
  Z.of_nat (length (finalizedSlides slides)).

(** The value a question field hands over:
    [parseInt(e.target.value, 10) || 0]; no number of the model ([None])
    for a text that reads beyond the safe integers. *)
Definition questionInput (value : jsstring) : option number :=
  (fun n => JsNum.or_else n (of_Z 0))
    <$> FileParser.numberOf (FileParser.parseInt value).

End StatsPanel.

(** ** The summary ([FinalizationScreen]) *)

Module FinalizationScreen.

Definition activeSlides (slides : list Slide) : list Slide :=
  List.filter Calc.notDiscarded slides.

Definition discardedSlides (slides : list Slide) : list Slide :=
  List.filter (fun s => ReviewScreen.truthyFlag (isDiscarded s)) slides.

Definition metrics (slides : list Slide) (reviewQuestions finalExamQuestions : number)
  : CpeMetrics :=
  Calc.useCpeCalculator (activeSlides slides) reviewQuestions
    finalExamQuestions.

(** The "Word Count" cell of a row: [0] for a discarded slide, ['N/A']
    ([None]) for a narration-only slide, the count of the text otherwise. *)
Definition wordCountCell (s : Slide) : option nat :=
  if ReviewScreen.truthyFlag (isDiscarded s) then Some 0%nat
  else
    match selectedSource s with
    | AUDIO => None
    | OST | BOTH =>
        Some (length (List.filter JsString.truthy
                        (split_ws (trim (JsString.or_else (ost s) [])))))
    end.

End FinalizationScreen.

(** ** The audio dialog ([AudioUploadModal]) *)

Module AudioUploadModal.

(** [String(n).padStart(2, '0')] *)
Definition padStart2 (s : jsstring) : jsstring :=
  List.repeat 48%N (2 - length s) ++ s.

(** [String(n)] for the result of [Math.floor] or [Math.round]: the
    decimal numeral of a whole number, which is what the code writes below
    [10^21] (that many minutes or seconds are no duration of a recording;
    from there on the code writes an exponent, which is not followed). *)
Definition stringOfWhole (a : number) : jsstring :=
  match a with
  | NaN => lit "NaN"
  | Fin q => FileParser.decimal (Qfloor q)
  end.


(** [handleSegmentToggle] on the set of segments to delete. *)
Definition handleSegmentToggle (segmentText : jsstring)
    (segmentsToDelete : gset jsstring) : gset jsstring :=
  if decide (segmentText ∈ segmentsToDelete)
  then segmentsToDelete ∖ {[segmentText]}
  else segmentsToDelete ∪ {[segmentText]}.

(** The word count that [handleTranscribe] stores:
    [segments.reduce((acc, s) => acc + s.text.trim().split(/\s+/).length, 0)]. *)
Definition segmentWords (text : jsstring) : nat :=
  length (split_ws (trim text)).

Definition transcriptionWordCount (segs : list Segment) : nat :=
  fold_left (fun acc s => (acc + segmentWords (seg_text s))%nat) segs 0%nat.

(** The attachment that [handleAccept] hands over:
    [{ ...audioMeta, source: 'upload' }]. *)
Definition acceptedMeta (m : AudioMeta) : AudioMeta :=
  mkAudioMeta upload (fileId m) (fileName m) (fileSize m)
    (originalDuration m) (trimmedDuration m) (trimmedRanges m) (isTrimmed m)
    (simulated m) (commandSnippet m) (transcription m).

End AudioUploadModal.

(** ** The reports ([exportService]) *)

Module ExportService.

Import AudioUploadModal.

(** [formatDurationForAudioExport] *)
Definition formatDurationForAudioExport (minutes : number) : jsstring :=
  if JsNum.isNaN minutes || JsNum.lt minutes (of_Z 0)
  then lit "0' 00" ++ [34%N]
  else
    let totalSeconds := (minutes * of_Z 60)%js in
    let m := JsNum.floor (totalSeconds / of_Z 60)%js in
    let s := JsNum.round (JsNum.rem totalSeconds (of_Z 60)) in
    stringOfWhole m ++ lit "' " ++ padStart2 (stringOfWhole s) ++ [34%N].

(** [formatTrimmedDuration] *)
Definition formatTrimmedDuration (seconds : number) : jsstring :=
  if JsNum.isNaN seconds || JsNum.leb seconds (of_Z 0)
  then lit "0 min 0 sec"
  else
    let m := JsNum.floor (seconds / of_Z 60)%js in
    let s := JsNum.round (JsNum.rem seconds (of_Z 60)) in
    stringOfWhole m ++ lit " min " ++ stringOfWhole s ++ lit " sec".

Definition countsWords (s : Slide) : bool :=
  Calc.notDiscarded s
  && match selectedSource s with OST | BOTH => true | AUDIO => false end.

Definition countsAudio (s : Slide) : bool :=
  Calc.notDiscarded s
  && match selectedSource s with AUDIO | BOTH => true | OST => false end.

Definition getWordCount (text : jsstring) : nat :=
  length (List.filter JsString.truthy (split_ws (trim text))).

(** [s.replace(/(\r\n|\n|\r)/gm, " ")]: a CR LF pair, a lone LF and a
    lone CR each become one space. *)
Fixpoint flattenLines (s : jsstring) : jsstring :=
  match s with
  | [] => []
  | c :: r =>
      if (c =? 13)%N then
        match r with
        | 10%N :: r' => 32%N :: flattenLines r'
        | _ => 32%N :: flattenLines r
        end
      else if (c =? 10)%N then 32%N :: flattenLines r
      else c :: flattenLines r
  end.

(** A cell of the data handed to [Papa.unparse]. *)
Inductive Field : Type :=
| text (s : jsstring)
| num (n : number).

(** The word-count report: [csvData] of [exportWordCountCsv]. *)
Definition wordCountSlides (slides : list Slide) : list Slide :=
  List.filter countsWords slides.

Definition totalWordCount (slides : list Slide) : number :=
  fold_left (fun sum s => (sum + of_nat (getWordCount (ost s)))%js)
    (wordCountSlides slides) (of_Z 0).

Definition wordCountRows (slides : list Slide) : list (list Field) :=
  List.map (fun s => [num (of_Z (id s));
                      num (of_nat (getWordCount (ost s)));
                      text (flattenLines (ost s))])
    (wordCountSlides slides).

Definition wordCountCsvData (slides : list Slide) : list (list Field) :=
  [text (lit "Total word count:"); num (totalWordCount slides)]
  :: []
  :: [text (lit "Slide no"); text (lit "Word Count"); text (lit "Final OST")]
  :: wordCountRows slides.

(** The audio report: [csvData] of [exportAudioCountCsv]. *)
Definition audioSlides (slides : list Slide) : list Slide :=
  List.filter countsAudio slides.

Definition totalAvMinutes (slides : list Slide) : number :=
  fold_left (fun sum s => (sum + audioDuration s)%js)
    (audioSlides slides) (of_Z 0).

Definition truthyNumber (n : option number) : bool :=
  match n with
  | Some a => JsNum.truthy a
  | None => false
  end.

(** [trimmedOutDurationSec]: the difference of the two durations when the
    attachment is trimmed and both durations are truthy, 0 otherwise. *)
Definition trimmedOutDurationSec (s : Slide) : number :=
  let m := audioMeta s in
  if ReviewScreen.truthyFlag (isTrimmed m)
     && truthyNumber (originalDuration m)
     && truthyNumber (trimmedDuration m)
  then
    match originalDuration m, trimmedDuration m with
    | Some o, Some t => (o - t)%js
    | _, _ => of_Z 0
    end
  else of_Z 0.

Definition audioRows (slides : list Slide) : list (list Field) :=
  List.map (fun s => [num (of_Z (id s));
                      text (formatDurationForAudioExport (audioDuration s));
                      text (formatTrimmedDuration (trimmedOutDurationSec s))])
    (audioSlides slides).

Definition audioCsvData (slides : list Slide) : list (list Field) :=
  [text (lit "Total AV minutes:");
   text (formatDurationForAudioExport (totalAvMinutes slides))]
  :: []
  :: [text (lit "Slide no"); text (lit "Final Duration");
      text (lit "Trimmed out duration")]
  :: audioRows slides.

(** [fileName.split('.')[0]]: the name up to its first dot. *)
Definition baseName (fileName : jsstring) : jsstring :=
  default [] (head (FileParser.splitOn 46 fileName)).

Definition wordCountFileName (fileName : jsstring) : jsstring :=
  lit "WordCount_Export_" ++ baseName fileName ++ lit ".csv".

Definition audioFileName (fileName : jsstring) : jsstring :=
  lit "AudioCount_Export_" ++ baseName fileName ++ lit ".csv".

End ExportService.

(** ** The specification's vocabulary *)

Module Spec.

(** The words of a text: the maximal runs of characters that are not white
    space, in order.  A character that is not white space starts a word of
    its own when the rest of the text is at a boundary (its end, or a white
    space), and extends the first word of the rest otherwise. *)
Definition atBoundary (s : jsstring) : bool :=
  match s with
  | [] => true
  | c :: _ => isWhiteSpace c
  end.

Fixpoint words (s : jsstring) : list jsstring :=
  match s with
  | [] => []
  | c :: r =>
      if isWhiteSpace c then words r
      else
        match words r with
        | w :: ws => if atBoundary r then [c] :: w :: ws else (c :: w) :: ws
        | [] => [[c]]
        end
  end.

(** "Split on runs of whitespace, discard empty tokens, count remaining
    tokens." *)
Definition wordCount (s : jsstring) : nat := length (words s).

(** A slide is active when it is not marked discarded. *)
Definition active (s : Slide) : Prop := isDiscarded s ≠ Some true.

#[global] Instance active_dec (s : Slide) : Decision (active s).
Proof. unfold active. apply _. Defined.

Definition wordContribution (s : Slide) : number :=
  match selectedSource s with
  | OST | BOTH => of_nat (wordCount (ost s))
  | AUDIO => of_Z 0
  end.

Definition timeContribution (s : Slide) : number :=
  match selectedSource s with
  | AUDIO | BOTH => audioDuration s
  | OST => of_Z 0
  end.

(** The sum of a contribution over a collection. *)
Definition total (f : Slide → number) (l : list Slide) : number :=
  foldr (fun s a => (f s + a)%js) (of_Z 0) l.

(** A question count "treated as 0 if negative or NaN". *)
Definition sanitized (n : number) : number :=
  match n with
  | NaN => of_Z 0
  | Fin q => if Qle_bool 0 q then Fin q else of_Z 0
  end.

(** A question count treated as 0 only when it is NaN. *)
Definition nanAsZero (n : number) : number :=
  match n with
  | NaN => of_Z 0
  | Fin q => Fin q
  end.

(** The state the specification gives a slide after undo discard: active,
    a draft, without discard reason or note. *)
Definition reentersAsDraft (s : Slide) : Prop :=
  isDiscarded s ≠ Some true ∧ isFinalized s = false
  ∧ discardReason s = None ∧ discardNote s = None.

(** A cell that "parses as a positive integer". *)
Definition hasNumericId (cell : jsstring) : bool :=
  FileParser.validId (FileParser.parseInt cell).

(** The positive integer that the cell parses as (0 when there is none, or
    none that is a safe integer). *)
Definition numericId (cell : jsstring) : Z :=
  default 0 (FileParser.exactly (FileParser.parseInt cell)).



End Spec.

(** ** Auxiliary notions *)

(** The half-hours below [r], as an integer. *)
Definition halves (r : Q) : Z := Qfloor (r * 2)%Q.

(** Texts made of white space only, and texts without any. *)
Definition allWhite (s : jsstring) : Prop :=
  Forall (fun c => isWhiteSpace c = true) s.
Definition noWhite (s : jsstring) : Prop :=
  Forall (fun c => isWhiteSpace c = false) s.



(** The credit as a function of the three totals (lines 34 to 49 of the
    engine). *)
Definition credit (w av q : number) : number :=
  Calc.roundDown
    ((w / of_Z 180 + av + q * Calc.minutesPerQuestion) / of_Z 60)%js.

(** [a] is at most [b], or both are the same value (NaN included). *)
Definition upTo (a b : number) : Prop := a ⪯ b ∨ a ≃ b.

(** Two metrics records with the same values in every field. *)
Definition sameMetrics (m m' : CpeMetrics) : Prop :=
  totalWords m ≃ totalWords m'
  ∧ totalAvMinutes m ≃ totalAvMinutes m'
  ∧ totalQuestions m ≃ totalQuestions m'
  ∧ wordsCpe m ≃ wordsCpe m'
  ∧ avCpe m ≃ avCpe m'
  ∧ questionsCpe m ≃ questionsCpe m'
  ∧ rawCpeHours m ≃ rawCpeHours m'
  ∧ roundedCpe m ≃ roundedCpe m'.

(** A number that is not NaN and not negative. *)
Definition nonNegative (a : number) : Prop := of_Z 0 ⪯ a.

(** A question count as the fields deliver it: NaN or not negative. *)
Definition cleanCount (a : number) : Prop :=
  match a with
  | NaN => True
  | Fin q => (0 <= q)%Q
  end.

(** The sum of the numeric word-count cells of the summary table. *)
Definition tableWords (slides : list Slide) : nat :=
  foldr (fun s a => (default 0 (FinalizationScreen.wordCountCell s) + a)%nat)
    0%nat slides.

(** A text whose last character is white space. *)
Fixpoint endsWhite (s : jsstring) : bool :=
  match s with
  | [] => false
  | c :: r =>
      match r with
      | [] => isWhiteSpace c
      | _ :: _ => endsWhite r
      end
  end.

(** A text whose first character is white space. *)
Definition startsWhite (s : jsstring) : bool :=
  match s with
  | [] => false
  | c :: _ => isWhiteSpace c
  end.

(** The entity that stands for a character in escaped text. *)
Definition escapeChar (c : N) : jsstring :=
  if (c =? 38)%N then lit "&amp;"
  else if (c =? 60)%N then lit "&lt;"
  else if (c =? 62)%N then lit "&gt;"
  else if (c =? 34)%N then lit "&quot;"
  else if (c =? 39)%N then lit "&#039;"
  else [c].

(** The characters with a meaning in markup: ampersand, angle brackets and
    the two quotes. *)
Definition markupChar (c : N) : bool :=
  ((c =? 38) || (c =? 60) || (c =? 62) || (c =? 34) || (c =? 39))%N.

(** The slides whose on-screen text (whose narration) the engine counts:
    not discarded, with a content source that includes it. *)
Definition countsText (s : Slide) : bool :=
  Calc.notDiscarded s
  && match selectedSource s with OST | BOTH => true | AUDIO => false end.

Definition countsNarration (s : Slide) : bool :=
  Calc.notDiscarded s
  && match selectedSource s with AUDIO | BOTH => true | OST => false end.

(** The running totals of the [reduce]: the word counts (the durations) of
    these slides added one after the other, in the order of the
    collection, to what was accumulated before them. *)
Definition addWords (acc : number) (slides : list Slide) : number :=
  fold_left (fun sum s => (sum + of_nat (Spec.wordCount (ost s)))%js)
    (List.filter countsText slides) acc.

Definition addMinutes (acc : number) (slides : list Slide) : number :=
  fold_left (fun sum s => (sum + audioDuration s)%js)
    (List.filter countsNarration slides) acc.

(** The durations that the engine adds, in the order in which it adds
    them. *)
Definition narrationDurations (slides : list Slide) : list number :=
  List.map audioDuration (List.filter countsNarration slides).

(** A multiple of one half that is not negative, among the numbers with
    the infinities. *)
Definition wideHalfSteps (a : JsWide.wide) : Prop :=
  ∃ k : nat, JsWide.same a (JsWide.wFin (inject_Z (Z.of_nat k) / 2)).

(** A header row without a blank cell. *)
Definition dense (header : list (option jsstring)) : Prop :=
  Forall is_Some header.

(** A text that does not go on with a digit. *)
Definition noDigitAhead (s : jsstring) : Prop :=
  match s with
  | [] => True
  | c :: _ => FileParser.isDigit c = false
  end.

(** A slide as ingestion creates it: a draft on its on-screen text, without
    duration, attachment or discard. *)
Definition freshDraft (s : Slide) : Prop :=
  selectedSource s = OST ∧ audioDuration s = of_Z 0 ∧ isFinalized s = false
  ∧ audioMeta s = manualMeta ∧ isDiscarded s = Some false
  ∧ discardReason s = None.



(** ** Sample inputs *)

Module Samples.

(** A finalized slide that counts narration only. *)
Definition audioSlide (i : Z) (d : Q) : Slide :=
  mkSlide i [] [] AUDIO (Fin d) true manualMeta (Some false)
    None None None None None None.

(** A finalized slide that counts on-screen text only. *)
Definition textSlide (i : Z) (t : String.string) : Slide :=
  mkSlide i (lit t) [] OST (of_Z 0) true manualMeta (Some false)
    None None None None None None.

(** A finalized slide that counts both. *)
Definition bothSlide (i : Z) (t : String.string) (d : Q) : Slide :=
  mkSlide i (lit t) [] BOTH (Fin d) true manualMeta (Some false)
    None None None None None None.

(** A discarded slide with content in every field. *)
Definition discardedSlide (i : Z) : Slide :=
  mkSlide i (lit "dropped words here") (lit "spoken") BOTH (Fin 45) true
    manualMeta (Some true) (Some (lit "Duplicate content")) (Some [])
    (Some (lit "2024-01-01T00:00:00.000Z")) (Some (lit "user")) None None.

(** A draft slide, as ingestion creates it, that counts narration. *)
Definition draftAudioSlide (i : Z) : Slide :=
  mkSlide i (lit "Hello world") [] AUDIO (of_Z 0) false manualMeta
    (Some false) None None None None None None.

(** A finalized narration slide whose uploaded recording of [o] seconds
    was trimmed to [t] seconds. *)
Definition trimmedSlide (i : Z) (o t : Q) : Slide :=
  mkSlide i [] [] AUDIO (Fin (t / 60)) true
    (mkAudioMeta upload None (Some (lit "narration.mp3")) None
       (Some (Fin o)) (Some (Fin t)) None (Some true) None None None)
    (Some false) None None None None None None.

Definition store (l : list Slide) : ReviewScreen.State :=
  ReviewScreen.mkState l (ReviewScreen.activeSlideId_of l) (of_Z 0) (of_Z 0)
    None.

(** A review session on one slide: the slide is finalized, then discarded
    for being a duplicate, then selected again in the list and its discard
    undone.  Each stage is the editor and the store after the step. *)
Module Session.
Import SlideEditor ReviewScreen.

Definition slide0 : Slide := FileParser.createSlideObject 1 (lit "Hello world") [].
Definition store0 : ReviewScreen.State := store [slide0].
Definition editor0 : SlideEditor.State := mount slide0.

(** finalize *)
Definition finalized : bool * SlideEditor.State * list Callback :=
  handleFinalize editor0.
Definition store1 : ReviewScreen.State := deliver (finalized.2) store0.
Definition editor1 : SlideEditor.State :=
  match findSlide 1 (slides store1) with
  | Some s => rerender s (finalized.1.2)
  | None => finalized.1.2
  end.

(** discard, with a reason selected *)
Definition discarded : SlideEditor.State * list Callback :=
  handleDiscardConfirm (lit "2024-01-01T10:00:00.000Z")
    (setDiscardReason (lit "Duplicate content") editor1).
Definition store2 : ReviewScreen.State := deliver (discarded.2) store1.

(** the slide is selected again: the editor is mounted on it *)
Definition store3 : ReviewScreen.State := setActiveSlideId (Some 1) store2.
Definition editor3 : SlideEditor.State :=
  match findSlide 1 (slides store3) with
  | Some s => mount s
  | None => discarded.1
  end.

(** undo discard *)
Definition undone : SlideEditor.State * list Callback :=
  handleUndoDiscard (lit "2024-01-01T10:05:00.000Z") editor3.
Definition store4 : ReviewScreen.State := deliver (undone.2) store3.
End Session.

(** A delimited file with a slide-number column whose second row has text
    but no slide number. *)
Module Sheet.
Import FileParser.

Definition slideNo : jsstring := lit "Slide No".
Definition OSTcol : jsstring := lit "OST".
Definition fields : list jsstring := [slideNo; OSTcol].

Definition row1 : CsvRow :=
  <[slideNo := lit "1"]> (<[OSTcol := lit "Introduction"]> ∅).
Definition row2 : CsvRow :=
  <[slideNo := lit ""]> (<[OSTcol := lit "Body text"]> ∅).
Definition row3 : CsvRow :=
  <[slideNo := lit "7"]> (<[OSTcol := lit ""]> ∅).
Definition data : list CsvRow := [row1; row2; row3].

(** The same sheet as a workbook. *)
Definition json : list (list Cell) :=
  [ [CellString slideNo; CellString OSTcol];
    [CellNumber 1 I; CellString (lit "Introduction")];
    [CellUndefined; CellString (lit "Body text")];
    [CellNumber 7 I] ].



End Sheet.

End Samples.

(** * Properties *)

(** ** Numbers *)

Section NumberFacts.

#[global] Instance same_equivalence : Equivalence JsNum.same.
Proof.
  split.
  - intros [|x]; simpl; [exact I | reflexivity].
  - intros [|x] [|y]; simpl; auto. intros H; symmetry; exact H.
  - intros [|x] [|y] [|z]; simpl; auto; try contradiction.
    intros H1 H2. rewrite H1. exact H2.
Qed.

#[global] Instance add_proper :
  Proper (JsNum.same ==> JsNum.same ==> JsNum.same) JsNum.add.
Proof.
  intros [|x] [|x'] Hx [|y] [|y'] Hy; simpl in *; auto; try contradiction.
  rewrite Hx, Hy. reflexivity.
Qed.

#[global] Instance mul_proper :
  Proper (JsNum.same ==> JsNum.same ==> JsNum.same) JsNum.mul.
Proof.
  intros [|x] [|x'] Hx [|y] [|y'] Hy; simpl in *; auto; try contradiction.
  rewrite Hx, Hy. reflexivity.
Qed.

Lemma same_eq (a b : number) : a = b → a ≃ b.
Proof. intros ->. reflexivity. Qed.

Lemma add_comm (a b : number) : (a + b)%js ≃ (b + a)%js.
Proof. destruct a, b; simpl; auto. apply Qplus_comm. Qed.

Lemma add_assoc (a b c : number) : (a + (b + c))%js ≃ (a + b + c)%js.
Proof. destruct a, b, c; simpl; auto. apply Qplus_assoc. Qed.

Lemma add_zero_l (a : number) : (of_Z 0 + a)%js ≃ a.
Proof. destruct a; simpl; auto. apply Qplus_0_l. Qed.

Lemma add_zero_r (a : number) : (a + of_Z 0)%js ≃ a.
Proof. destruct a; simpl; auto. apply Qplus_0_r. Qed.

Lemma le_same_l (a a' b : number) : a ≃ a' → a ⪯ b → a' ⪯ b.
Proof.
  destruct a, a', b; simpl; try tauto. intros H1 H2. rewrite <- H1. exact H2.
Qed.

Lemma le_same_r (a b b' : number) : b ≃ b' → a ⪯ b → a ⪯ b'.
Proof.
  destruct a, b, b'; simpl; try tauto. intros H1 H2. rewrite <- H1. exact H2.
Qed.

End NumberFacts.

(** ** Rounding *)

Section Rounding.

Local Open Scope Q_scope.

Lemma Qhalf (x : Q) : x / 2 == x * (1 # 2).
Proof. field. Qed.

Lemma roundDown_NaN : Calc.roundDown NaN = of_Z 0.
Proof. reflexivity. Qed.

Lemma roundDown_Fin (r : Q) :
  Calc.roundDown (Fin r) =
  if Qle_bool (inject_Z (halves r) / 2) 0 then of_Z 0
  else Fin (inject_Z (halves r) / 2).
Proof.
  unfold Calc.roundDown, halves. simpl.
  destruct (Qle_bool _ _); reflexivity.
Qed.

Lemma half_le_zero (k : Z) : inject_Z k / 2 <= 0 ↔ (k <= 0)%Z.
Proof.
  rewrite (Zle_Qle k 0), Qhalf. change (inject_Z 0) with 0.
  split; intros H; lra.
Qed.

(** In every case the result is [max 0 (floor (2 r))] half-hours. *)
Lemma roundDown_max (r : Q) :
  Calc.roundDown (Fin r) ≃ Fin (inject_Z (Z.max 0 (halves r)) / 2).
Proof.
  rewrite roundDown_Fin.
  destruct (Qle_bool _ _) eqn:E; simpl.
  - apply Qle_bool_iff in E. apply (proj1 (half_le_zero _)) in E.
    rewrite Z.max_l by exact E. reflexivity.
  - assert (¬ (halves r <= 0)%Z) as H.
    { intros H. apply (proj2 (half_le_zero _)) in H.
      apply Qle_bool_iff in H. congruence. }
    rewrite Z.max_r by lia. reflexivity.
Qed.

Lemma halves_nonneg (r : Q) : 0 <= r → (0 <= halves r)%Z.
Proof.
  intros H. unfold halves.
  change 0%Z with (Qfloor 0). apply Qfloor_resp_le. lra.
Qed.

Lemma halves_neg (r : Q) : r < 0 → (halves r < 0)%Z.
Proof.
  intros H. unfold halves.
  assert (L : inject_Z (Qfloor (r * 2)) <= r * 2) by apply Qfloor_le.
  apply Z.lt_nge. intros K. rewrite Zle_Qle in K.
  change (inject_Z 0) with 0 in K. lra.
Qed.

Lemma halves_below (r : Q) : inject_Z (halves r) / 2 <= r.
Proof.
  assert (L : inject_Z (Qfloor (r * 2)) <= r * 2) by apply Qfloor_le.
  unfold halves. rewrite Qhalf. lra.
Qed.

Lemma halves_close (r : Q) : r < inject_Z (halves r) / 2 + (1 # 2).
Proof.
  assert (L : r * 2 < inject_Z (Qfloor (r * 2) + 1)) by apply Qlt_floor.
  unfold halves. rewrite inject_Z_plus in L. rewrite Qhalf.
  change (inject_Z 1) with 1 in L. lra.
Qed.

Lemma halves_mono (r1 r2 : Q) : r1 <= r2 → (halves r1 <= halves r2)%Z.
Proof. intros H. apply Qfloor_resp_le. lra. Qed.

Lemma halves_comp (r1 r2 : Q) : r1 == r2 → halves r1 = halves r2.
Proof. intros H. unfold halves. apply Qfloor_comp. rewrite H. reflexivity. Qed.

Lemma roundDown_nonneg (r : Q) :
  0 <= r → Calc.roundDown (Fin r) ≃ Fin (inject_Z (halves r) / 2).
Proof.
  intros H. rewrite roundDown_max.
  rewrite Z.max_r by (apply halves_nonneg; exact H). reflexivity.
Qed.

Lemma roundDown_negative (r : Q) : r < 0 → Calc.roundDown (Fin r) = of_Z 0.
Proof.
  intros H. rewrite roundDown_Fin.
  assert (E : Qle_bool (inject_Z (halves r) / 2) 0 = true).
  { apply Qle_bool_iff. apply (proj2 (half_le_zero _)).
    apply halves_neg in H. lia. }
  rewrite E. reflexivity.
Qed.

Lemma roundDown_proper (a b : number) :
  a ≃ b → Calc.roundDown a ≃ Calc.roundDown b.
Proof.
  destruct a as [|x], b as [|y]; simpl; try tauto.
  - intros _. reflexivity.
  - intros H. rewrite !roundDown_max, (halves_comp x y H). reflexivity.
Qed.

Lemma roundDown_mono (x y : Q) :
  x <= y → Calc.roundDown (Fin x) ⪯ Calc.roundDown (Fin y).
Proof.
  intros H.
  eapply le_same_l; [symmetry; apply roundDown_max|].
  eapply le_same_r; [symmetry; apply roundDown_max|].
  simpl. apply halves_mono in H.
  assert (K : (Z.max 0 (halves x) <= Z.max 0 (halves y))%Z) by lia.
  rewrite Zle_Qle in K. rewrite !Qhalf. lra.
Qed.

Lemma roundDown_finite (a : number) : is_finite (Calc.roundDown a).
Proof.
  destruct a as [|r]; [exact I|].
  rewrite roundDown_Fin. destruct (Qle_bool _ _); exact I.
Qed.

End Rounding.

(** ** Word counting *)

Section Words.

Lemma words_allWhite (s : jsstring) : allWhite s → Spec.words s = [].
Proof.
  induction 1 as [|c r Hc _ IH]; simpl; [reflexivity|].
  rewrite Hc. exact IH.
Qed.

Lemma atBoundary_allWhite (s : jsstring) : allWhite s → Spec.atBoundary s = true.
Proof. destruct 1; simpl; auto. Qed.

Lemma words_allWhite_app_l (w s : jsstring) :
  allWhite w → Spec.words (w ++ s) = Spec.words s.
Proof.
  induction 1 as [|c r Hc _ IH]; simpl; [reflexivity|].
  rewrite Hc. exact IH.
Qed.

Lemma words_allWhite_app_r (s w : jsstring) :
  allWhite w → Spec.words (s ++ w) = Spec.words s.
Proof.
  intros Hw. induction s as [|c r IH]; simpl.
  - apply words_allWhite, Hw.
  - destruct (isWhiteSpace c); [exact IH|].
    rewrite IH. destruct r as [|c' r']; reflexivity.
Qed.

Lemma trimStart_split (s : jsstring) :
  ∃ w, allWhite w ∧ s = w ++ trimStart s.
Proof.
  induction s as [|c r (w & Hw & E)]; simpl.
  - exists []. split; [constructor | reflexivity].
  - destruct (isWhiteSpace c) eqn:Hc.
    + exists (c :: w). split; [constructor; assumption|].
      simpl. f_equal. exact E.
    + exists []. split; [constructor | reflexivity].
Qed.

Lemma trimEnd_split (s : jsstring) :
  ∃ w, allWhite w ∧ s = trimEnd s ++ w.
Proof.
  destruct (trimStart_split (rev s)) as (w & Hw & E).
  exists (rev w). split.
  - unfold allWhite in *. apply Forall_forall. intros c Hc.
    rewrite Forall_forall in Hw. apply Hw.
    apply list_elem_of_In. apply list_elem_of_In, in_rev in Hc. exact Hc.
  - unfold trimEnd. rewrite <- rev_app_distr, <- E, rev_involutive.
    reflexivity.
Qed.

Lemma words_trim (s : jsstring) : Spec.words (trim s) = Spec.words s.
Proof.
  unfold trim.
  destruct (trimStart_split s) as (w1 & H1 & E1).
  destruct (trimEnd_split (trimStart s)) as (w2 & H2 & E2).
  rewrite E1 at 2. rewrite (words_allWhite_app_l _ _ H1).
  rewrite E2 at 2. rewrite (words_allWhite_app_r _ _ H2).
  reflexivity.
Qed.

(** A run without white space that ends at a boundary is one word. *)
Lemma words_run (c : N) (w rest : jsstring) :
  noWhite (c :: w) → Spec.atBoundary rest = true →
  Spec.words ((c :: w) ++ rest) = (c :: w) :: Spec.words rest.
Proof.
  revert c. induction w as [|c2 w IH]; intros c Hn Hb.
  - simpl. inversion Hn as [|? ? Hc _]; subst. rewrite Hc, Hb.
    destruct (Spec.words rest); reflexivity.
  - inversion Hn as [|? ? Hc Hn']; subst.
    specialize (IH c2 Hn' Hb).
    change ((c :: c2 :: w) ++ rest) with (c :: ((c2 :: w) ++ rest)).
    cbn [Spec.words]. rewrite Hc, IH.
    inversion Hn' as [|? ? Hc2 _]; subst. simpl. rewrite Hc2. reflexivity.
Qed.

Lemma noWhite_rev (w : jsstring) : noWhite w → noWhite (rev w).
Proof.
  unfold noWhite. rewrite !Forall_forall. intros H c Hc.
  apply H. apply list_elem_of_In. apply list_elem_of_In, in_rev in Hc.
  exact Hc.
Qed.

Lemma words_piece (cur rest : jsstring) :
  noWhite cur → Spec.atBoundary rest = true →
  Spec.words (rev cur ++ rest)
  = List.filter JsString.truthy [rev cur] ++ Spec.words rest.
Proof.
  intros Hn Hb. apply noWhite_rev in Hn.
  destruct (rev cur) as [|c w]; [reflexivity|].
  simpl List.filter. apply words_run; assumption.
Qed.

(** The pieces that [split] yields and [filter(Boolean)] keeps are the
    words of the text, whatever the state of the scan. *)
Lemma split_ws_from_words (s : jsstring) :
  (∀ cur, noWhite cur →
     List.filter JsString.truthy (split_ws_from false cur s)
     = Spec.words (rev cur ++ s))
  ∧ List.filter JsString.truthy (split_ws_from true [] s) = Spec.words s.
Proof.
  induction s as [|c r [IHf IHt]].
  - split; [|reflexivity].
    intros cur Hn. cbn [split_ws_from].
    rewrite (words_piece cur [] Hn eq_refl). simpl Spec.words.
    rewrite app_nil_r. reflexivity.
  - split.
    + intros cur Hn. cbn [split_ws_from].
      destruct (isWhiteSpace c) eqn:Hc.
      * rewrite (words_piece cur (c :: r) Hn) by (simpl; exact Hc).
        cbn [Spec.words]. rewrite Hc, <- IHt.
        destruct (rev cur); reflexivity.
      * rewrite IHf by (constructor; assumption).
        simpl rev. rewrite <- app_assoc. reflexivity.
    + cbn [split_ws_from]. destruct (isWhiteSpace c) eqn:Hc.
      * rewrite IHt. simpl. rewrite Hc. reflexivity.
      * rewrite IHf by (constructor; [assumption | constructor]).
        reflexivity.
Qed.

Lemma kept_pieces_are_words (text : jsstring) :
  List.filter JsString.truthy (split_ws (trim text)) = Spec.words text.
Proof.
  unfold split_ws.
  rewrite (proj1 (split_ws_from_words (trim text)) []) by constructor.
  apply words_trim.
Qed.

Lemma getWordCount_wordCount (text : jsstring) :
  Calc.getWordCount text = Spec.wordCount text.
Proof.
  unfold Calc.getWordCount, Spec.wordCount.
  rewrite kept_pieces_are_words. reflexivity.
Qed.

End Words.

(** ** Totals of the aggregation *)

Section Totals.

Lemma activeSlides_filter (slides : list Slide) :
  Calc.activeSlides slides = filter Spec.active slides.
Proof.
  unfold Calc.activeSlides.
  induction slides as [|s l IH]; [reflexivity|].
  rewrite filter_cons. simpl. rewrite IH.
  destruct (decide (Spec.active s)) as [H|H]; unfold Spec.active in H;
    unfold Calc.notDiscarded;
    destruct (isDiscarded s) as [[|]|]; try reflexivity; try congruence.
  - exfalso. apply H. congruence.
  - exfalso. apply H. congruence.
Qed.

Lemma activeSlides_idem (slides : list Slide) :
  Calc.activeSlides (Calc.activeSlides slides) = Calc.activeSlides slides.
Proof.
  unfold Calc.activeSlides.
  induction slides as [|s l IH]; [reflexivity|].
  simpl. destruct (Calc.notDiscarded s) eqn:E; simpl; rewrite ?E, IH; reflexivity.
Qed.

Lemma activeSlides_app (l1 l2 : list Slide) :
  Calc.activeSlides (l1 ++ l2) = Calc.activeSlides l1 ++ Calc.activeSlides l2.
Proof. apply List.filter_app. Qed.

Lemma activeSlides_drop (l1 l2 : list Slide) (s : Slide) :
  isDiscarded s = Some true →
  Calc.activeSlides (l1 ++ s :: l2) = Calc.activeSlides (l1 ++ l2).
Proof.
  intros H. rewrite !activeSlides_app. f_equal.
  unfold Calc.activeSlides. simpl. unfold Calc.notDiscarded at 1.
  rewrite H. reflexivity.
Qed.

Lemma activeSlides_keep (l1 l2 : list Slide) (s : Slide) :
  Spec.active s →
  Calc.activeSlides (l1 ++ s :: l2)
  = Calc.activeSlides l1 ++ s :: Calc.activeSlides l2.
Proof.
  intros H. rewrite activeSlides_app. f_equal.
  unfold Calc.activeSlides. simpl. unfold Calc.notDiscarded at 1.
  unfold Spec.active in H.
  destruct (isDiscarded s) as [[|]|]; try reflexivity. congruence.
Qed.

(** The engine reads its slides only through the active ones. *)
Lemma useCpeCalculator_active (l l' : list Slide) (rq fq : number) :
  Calc.activeSlides l = Calc.activeSlides l' →
  Calc.useCpeCalculator l rq fq = Calc.useCpeCalculator l' rq fq.
Proof.
  intros H. unfold Calc.useCpeCalculator, Calc.totalsOf. rewrite H.
  reflexivity.
Qed.

Lemma step_words (acc : Calc.Totals) (s : Slide) :
  Calc.t_totalWords (Calc.step acc s)
  ≃ (Calc.t_totalWords acc + Spec.wordContribution s)%js.
Proof.
  unfold Calc.step, Spec.wordContribution.
  destruct (selectedSource s); simpl Calc.t_totalWords;
    rewrite ?getWordCount_wordCount; try reflexivity.
  symmetry. apply add_zero_r.
Qed.

Lemma step_time (acc : Calc.Totals) (s : Slide) :
  Calc.t_totalAvMinutes (Calc.step acc s)
  ≃ (Calc.t_totalAvMinutes acc + Spec.timeContribution s)%js.
Proof.
  unfold Calc.step, Spec.timeContribution.
  destruct (selectedSource s); simpl Calc.t_totalAvMinutes;
    try reflexivity.
  symmetry. apply add_zero_r.
Qed.

Lemma fold_words (l : list Slide) (acc : Calc.Totals) :
  Calc.t_totalWords (fold_left Calc.step l acc)
  ≃ (Calc.t_totalWords acc + Spec.total Spec.wordContribution l)%js.
Proof.
  revert acc. induction l as [|s l IH]; intros acc; simpl.
  - symmetry. apply add_zero_r.
  - rewrite IH, step_words. symmetry. apply add_assoc.
Qed.

Lemma fold_time (l : list Slide) (acc : Calc.Totals) :
  Calc.t_totalAvMinutes (fold_left Calc.step l acc)
  ≃ (Calc.t_totalAvMinutes acc + Spec.total Spec.timeContribution l)%js.
Proof.
  revert acc. induction l as [|s l IH]; intros acc; simpl.
  - symmetry. apply add_zero_r.
  - rewrite IH, step_time. symmetry. apply add_assoc.
Qed.

Lemma total_insert (f : Slide → number) (l1 l2 : list Slide) (s : Slide) :
  Spec.total f (l1 ++ s :: l2) ≃ (Spec.total f (l1 ++ l2) + f s)%js.
Proof.
  induction l1 as [|a l1 IH]; simpl.
  - apply add_comm.
  - rewrite IH. apply add_assoc.
Qed.

Lemma totalWords_total (slides : list Slide) (rq fq : number) :
  totalWords (Calc.useCpeCalculator slides rq fq)
  ≃ Spec.total Spec.wordContribution (Calc.activeSlides slides).
Proof.
  simpl. unfold Calc.totalsOf. rewrite fold_words. apply add_zero_l.
Qed.

Lemma totalAvMinutes_total (slides : list Slide) (rq fq : number) :
  totalAvMinutes (Calc.useCpeCalculator slides rq fq)
  ≃ Spec.total Spec.timeContribution (Calc.activeSlides slides).
Proof.
  simpl. unfold Calc.totalsOf. rewrite fold_time. apply add_zero_l.
Qed.

Lemma fold_step_words (l : list Slide) (acc : Calc.Totals) :
  Calc.t_totalWords (fold_left Calc.step (Calc.activeSlides l) acc)
  = addWords (Calc.t_totalWords acc) l.
Proof.
  unfold addWords, Calc.activeSlides.
  revert acc. induction l as [|a l IH]; intros acc; [reflexivity|].
  cbn [List.filter].
  assert (C : countsText a
              = Calc.notDiscarded a
                && match selectedSource a with
                   | OST | BOTH => true
                   | AUDIO => false
                   end) by reflexivity.
  rewrite C. destruct (Calc.notDiscarded a); cbn [andb]; [|apply IH].
  destruct (selectedSource a) eqn:E; cbn [fold_left]; rewrite IH;
    unfold Calc.step; rewrite E; cbn [Calc.t_totalWords];
    rewrite ?getWordCount_wordCount; reflexivity.
Qed.

Lemma fold_step_minutes (l : list Slide) (acc : Calc.Totals) :
  Calc.t_totalAvMinutes (fold_left Calc.step (Calc.activeSlides l) acc)
  = addMinutes (Calc.t_totalAvMinutes acc) l.
Proof.
  unfold addMinutes, Calc.activeSlides.
  revert acc. induction l as [|a l IH]; intros acc; [reflexivity|].
  cbn [List.filter].
  assert (C : countsNarration a
              = Calc.notDiscarded a
                && match selectedSource a with
                   | AUDIO | BOTH => true
                   | OST => false
                   end) by reflexivity.
  rewrite C. destruct (Calc.notDiscarded a); cbn [andb]; [|apply IH].
  destruct (selectedSource a) eqn:E; cbn [fold_left]; rewrite IH;
    unfold Calc.step; rewrite E; reflexivity.
Qed.

Lemma totalsOf_app (l1 l2 : list Slide) :
  Calc.totalsOf (l1 ++ l2)
  = fold_left Calc.step (Calc.activeSlides l2) (Calc.totalsOf l1).
Proof.
  unfold Calc.totalsOf. rewrite activeSlides_app, fold_left_app.
  reflexivity.
Qed.

Lemma totalsOf_insert (l1 l2 : list Slide) (s : Slide) :
  Spec.active s →
  Calc.totalsOf (l1 ++ s :: l2)
  = fold_left Calc.step (Calc.activeSlides l2)
      (Calc.step (Calc.totalsOf l1) s).
Proof.
  intros Hs. unfold Calc.totalsOf.
  rewrite (activeSlides_keep _ _ _ Hs), fold_left_app. reflexivity.
Qed.

Lemma addMinutes_durations (acc : number) (l : list Slide) :
  addMinutes acc l
  = fold_left (fun sum d => (sum + d)%js) (narrationDurations l) acc.
Proof.
  unfold addMinutes, narrationDurations.
  generalize (List.filter countsNarration l). intros k. revert acc.
  induction k as [|a k IH]; intros acc; [reflexivity|]. simpl. apply IH.
Qed.

Lemma roundedCpe_credit (slides : list Slide) (rq fq : number) :
  let m := Calc.useCpeCalculator slides rq fq in
  roundedCpe m = credit (totalWords m) (totalAvMinutes m) (totalQuestions m).
Proof. reflexivity. Qed.

Lemma credit_Fin (w av q : Q) :
  credit (Fin w) (Fin av) (Fin q)
  = Calc.roundDown
      (Fin ((w / inject_Z 180 + av + q * (185 # 100)) / inject_Z 60)).
Proof. reflexivity. Qed.

Lemma minutes_mono (w1 av1 q1 w2 av2 q2 : Q) :
  (w1 <= w2 → av1 <= av2 → q1 <= q2 →
   (w1 / inject_Z 180 + av1 + q1 * (185 # 100)) / inject_Z 60
   <= (w2 / inject_Z 180 + av2 + q2 * (185 # 100)) / inject_Z 60)%Q.
Proof.
  intros Hw Hav Hq. unfold Qdiv.
  change (/ inject_Z 180)%Q with (1 # 180)%Q.
  change (/ inject_Z 60)%Q with (1 # 60)%Q.
  lra.
Qed.

Lemma upTo_Fin (x y : Q) : upTo (Fin x) (Fin y) → (x <= y)%Q.
Proof. intros [H|H]; simpl in H; lra. Qed.

Lemma credit_mono (w1 av1 q1 w2 av2 q2 : number) :
  upTo w1 w2 → upTo av1 av2 → upTo q1 q2 →
  credit w1 av1 q1 ⪯ credit w2 av2 q2.
Proof.
  intros Hw Hav Hq.
  destruct w1 as [|w1], w2 as [|w2];
    try (destruct Hw as [Hw|Hw]; simpl in Hw; contradiction);
  destruct av1 as [|av1], av2 as [|av2];
    try (destruct Hav as [Hav|Hav]; simpl in Hav; contradiction);
  destruct q1 as [|q1], q2 as [|q2];
    try (destruct Hq as [Hq|Hq]; simpl in Hq; contradiction);
  try (unfold credit; simpl; lra).
  rewrite !credit_Fin. apply roundDown_mono, minutes_mono; apply upTo_Fin; assumption.
Qed.

End Totals.

(** ** The aggregation engine: the claims *)

Section Engine.

Import Samples.

(** C1.  For every input the engine computes
    [rawCpeHours = (wordsCpe + avCpe + questionsCpe) / 60] and rounds it
    down to half-hours: when [rawCpeHours] is a non-negative number [r],
    [roundedCpe] is [floor (2 r) / 2], which is at most [r] and less than
    half an hour below it; when [r] is negative (and when [rawCpeHours] is
    NaN), [roundedCpe] is 0.  In particular 1.74 and 1.75 give 1.5, and 2
    gives 2. *)
Theorem rounding_law (slides : list Slide) (rq fq : number) :
  let m := Calc.useCpeCalculator slides rq fq in
  rawCpeHours m = ((wordsCpe m + avCpe m + questionsCpe m) / of_Z 60)%js
  ∧ (rawCpeHours m = NaN → roundedCpe m = of_Z 0)
  ∧ ∀ r : Q, rawCpeHours m ≃ Fin r →
      ((0 <= r)%Q →
         roundedCpe m ≃ Fin (inject_Z (Qfloor (r * 2)) / 2)
         ∧ roundedCpe m ⪯ rawCpeHours m
         ∧ (r < inject_Z (Qfloor (r * 2)) / 2 + (1 # 2))%Q)
      ∧ ((r < 0)%Q → roundedCpe m = of_Z 0)
      ∧ ((r == 174 # 100)%Q → roundedCpe m ≃ Fin (3 # 2))
      ∧ ((r == 175 # 100)%Q → roundedCpe m ≃ Fin (3 # 2))
      ∧ ((r == 2)%Q → roundedCpe m ≃ Fin 2).
Proof.
  intros m. split; [reflexivity|].
  assert (E : roundedCpe m = Calc.roundDown (rawCpeHours m)) by reflexivity.
  split; [intros H; rewrite E, H; reflexivity|].
  intros r Hr. rewrite E.
  destruct (rawCpeHours m) as [|x]; [contradiction|]. simpl in Hr.
  assert (R : Calc.roundDown (Fin x) ≃ Calc.roundDown (Fin r))
    by (apply roundDown_proper; exact Hr).
  repeat split.
  - rewrite R. apply roundDown_nonneg. assumption.
  - eapply le_same_l; [symmetry; exact R|].
    eapply le_same_l; [symmetry; apply roundDown_nonneg; assumption|].
    simpl. rewrite Hr. apply halves_below.
  - apply halves_close.
  - intros H. apply roundDown_negative. rewrite Hr. exact H.
  - intros H. rewrite R, roundDown_max, (halves_comp _ _ H). reflexivity.
  - intros H. rewrite R, roundDown_max, (halves_comp _ _ H). reflexivity.
  - intros H. rewrite R, roundDown_max, (halves_comp _ _ H). reflexivity.
Qed.

(** One narration slide of 104.4 minutes is 1.74 hours and earns 1.5. *)
Lemma rounding_law_witness :
  let m := Calc.useCpeCalculator [audioSlide 1 (1044 # 10)] (of_Z 0) (of_Z 0) in
  rawCpeHours m ≃ Fin (174 # 100) ∧ roundedCpe m ≃ Fin (3 # 2).
Proof.
  intros m.
  assert (Hr : rawCpeHours m ≃ Fin (174 # 100)) by (vm_compute; reflexivity).
  split; [exact Hr|].
  exact (proj1 (proj2 (proj2
    (proj2 (proj2 (rounding_law [audioSlide 1 (1044 # 10)] (of_Z 0) (of_Z 0)))
       (174 # 100)%Q Hr))) (Qeq_refl _)).
Defined.

(** C2.  A discarded slide contributes nothing, whatever its fields hold:
    the metrics of a collection are those of its sub-collection of slides
    that are not discarded; taking a discarded slide out of a collection,
    or putting any other discarded slide in its place, leaves every metric
    as it was. *)
Theorem discarded_slides_contribute_nothing
    (slides : list Slide) (rq fq : number) :
  Calc.useCpeCalculator slides rq fq
  = Calc.useCpeCalculator (filter Spec.active slides) rq fq
  ∧ ∀ (l1 l2 : list Slide) (s : Slide),
      slides = l1 ++ s :: l2 → isDiscarded s = Some true →
      Calc.useCpeCalculator slides rq fq
      = Calc.useCpeCalculator (l1 ++ l2) rq fq
      ∧ ∀ s' : Slide,
          isDiscarded s' = Some true →
          Calc.useCpeCalculator (l1 ++ s' :: l2) rq fq
          = Calc.useCpeCalculator slides rq fq.
Proof.
  split.
  - apply useCpeCalculator_active.
    rewrite <- activeSlides_filter, activeSlides_idem. reflexivity.
  - intros l1 l2 s -> Hs. split.
    + apply useCpeCalculator_active. apply activeSlides_drop, Hs.
    + intros s' Hs'. apply useCpeCalculator_active.
      rewrite (activeSlides_drop _ _ _ Hs), (activeSlides_drop _ _ _ Hs').
      reflexivity.
Qed.

Lemma discarded_slides_contribute_nothing_witness :
  Calc.useCpeCalculator
    [textSlide 1 "the quick brown fox"; discardedSlide 2; audioSlide 3 90]
    (of_Z 10) (of_Z 5)
  = Calc.useCpeCalculator
      [textSlide 1 "the quick brown fox"; audioSlide 3 90] (of_Z 10) (of_Z 5).
Proof.
  exact (proj1 (proj2 (discarded_slides_contribute_nothing
                  [textSlide 1 "the quick brown fox"; discardedSlide 2;
                   audioSlide 3 90] (of_Z 10) (of_Z 5))
           [textSlide 1 "the quick brown fox"] [audioSlide 3 90]
           (discardedSlide 2) eq_refl eq_refl)).
Defined.

(** C3.  The contribution of an active slide to the totals is fixed by
    its content source: the words of its on-screen text and no minutes for
    [OST], no words and its narration minutes for [AUDIO], both at once for
    [BOTH].  The engine adds the contributions one after the other in the
    order of the collection: the totals are the running sums from 0; a
    slide anywhere in the collection adds its contribution to the totals
    of the slides before it, and the slides after it are added to that; so
    a slide at the end adds its contribution to the totals of the others,
    and, wherever it is, a narration-only slide leaves the total of words
    and a text-only slide leaves the total of minutes as they are without
    it.  The word count is the number of maximal runs of characters that
    are not white space: the kept pieces are those runs, white space
    around a text changes nothing, a text of white space only (the empty
    text included) has no word. *)
Theorem contribution_by_content_source :
  (∀ (slides : list Slide) (rq fq : number),
     let m := Calc.useCpeCalculator slides rq fq in
     totalWords m = addWords (of_Z 0) slides
     ∧ totalAvMinutes m = addMinutes (of_Z 0) slides)
  ∧ (∀ (l1 l2 : list Slide) (s : Slide) (rq fq : number),
       Spec.active s →
       let m := Calc.useCpeCalculator (l1 ++ s :: l2) rq fq in
       let m1 := Calc.useCpeCalculator l1 rq fq in
       match selectedSource s with
       | OST =>
           totalWords m
           = addWords (totalWords m1 + of_nat (Spec.wordCount (ost s)))%js l2
           ∧ totalAvMinutes m = addMinutes (totalAvMinutes m1) l2
       | AUDIO =>
           totalWords m = addWords (totalWords m1) l2
           ∧ totalAvMinutes m
             = addMinutes (totalAvMinutes m1 + audioDuration s)%js l2
       | BOTH =>
           totalWords m
           = addWords (totalWords m1 + of_nat (Spec.wordCount (ost s)))%js l2
           ∧ totalAvMinutes m
             = addMinutes (totalAvMinutes m1 + audioDuration s)%js l2
       end)
  ∧ (∀ (l : list Slide) (s : Slide) (rq fq : number),
       Spec.active s →
       let m := Calc.useCpeCalculator (l ++ [s]) rq fq in
       let m0 := Calc.useCpeCalculator l rq fq in
       match selectedSource s with
       | OST =>
           totalWords m
           = (totalWords m0 + of_nat (Spec.wordCount (ost s)))%js
           ∧ totalAvMinutes m = totalAvMinutes m0
       | AUDIO =>
           totalWords m = totalWords m0
           ∧ totalAvMinutes m = (totalAvMinutes m0 + audioDuration s)%js
       | BOTH =>
           totalWords m
           = (totalWords m0 + of_nat (Spec.wordCount (ost s)))%js
           ∧ totalAvMinutes m = (totalAvMinutes m0 + audioDuration s)%js
       end)
  ∧ (∀ (l1 l2 : list Slide) (s : Slide) (rq fq : number),
       Spec.active s →
       let m := Calc.useCpeCalculator (l1 ++ s :: l2) rq fq in
       let m0 := Calc.useCpeCalculator (l1 ++ l2) rq fq in
       (selectedSource s = AUDIO → totalWords m = totalWords m0)
       ∧ (selectedSource s = OST → totalAvMinutes m = totalAvMinutes m0))
  ∧ (∀ text : jsstring,
       List.filter JsString.truthy (split_ws (trim text)) = Spec.words text
       ∧ Calc.getWordCount text = Spec.wordCount text)
  ∧ (∀ w1 text w2 : jsstring,
       allWhite w1 → allWhite w2 →
       Calc.getWordCount (w1 ++ text ++ w2) = Calc.getWordCount text)
  ∧ (∀ text : jsstring, allWhite text → Calc.getWordCount text = 0%nat).
Proof.
  assert (P : ∀ (l1 l2 : list Slide) (s : Slide) (rq fq : number),
            Spec.active s →
            let m := Calc.useCpeCalculator (l1 ++ s :: l2) rq fq in
            let m1 := Calc.useCpeCalculator l1 rq fq in
            match selectedSource s with
            | OST =>
                totalWords m
                = addWords
                    (totalWords m1 + of_nat (Spec.wordCount (ost s)))%js l2
                ∧ totalAvMinutes m = addMinutes (totalAvMinutes m1) l2
            | AUDIO =>
                totalWords m = addWords (totalWords m1) l2
                ∧ totalAvMinutes m
                  = addMinutes (totalAvMinutes m1 + audioDuration s)%js l2
            | BOTH =>
                totalWords m
                = addWords
                    (totalWords m1 + of_nat (Spec.wordCount (ost s)))%js l2
                ∧ totalAvMinutes m
                  = addMinutes (totalAvMinutes m1 + audioDuration s)%js l2
            end).
  { intros l1 l2 s rq fq Hs m m1.
    assert (W : totalWords m
                = addWords
                    (Calc.t_totalWords (Calc.step (Calc.totalsOf l1) s)) l2).
    { change (totalWords m)
        with (Calc.t_totalWords (Calc.totalsOf (l1 ++ s :: l2))).
      rewrite (totalsOf_insert _ _ _ Hs). apply fold_step_words. }
    assert (A : totalAvMinutes m
                = addMinutes
                    (Calc.t_totalAvMinutes (Calc.step (Calc.totalsOf l1) s))
                    l2).
    { change (totalAvMinutes m)
        with (Calc.t_totalAvMinutes (Calc.totalsOf (l1 ++ s :: l2))).
      rewrite (totalsOf_insert _ _ _ Hs). apply fold_step_minutes. }
    change (totalWords m1) with (Calc.t_totalWords (Calc.totalsOf l1)).
    change (totalAvMinutes m1)
      with (Calc.t_totalAvMinutes (Calc.totalsOf l1)).
    rewrite W, A. unfold Calc.step.
    destruct (selectedSource s);
      cbn [Calc.t_totalWords Calc.t_totalAvMinutes];
      rewrite ?getWordCount_wordCount; split; reflexivity. }
  assert (Q : ∀ (l1 l2 : list Slide) (rq fq : number),
            let m := Calc.useCpeCalculator (l1 ++ l2) rq fq in
            let m1 := Calc.useCpeCalculator l1 rq fq in
            totalWords m = addWords (totalWords m1) l2
            ∧ totalAvMinutes m = addMinutes (totalAvMinutes m1) l2).
  { intros l1 l2 rq fq m m1. split.
    - change (totalWords m)
        with (Calc.t_totalWords (Calc.totalsOf (l1 ++ l2))).
      rewrite totalsOf_app. apply fold_step_words.
    - change (totalAvMinutes m)
        with (Calc.t_totalAvMinutes (Calc.totalsOf (l1 ++ l2))).
      rewrite totalsOf_app. apply fold_step_minutes. }
  split; [|split; [exact P|split; [|split; [|split; [|split]]]]].
  - intros slides rq fq m. exact (Q [] slides rq fq).
  - intros l s rq fq Hs m m0. exact (P l [] s rq fq Hs).
  - intros l1 l2 s rq fq Hs m m0.
    pose proof (P l1 l2 s rq fq Hs) as H.
    destruct (Q l1 l2 rq fq) as [QW QA].
    fold m in H. fold m0 in QW, QA. cbv zeta in H.
    split; intros E; rewrite E in H; destruct H as [HW HA].
    + rewrite HW, QW. reflexivity.
    + rewrite HA, QA. reflexivity.
  - intros text. split.
    + apply kept_pieces_are_words.
    + apply getWordCount_wordCount.
  - intros w1 text w2 H1 H2. rewrite !getWordCount_wordCount.
    unfold Spec.wordCount.
    rewrite (words_allWhite_app_l _ _ H1), (words_allWhite_app_r _ _ H2).
    reflexivity.
  - intros text H. rewrite getWordCount_wordCount. unfold Spec.wordCount.
    rewrite (words_allWhite _ H). reflexivity.
Qed.

(** A slide of four words and twelve minutes between a narration slide and
    a text slide. *)
Lemma contribution_by_content_source_witness :
  let s := bothSlide 2 "  the quick brown fox " 12 in
  let m := Calc.useCpeCalculator
             [audioSlide 1 90; s; textSlide 3 "closing words"]
             (of_Z 0) (of_Z 0) in
  let m1 := Calc.useCpeCalculator [audioSlide 1 90] (of_Z 0) (of_Z 0) in
  Spec.wordCount (ost s) = 4%nat
  ∧ totalWords m
    = addWords (totalWords m1 + of_nat (Spec.wordCount (ost s)))%js
        [textSlide 3 "closing words"]
  ∧ totalAvMinutes m
    = addMinutes (totalAvMinutes m1 + audioDuration s)%js
        [textSlide 3 "closing words"].
Proof.
  intros s m m1. split; [reflexivity|].
  assert (Hs : Spec.active s) by (unfold Spec.active; discriminate).
  exact (proj1 (proj2 contribution_by_content_source)
           [audioSlide 1 90] [textSlide 3 "closing words"] s
           (of_Z 0) (of_Z 0) Hs).
Defined.

End Engine.

Section Credit.

Import Samples.

(** C6, as stated, fails: a negative count is not treated as 0.  With
    [reviewQuestions = -3] and no final-exam question the engine reports
    [-3] questions, where the counts "treated as 0 when negative" sum
    to 0. *)
Lemma negative_count_is_not_zeroed :
  let m := Calc.useCpeCalculator [] (of_Z (-3)) (of_Z 0) in
  totalQuestions m ≃ of_Z (-3)
  ∧ (Spec.sanitized (of_Z (-3)) + Spec.sanitized (of_Z 0))%js ≃ of_Z 0
  ∧ ¬ totalQuestions m
      ≃ (Spec.sanitized (of_Z (-3)) + Spec.sanitized (of_Z 0))%js.
Proof.
  intros m. split; [|split].
  - vm_compute. reflexivity.
  - vm_compute. reflexivity.
  - vm_compute. discriminate.
Qed.

Lemma or_else_nanAsZero (n : number) :
  JsNum.or_else n (of_Z 0) ≃ Spec.nanAsZero n.
Proof.
  destruct n as [|q]; [reflexivity|].
  unfold JsNum.or_else, JsNum.truthy, Spec.nanAsZero.
  destruct (Qeq_bool q 0) eqn:E; simpl; [|reflexivity].
  apply Qeq_bool_iff in E. rewrite E. reflexivity.
Qed.

Lemma sanitized_nanAsZero (n : number) :
  (∀ q, n = Fin q → (0 <= q)%Q) → Spec.sanitized n = Spec.nanAsZero n.
Proof.
  destruct n as [|q]; [reflexivity|]. intros H. simpl.
  specialize (H q eq_refl). apply Qle_bool_iff in H. rewrite H. reflexivity.
Qed.

(** C6, amended.  [totalQuestions] is the sum of the two counts with each
    count treated as 0 when it is NaN; a negative count is added as it is.
    [questionsCpe] is [totalQuestions * 1.85].  When no count is negative
    this is the sum of the counts "treated as 0 when negative or NaN". *)
Theorem question_totals (slides : list Slide) (rq fq : number) :
  let m := Calc.useCpeCalculator slides rq fq in
  totalQuestions m ≃ (Spec.nanAsZero rq + Spec.nanAsZero fq)%js
  ∧ questionsCpe m = (totalQuestions m * Fin (185 # 100))%js
  ∧ ((∀ q, rq = Fin q → (0 <= q)%Q) → (∀ q, fq = Fin q → (0 <= q)%Q) →
     totalQuestions m ≃ (Spec.sanitized rq + Spec.sanitized fq)%js).
Proof.
  intros m.
  assert (E : totalQuestions m
              ≃ (Spec.nanAsZero rq + Spec.nanAsZero fq)%js).
  { simpl. rewrite !or_else_nanAsZero. reflexivity. }
  split; [exact E|]. split; [reflexivity|].
  intros Hr Hf. rewrite (sanitized_nanAsZero _ Hr), (sanitized_nanAsZero _ Hf).
  exact E.
Qed.

(** Ten review questions and a final-exam count that is NaN. *)
Lemma question_totals_witness :
  let m := Calc.useCpeCalculator [] (of_Z 10) NaN in
  totalQuestions m ≃ (Spec.sanitized (of_Z 10) + Spec.sanitized NaN)%js
  ∧ totalQuestions m ≃ of_Z 10.
Proof.
  intros m. split.
  - apply (proj2 (proj2 (question_totals [] (of_Z 10) NaN))).
    + intros q [= <-]. vm_compute. discriminate.
    + intros q [=].
  - vm_compute. reflexivity.
Defined.

(** C7.  [roundedCpe] does not decrease when one of [totalWords],
    [totalAvMinutes], [totalQuestions] increases and the other two are the
    same. *)
Theorem rounded_cpe_monotone
    (slides1 slides2 : list Slide) (rq1 fq1 rq2 fq2 : number) :
  let m1 := Calc.useCpeCalculator slides1 rq1 fq1 in
  let m2 := Calc.useCpeCalculator slides2 rq2 fq2 in
  (totalWords m1 ⪯ totalWords m2 →
   totalAvMinutes m1 ≃ totalAvMinutes m2 →
   totalQuestions m1 ≃ totalQuestions m2 →
   roundedCpe m1 ⪯ roundedCpe m2)
  ∧ (totalAvMinutes m1 ⪯ totalAvMinutes m2 →
     totalWords m1 ≃ totalWords m2 →
     totalQuestions m1 ≃ totalQuestions m2 →
     roundedCpe m1 ⪯ roundedCpe m2)
  ∧ (totalQuestions m1 ⪯ totalQuestions m2 →
     totalWords m1 ≃ totalWords m2 →
     totalAvMinutes m1 ≃ totalAvMinutes m2 →
     roundedCpe m1 ⪯ roundedCpe m2).
Proof.
  intros m1 m2. unfold m1, m2.
  rewrite (roundedCpe_credit slides1), (roundedCpe_credit slides2).
  split; [|split]; intros H1 H2 H3; apply credit_mono;
    (left + right); assumption.
Qed.

(** Thirty more minutes of narration, the other totals the same: the
    credit goes from 1.5 to 2. *)
Lemma rounded_cpe_monotone_witness :
  let m1 := Calc.useCpeCalculator [audioSlide 1 90] (of_Z 10) (of_Z 5) in
  let m2 := Calc.useCpeCalculator [audioSlide 1 120] (of_Z 10) (of_Z 5) in
  roundedCpe m1 ≃ Fin (3 # 2) ∧ roundedCpe m2 ≃ Fin 2
  ∧ roundedCpe m1 ⪯ roundedCpe m2.
Proof.
  intros m1 m2. split; [vm_compute; reflexivity|].
  split; [vm_compute; reflexivity|].
  apply (proj1 (proj2 (rounded_cpe_monotone
                  [audioSlide 1 90] [audioSlide 1 120]
                  (of_Z 10) (of_Z 5) (of_Z 10) (of_Z 5)))).
  - vm_compute. discriminate.
  - vm_compute. reflexivity.
  - vm_compute. reflexivity.
Defined.

Lemma widen_add (a b : number) :
  JsWide.widen (a + b)%js = JsWide.add (JsWide.widen a) (JsWide.widen b).
Proof. destruct a, b; reflexivity. Qed.

Lemma widen_mul (a b : number) :
  JsWide.widen (a * b)%js = JsWide.mul (JsWide.widen a) (JsWide.widen b).
Proof. destruct a, b; reflexivity. Qed.

Lemma widen_over (a : number) (d : positive) :
  JsWide.widen (a / of_Z (Zpos d))%js = JsWide.over (JsWide.widen a) d.
Proof. destruct a; reflexivity. Qed.

Lemma widen_floor (a : number) :
  JsWide.widen (JsNum.floor a) = JsWide.floor (JsWide.widen a).
Proof. destruct a; reflexivity. Qed.

Lemma widen_or_else (a : number) :
  JsWide.widen (JsNum.or_else a (of_Z 0))
  = JsWide.or_else (JsWide.widen a) (JsWide.of_Z 0).
Proof.
  destruct a as [|x]; [reflexivity|].
  unfold JsNum.or_else, JsWide.or_else. simpl.
  destruct (Qeq_bool x 0); reflexivity.
Qed.

Lemma widen_gt (a b : number) :
  JsWide.gt (JsWide.widen a) (JsWide.widen b) = JsNum.gt a b.
Proof. destruct a, b; reflexivity. Qed.

Lemma wide_roundDown_number (raw : number) :
  CalcWide.roundDown (JsWide.widen raw) = JsWide.widen (Calc.roundDown raw).
Proof.
  unfold CalcWide.roundDown, Calc.roundDown. cbv zeta.
  change (JsWide.of_Z 2) with (JsWide.widen (of_Z 2)).
  change (JsWide.of_Z 0) with (JsWide.widen (of_Z 0)).
  rewrite <- widen_mul, <- widen_floor, <- (widen_over _ 2), widen_gt.
  destruct (JsNum.gt _ _); reflexivity.
Qed.

(** On totals and counts without infinity the credit over the numbers with
    the infinities is the credit of the engine. *)
Lemma wide_credit_agrees (slides : list Slide) (rq fq : number) :
  let m := Calc.useCpeCalculator slides rq fq in
  CalcWide.roundedCpe (JsWide.widen (totalWords m))
    (JsWide.widen (totalAvMinutes m)) (JsWide.widen rq) (JsWide.widen fq)
  = JsWide.widen (roundedCpe m).
Proof.
  intros m. unfold CalcWide.roundedCpe.
  change (roundedCpe m) with (Calc.roundDown (rawCpeHours m)).
  rewrite <- wide_roundDown_number. f_equal.
  unfold m. cbn [Calc.useCpeCalculator rawCpeHours totalWords totalAvMinutes].
  unfold CalcWide.rawCpeHours. cbv zeta.
  rewrite <- !widen_or_else, <- widen_add, <- widen_mul,
    <- (widen_over _ 180), <- !widen_add, <- (widen_over _ 60).
  reflexivity.
Qed.

(** C10, as stated, fails: with a question count that is infinite, or a
    total of minutes that is (a duration that is infinite, or durations
    whose sum overflows), the rounded credit is infinite, which is no
    multiple of one half. *)
Lemma infinite_total_gives_infinite_credit :
  let zero := JsWide.of_Z 0 in
  let infinity := JsWide.wInf false in
  CalcWide.roundedCpe zero zero infinity zero = infinity
  ∧ CalcWide.roundedCpe zero infinity zero zero = infinity
  ∧ ¬ wideHalfSteps (CalcWide.roundedCpe zero zero infinity zero)
  ∧ ¬ wideHalfSteps (CalcWide.roundedCpe zero infinity zero zero).
Proof.
  intros zero infinity.
  assert (E1 : CalcWide.roundedCpe zero zero infinity zero = infinity)
    by (vm_compute; reflexivity).
  assert (E2 : CalcWide.roundedCpe zero infinity zero zero = infinity)
    by (vm_compute; reflexivity).
  rewrite E1, E2. repeat split; intros [k Hk]; exact Hk.
Qed.

(** C10, amended.  Whatever the totals of the slides and the question
    counts are, infinities and NaN included, the rounded credit is never
    NaN and never negative: it is a whole number of half-hours, or it is
    infinite.  It is infinite when the raw hours are; it is 0 when the raw
    hours are NaN or negative without bound; and it is 0 on the empty
    input. *)
Theorem rounded_cpe_half_steps (words minutes rq fq : JsWide.wide) :
  let raw := CalcWide.rawCpeHours words minutes rq fq in
  let rounded := CalcWide.roundedCpe words minutes rq fq in
  (rounded = JsWide.wInf false ∨ wideHalfSteps rounded)
  ∧ (raw = JsWide.wInf false → rounded = JsWide.wInf false)
  ∧ (raw = JsWide.wNaN ∨ raw = JsWide.wInf true → rounded = JsWide.of_Z 0)
  ∧ CalcWide.roundedCpe (JsWide.of_Z 0) (JsWide.of_Z 0) (JsWide.of_Z 0)
      (JsWide.of_Z 0) = JsWide.of_Z 0
  ∧ roundedCpe (Calc.useCpeCalculator [] (of_Z 0) (of_Z 0)) = of_Z 0.
Proof.
  intros raw rounded.
  assert (R : rounded = CalcWide.roundDown raw) by reflexivity.
  rewrite R. clearbody raw. clear R rounded.
  split; [|split; [|split; [|split]]]; try reflexivity.
  - destruct raw as [|r|[|]].
    + right. exists 0%nat. vm_compute. reflexivity.
    + right. change (JsWide.wFin r) with (JsWide.widen (Fin r)).
      rewrite wide_roundDown_number.
      exists (Z.to_nat (Z.max 0 (halves r))).
      rewrite Z2Nat.id by lia.
      pose proof (roundDown_max r) as M.
      destruct (Calc.roundDown (Fin r)) as [|x]; [contradiction|].
      exact M.
    + right. exists 0%nat. vm_compute. reflexivity.
    + left. reflexivity.
  - intros ->. reflexivity.
  - intros [-> | ->]; reflexivity.
Qed.

End Credit.

(** ** The slide rulings: the claims *)

Section Rulings.

Import SlideEditor ReviewScreen Samples.

Lemma strict_eq_zero (d : number) :
  JsNum.strict_eq d (of_Z 0) = true ↔ d ≃ of_Z 0.
Proof.
  destruct d as [|q]; simpl.
  - split; [discriminate | contradiction].
  - apply Qeq_bool_iff.
Qed.

Lemma strict_eq_positive (q : Q) :
  (0 < q)%Q → JsNum.strict_eq (Fin q) (of_Z 0) = false.
Proof.
  intros H. destruct (JsNum.strict_eq (Fin q) (of_Z 0)) eqn:E; [|reflexivity].
  apply strict_eq_zero in E. simpl in E.
  change (inject_Z 0) with 0%Q in E. lra.
Qed.

Lemma or_else_positive (q : Q) :
  (0 < q)%Q → JsNum.or_else (Fin q) (of_Z 0) = Fin q.
Proof.
  intros H. unfold JsNum.or_else, JsNum.truthy.
  destruct (Qeq_bool q 0) eqn:E; [|reflexivity].
  apply Qeq_bool_iff in E. lra.
Qed.

Lemma or_else_nonneg (q : Q) :
  (0 <= q)%Q → ∃ q', JsNum.or_else (Fin q) (of_Z 0) = Fin q' ∧ (0 <= q')%Q.
Proof.
  intros H. unfold JsNum.or_else, JsNum.truthy.
  destruct (Qeq_bool q 0); simpl.
  - exists (inject_Z 0). split; [reflexivity|]. change (inject_Z 0) with 0%Q. lra.
  - exists q. split; [reflexivity | exact H].
Qed.

(** C4.  On a draft slide whose content source is [AUDIO] or [BOTH]:
    with a duration equal to 0, finalize returns false, sets the validation
    error, fires no callback (the store is as it was) and leaves the slide
    and every editable cell untouched; once the duration is any number
    above 0 (set directly, or through the minutes field), finalize returns
    true and reports to the store a slide that is finalized and carries the
    current text, transcript, content source, duration and audio
    attachment. *)
Theorem finalize_guard (e : SlideEditor.State) (r : ReviewScreen.State) :
  e_isFinalized e = false →
  e_selectedSource e = AUDIO ∨ e_selectedSource e = BOTH →
  (e_audioDuration e ≃ of_Z 0 →
     handleFinalize e
     = (false, setFinalizeError (Some finalizeErrorMessage) e, [])
     ∧ deliver (handleFinalize e).2 r = r
     ∧ slide (handleFinalize e).1.2 = slide e
     ∧ e_isFinalized (handleFinalize e).1.2 = false)
  ∧ (∀ q : Q, (0 < q)%Q →
       let e' := setAudioDuration (Fin q) e in
       ∃ locked : Slide,
         handleFinalize e'
         = (true, setIsFinalized true (setFinalizeError None e'),
            [onUpdate locked])
         ∧ isFinalized locked = true
         ∧ ost locked = e_ost e
         ∧ transcript locked = e_transcript e
         ∧ selectedSource locked = e_selectedSource e
         ∧ audioDuration locked = Fin q
         ∧ audioMeta locked = e_audioMeta e
         ∧ id locked = id (slide e)
         ∧ slides (deliver (handleFinalize e').2 r)
           = List.map (fun s => if Z.eqb (id s) (id (slide e))
                                then locked else s) (slides r))
  ∧ (∀ v sec : Q, (0 < v)%Q → seconds e = Fin sec → (0 <= sec)%Q →
       ∃ d : Q, e_audioDuration (changeMinutes (Fin v) e) = Fin d
                ∧ (0 < d)%Q
                ∧ (handleFinalize (changeMinutes (Fin v) e)).1.1 = true).
Proof.
  intros Hdraft Hsrc.
  assert (Hneed : needsDuration (e_selectedSource e) = true)
    by (destruct Hsrc as [-> | ->]; reflexivity).
  split; [|split].
  - intros Hzero. apply strict_eq_zero in Hzero.
    assert (E : handleFinalize e
                = (false, setFinalizeError (Some finalizeErrorMessage) e, [])).
    { unfold handleFinalize. rewrite Hdraft, Hneed, Hzero. reflexivity. }
    rewrite E. repeat split. simpl. exact Hdraft.
  - intros q Hq e'.
    assert (E : handleFinalize e'
                = (true, setIsFinalized true (setFinalizeError None e'),
                   [onUpdate (snapshot e' true)])).
    { unfold handleFinalize. simpl e_isFinalized. simpl e_selectedSource.
      simpl e_audioDuration.
      rewrite Hdraft, Hneed, (strict_eq_positive q Hq). reflexivity. }
    exists (snapshot e' true). rewrite E. repeat split.
  - intros v sec Hv Hsec Hs.
    destruct (or_else_nonneg sec Hs) as (s' & Es & Hs').
    exists (v + s' / inject_Z 60)%Q.
    assert (D : e_audioDuration (changeMinutes (Fin v) e)
                = Fin (v + s' / inject_Z 60)).
    { unfold changeMinutes, durationEffect. simpl.
      rewrite Hsec, Es, !(or_else_positive v Hv). reflexivity. }
    assert (P : (0 < v + s' / inject_Z 60)%Q).
    { unfold Qdiv. change (/ inject_Z 60)%Q with (1 # 60)%Q. lra. }
    split; [exact D|]. split; [exact P|].
    unfold handleFinalize. rewrite D, (strict_eq_positive _ P).
    rewrite andb_false_r. reflexivity.
Qed.

(** A draft narration slide without duration: refused; with two minutes
    entered in the minutes field: finalized with a duration of 2. *)
Lemma finalize_guard_witness :
  let e := mount (draftAudioSlide 1) in
  let r := store [draftAudioSlide 1] in
  (handleFinalize e).1.1 = false
  ∧ deliver (handleFinalize e).2 r = r
  ∧ (handleFinalize (changeMinutes (of_Z 2) e)).1.1 = true.
Proof.
  intros e r.
  pose proof (finalize_guard e r eq_refl (or_introl eq_refl)) as (F & _ & S).
  assert (Z0 : e_audioDuration e ≃ of_Z 0) by (vm_compute; reflexivity).
  destruct (F Z0) as (E1 & E2 & _).
  split; [rewrite E1; reflexivity|]. split; [exact E2|].
  assert (P : (0 < inject_Z 2)%Q) by (vm_compute; reflexivity).
  assert (N : (0 <= 0 # 1)%Q) by (vm_compute; discriminate).
  destruct (S (inject_Z 2) (0 # 1)%Q P eq_refl N) as (d & _ & _ & T).
  exact T.
Defined.

(** C8.  Discard needs a reason: with an empty reason nothing happens (the
    editor and the store are as they were); with any reason the slide is
    reported to the store as discarded with that reason, whether or not it
    is finalized; with the reason "Other" and no note the discard succeeds
    with an empty note. *)
Theorem discard_requires_reason
    (now : jsstring) (e : SlideEditor.State) (r : ReviewScreen.State) :
  (e_discardReason e = [] →
     handleDiscardConfirm now e = (e, [])
     ∧ deliver (handleDiscardConfirm now e).2 r = r)
  ∧ (e_discardReason e ≠ [] →
       ∃ d : Slide,
         handleDiscardConfirm now e
         = (setIsDiscardModalOpen false e, [onDiscardAndNext d])
         ∧ isDiscarded d = Some true
         ∧ discardReason d = Some (e_discardReason e)
         ∧ id d = id (slide e)
         ∧ isFinalized d = isFinalized (slide e)
         ∧ slides (deliver (handleDiscardConfirm now e).2 r)
           = List.map (fun s => if Z.eqb (id s) (id (slide e))
                                then d else s) (slides r))
  ∧ (e_discardReason e = Other → e_discardNote e = [] →
       ∃ d : Slide,
         (handleDiscardConfirm now e).2 = [onDiscardAndNext d]
         ∧ isDiscarded d = Some true
         ∧ discardReason d = Some Other
         ∧ discardNote d = Some [])
  ∧ (∀ b : bool,
       (handleDiscardConfirm now (setIsFinalized b e)).2
       = (handleDiscardConfirm now e).2).
Proof.
  split; [|split; [|split]].
  - intros H. unfold handleDiscardConfirm. rewrite H. simpl. auto.
  - intros H.
    assert (T : JsString.truthy (e_discardReason e) = true)
      by (destruct (e_discardReason e); [congruence | reflexivity]).
    unfold handleDiscardConfirm. rewrite T. cbn [negb].
    eexists. split; [reflexivity|]. repeat split.
    cbn [snd deliver fold_left deliver1]. unfold handleDiscardAndNext.
    repeat (destruct (_ <? _)); reflexivity.
  - intros H1 H2. unfold handleDiscardConfirm. rewrite H1, H2.
    eexists. split; [reflexivity|]. repeat split.
  - intros b. unfold handleDiscardConfirm. simpl e_discardReason.
    destruct (JsString.truthy (e_discardReason e)); reflexivity.
Qed.

(** A finalized slide discarded with the reason "Other" and no note. *)
Lemma discard_requires_reason_witness :
  let e := setDiscardReason Other (mount (audioSlide 1 90)) in
  e_isFinalized e = true
  ∧ ∃ d : Slide,
      (handleDiscardConfirm (lit "2024-01-01T10:00:00.000Z") e).2
      = [onDiscardAndNext d]
      ∧ isDiscarded d = Some true
      ∧ discardReason d = Some Other
      ∧ discardNote d = Some [].
Proof.
  intros e. split; [reflexivity|].
  exact (proj1 (proj2 (proj2
           (discard_requires_reason (lit "2024-01-01T10:00:00.000Z") e
              (store [audioSlide 1 90])))) eq_refl eq_refl).
Defined.

(** C5, as stated, fails.  A slide that was finalized, then discarded as a
    duplicate, then un-discarded, is in the store as finalized and still
    carries its discard reason and note. *)
Lemma undo_discard_restores_finalized :
  ∃ s : Slide,
    slides Session.store4 = [s]
    ∧ isDiscarded s = Some false
    ∧ isFinalized s = true
    ∧ discardReason s = Some (lit "Duplicate content")
    ∧ discardNote s = Some []
    ∧ e_isFinalized (Session.undone.1) = true
    ∧ allSlidesFinalized Session.store4 = true
    ∧ ¬ Spec.reentersAsDraft s.
Proof.
  eexists. repeat split.
  intros (_ & F & _). discriminate F.
Qed.

(** C5, amended.  Undo discard always succeeds: it reports to the store the
    slide as it is, marked not discarded and stamped with the undo time and
    user.  Nothing else changes: the slide keeps its discard reason and
    note and its finalized flag, so a slide that was finalized when it was
    discarded comes back finalized, a draft comes back a draft; the slide
    counts in the aggregation again. *)
Theorem undo_discard_keeps_ruling
    (now : jsstring) (e : SlideEditor.State) (r : ReviewScreen.State) :
  ∃ u : Slide,
    handleUndoDiscard now e = (e, [onUpdate u])
    ∧ isDiscarded u = Some false
    ∧ undoAt u = Some now
    ∧ undoBy u = Some user
    ∧ isFinalized u = isFinalized (slide e)
    ∧ discardReason u = discardReason (slide e)
    ∧ discardNote u = discardNote (slide e)
    ∧ discardedAt u = discardedAt (slide e)
    ∧ discardedBy u = discardedBy (slide e)
    ∧ id u = id (slide e)
    ∧ ost u = ost (slide e)
    ∧ transcript u = transcript (slide e)
    ∧ selectedSource u = selectedSource (slide e)
    ∧ audioDuration u = audioDuration (slide e)
    ∧ audioMeta u = audioMeta (slide e)
    ∧ Calc.notDiscarded u = true
    ∧ slides (deliver (handleUndoDiscard now e).2 r)
      = List.map (fun s => if Z.eqb (id s) (id (slide e)) then u else s)
          (slides r).
Proof. eexists. repeat split. Qed.

End Rulings.

(** ** Ingestion: the claims *)

Section Ingestion.

Import FileParser Samples.












Lemma parseInt_cases (s : jsstring) :
  parseInt s = parsedNaN ∨ ∃ v, parseInt s = parsed v.
Proof.
  unfold parseInt. destruct (signed (trimStart s)) as [sg rs].
  destruct rs as [|c r]; [left; reflexivity|].
  destruct (isDigit c); [right; eexists; reflexivity | left; reflexivity].
Qed.


Lemma findIndexOf_dense (name : jsstring) (k : nat)
    (header : list (option jsstring)) :
  dense header → findIndexOf name k header ≠ thrown.
Proof.
  intros H. revert k. induction H as [|h r [x ->] _ IH]; intros k; simpl.
  - discriminate.
  - destruct (decide _); [discriminate | apply IH].
Qed.

Lemma findColumn_dense (header : list (option jsstring))
    (names : list jsstring) :
  dense header → findColumn header names ≠ thrown.
Proof.
  intros H. induction names as [|name r IH]; simpl; [discriminate|].
  pose proof (findIndexOf_dense name 0 header H) as D.
  destruct (findIndexOf name 0 header); [discriminate | exact IH | congruence].
Qed.




End Ingestion.

(** ** Further properties *)

Section Further.

Import SlideEditor ReviewScreen Samples.

(** The two end-to-end cases of the specification: four words of on-screen
    text earn nothing; ninety minutes of narration with fifteen questions
    are 117.75 minutes, 1.9625 hours, and earn 1.5. *)
Lemma end_to_end_examples :
  (let m := Calc.useCpeCalculator [textSlide 1 "the quick brown fox"]
              (of_Z 0) (of_Z 0) in
   totalWords m ≃ of_Z 4
   ∧ wordsCpe m ≃ Fin (4 # 180)
   ∧ roundedCpe m ≃ of_Z 0)
  ∧ (let m := Calc.useCpeCalculator [audioSlide 1 90] (of_Z 10) (of_Z 5) in
     totalAvMinutes m ≃ of_Z 90
     ∧ totalQuestions m ≃ of_Z 15
     ∧ questionsCpe m ≃ Fin (2775 # 100)
     ∧ rawCpeHours m ≃ Fin (19625 # 10000)
     ∧ roundedCpe m ≃ Fin (3 # 2)).
Proof. repeat split; vm_compute; reflexivity. Qed.

(** Unlock: on a finalized editor, finalize always succeeds, whatever the
    content source and the duration, and reports the slide as a draft. *)
Lemma unlock_always_succeeds (e : SlideEditor.State) :
  e_isFinalized e = true →
  ∃ u : Slide,
    handleFinalize e
    = (true, setIsFinalized false (setFinalizeError None e), [onUpdate u])
    ∧ isFinalized u = false
    ∧ id u = id (slide e).
Proof.
  intros H. unfold handleFinalize. rewrite H. simpl.
  eexists. repeat split.
Qed.

Lemma unlock_always_succeeds_witness :
  ∃ u : Slide,
    (handleFinalize (mount (audioSlide 1 0))).2 = [onUpdate u]
    ∧ isFinalized u = false.
Proof.
  destruct (unlock_always_succeeds (mount (audioSlide 1 0)) eq_refl)
    as (u & E & F & _).
  exists u. rewrite E. split; [reflexivity | exact F].
Defined.

End Further.

(** ** The engine and its callers *)

Section EngineCallers.

Import Samples.

#[global] Instance div_proper :
  Proper (JsNum.same ==> JsNum.same ==> JsNum.same) JsNum.div.
Proof.
  intros [|x] [|x'] Hx [|y] [|y'] Hy; simpl in *; auto; try contradiction.
  assert (E : Qeq_bool y 0 = Qeq_bool y' 0).
  { destruct (Qeq_bool y 0) eqn:A, (Qeq_bool y' 0) eqn:B; try reflexivity.
    - apply Qeq_bool_iff in A. rewrite Hy in A. apply Qeq_bool_iff in A.
      congruence.
    - apply Qeq_bool_iff in B. rewrite <- Hy in B. apply Qeq_bool_iff in B.
      congruence. }
  rewrite <- E. destruct (Qeq_bool y 0) eqn:A; simpl; [exact I|].
  rewrite Hx, Hy. reflexivity.
Qed.

Lemma total_Permutation (f : Slide → number) (l l' : list Slide) :
  l ≡ₚ l' → Spec.total f l ≃ Spec.total f l'.
Proof.
  induction 1 as [|x l l' _ IH|x y l|l l' l'' _ IH1 _ IH2]; simpl.
  - reflexivity.
  - rewrite IH. reflexivity.
  - rewrite !add_assoc, (add_comm (f y) (f x)). reflexivity.
  - rewrite IH1. exact IH2.
Qed.

Lemma activeSlides_Permutation (l l' : list Slide) :
  l ≡ₚ l' → Calc.activeSlides l ≡ₚ Calc.activeSlides l'.
Proof. intros H. rewrite !activeSlides_filter, H. reflexivity. Qed.

Lemma of_nat_add (a b : nat) : of_nat (a + b) ≃ (of_nat a + of_nat b)%js.
Proof.
  unfold of_nat, of_Z. simpl. rewrite Nat2Z.inj_add, inject_Z_plus.
  reflexivity.
Qed.

(** Once the totals are the same, every metric is. *)
Lemma sameMetrics_of_totals
    (l l' : list Slide) (rq fq : number) :
  totalWords (Calc.useCpeCalculator l rq fq)
  ≃ totalWords (Calc.useCpeCalculator l' rq fq) →
  totalAvMinutes (Calc.useCpeCalculator l rq fq)
  ≃ totalAvMinutes (Calc.useCpeCalculator l' rq fq) →
  sameMetrics (Calc.useCpeCalculator l rq fq) (Calc.useCpeCalculator l' rq fq).
Proof.
  intros W A. simpl in W, A.
  unfold sameMetrics. cbn [Calc.useCpeCalculator totalWords totalAvMinutes
    totalQuestions wordsCpe avCpe questionsCpe rawCpeHours roundedCpe].
  repeat split; try assumption; try reflexivity.
  - rewrite W. reflexivity.
  - rewrite W, A. reflexivity.
  - apply roundDown_proper. rewrite W, A. reflexivity.
Qed.

(** The order of the slides matters through the order of the narration
    only.  The engine adds the durations from left to right, so their
    order is part of the sum; the word counts are whole numbers and the
    question counts do not depend on the slides.  A rearrangement of the
    collection that keeps the durations of the slides that count narration
    in the same order gets the same value in every metric. *)
Theorem metrics_follow_narration_order
    (slides slides' : list Slide) (rq fq : number) :
  slides ≡ₚ slides' →
  narrationDurations slides = narrationDurations slides' →
  sameMetrics (Calc.useCpeCalculator slides rq fq)
    (Calc.useCpeCalculator slides' rq fq)
  ∧ totalAvMinutes (Calc.useCpeCalculator slides rq fq)
    = totalAvMinutes (Calc.useCpeCalculator slides' rq fq).
Proof.
  intros H D.
  assert (A : totalAvMinutes (Calc.useCpeCalculator slides rq fq)
              = totalAvMinutes (Calc.useCpeCalculator slides' rq fq)).
  { change (Calc.t_totalAvMinutes (Calc.totalsOf slides)
            = Calc.t_totalAvMinutes (Calc.totalsOf slides')).
    unfold Calc.totalsOf.
    rewrite !fold_step_minutes, !addMinutes_durations, D. reflexivity. }
  split; [|exact A].
  apply activeSlides_Permutation in H.
  apply sameMetrics_of_totals.
  - rewrite !totalWords_total. apply total_Permutation, H.
  - rewrite A. reflexivity.
Qed.

(** A text slide and a discarded slide change places around two narration
    slides. *)
Lemma metrics_follow_narration_order_witness :
  sameMetrics
    (Calc.useCpeCalculator
       [textSlide 1 "the quick brown fox"; audioSlide 2 90; discardedSlide 3;
        audioSlide 4 (1 # 10)]
       (of_Z 10) (of_Z 5))
    (Calc.useCpeCalculator
       [audioSlide 2 90; textSlide 1 "the quick brown fox";
        audioSlide 4 (1 # 10); discardedSlide 3]
       (of_Z 10) (of_Z 5)).
Proof.
  apply (metrics_follow_narration_order
           [textSlide 1 "the quick brown fox"; audioSlide 2 90;
            discardedSlide 3; audioSlide 4 (1 # 10)]
           [audioSlide 2 90; textSlide 1 "the quick brown fox";
            audioSlide 4 (1 # 10); discardedSlide 3]).
  - eapply perm_trans; [apply perm_swap|].
    do 2 apply perm_skip. apply perm_swap.
  - reflexivity.
Defined.

Lemma nonNegative_add (a b : number) :
  nonNegative a → nonNegative b → nonNegative (a + b)%js.
Proof.
  unfold nonNegative. destruct a, b; simpl; try tauto.
  change (inject_Z 0) with 0%Q. intros. lra.
Qed.

Lemma nonNegative_of_nat (n : nat) : nonNegative (of_nat n).
Proof.
  unfold nonNegative, of_nat, of_Z. simpl. rewrite <- Zle_Qle. lia.
Qed.

Lemma total_nonNegative (f : Slide → number) (l : list Slide) :
  (∀ s, s ∈ l → nonNegative (f s)) → nonNegative (Spec.total f l).
Proof.
  induction l as [|x l IH]; intros H; simpl.
  - unfold nonNegative. simpl. apply Qle_refl.
  - apply nonNegative_add.
    + apply H. left.
    + apply IH. intros s Hs. apply H. right. exact Hs.
Qed.

Lemma nonNegative_same (a b : number) : a ≃ b → nonNegative a → nonNegative b.
Proof. intros E H. unfold nonNegative in *. eapply le_same_r; eassumption. Qed.

Lemma cleanCount_or_else (a : number) :
  cleanCount a → nonNegative (JsNum.or_else a (of_Z 0)).
Proof.
  destruct a as [|q]; simpl.
  - intros _. unfold nonNegative. simpl. apply Qle_refl.
  - intros H. unfold JsNum.or_else, JsNum.truthy.
    destruct (Qeq_bool q 0); unfold nonNegative; simpl;
      change (inject_Z 0) with 0%Q; lra.
Qed.

(** On inputs without negative values the engine reports no negative or
    NaN value and never credits more than the raw hours: when the duration
    of every active slide that counts narration is a number that is not
    negative, and each question count is NaN or not negative, all eight
    metrics are numbers that are not negative and [roundedCpe] is at most
    [rawCpeHours]. *)
Theorem metrics_non_negative (slides : list Slide) (rq fq : number) :
  (∀ s, s ∈ slides → Spec.active s → selectedSource s ≠ OST →
        nonNegative (audioDuration s)) →
  cleanCount rq → cleanCount fq →
  let m := Calc.useCpeCalculator slides rq fq in
  nonNegative (totalWords m) ∧ nonNegative (totalAvMinutes m)
  ∧ nonNegative (totalQuestions m) ∧ nonNegative (wordsCpe m)
  ∧ nonNegative (avCpe m) ∧ nonNegative (questionsCpe m)
  ∧ nonNegative (rawCpeHours m) ∧ nonNegative (roundedCpe m)
  ∧ roundedCpe m ⪯ rawCpeHours m.
Proof.
  intros Hd Hr Hf m.
  assert (W : nonNegative (totalWords m)).
  { eapply nonNegative_same; [symmetry; apply totalWords_total|].
    apply total_nonNegative. intros s _. unfold Spec.wordContribution.
    destruct (selectedSource s); try apply nonNegative_of_nat.
    unfold nonNegative. simpl. apply Qle_refl. }
  assert (A : nonNegative (totalAvMinutes m)).
  { eapply nonNegative_same; [symmetry; apply totalAvMinutes_total|].
    apply total_nonNegative. intros s Hs.
    rewrite activeSlides_filter in Hs.
    apply list_elem_of_filter in Hs. destruct Hs as [Ha Hs].
    unfold Spec.timeContribution.
    destruct (selectedSource s) eqn:E;
      try (apply Hd; [assumption | assumption | congruence]).
    unfold nonNegative. simpl. apply Qle_refl. }
  assert (Q : nonNegative (totalQuestions m)).
  { apply nonNegative_add; apply cleanCount_or_else; assumption. }
  assert (R : roundedCpe m = Calc.roundDown (rawCpeHours m)) by reflexivity.
  assert (Raw : rawCpeHours m
                = ((totalWords m / of_Z 180 + totalAvMinutes m
                    + totalQuestions m * Calc.minutesPerQuestion)
                   / of_Z 60)%js) by reflexivity.
  assert (WC : wordsCpe m = (totalWords m / of_Z 180)%js) by reflexivity.
  assert (AC : avCpe m = totalAvMinutes m) by reflexivity.
  assert (QC : questionsCpe m
               = (totalQuestions m * Calc.minutesPerQuestion)%js)
    by reflexivity.
  rewrite R, Raw, WC, AC, QC.
  destruct (totalWords m) as [|w]; [contradiction|].
  destruct (totalAvMinutes m) as [|a]; [contradiction|].
  destruct (totalQuestions m) as [|q]; [contradiction|].
  unfold nonNegative in *. simpl in W, A, Q.
  change (inject_Z 0) with 0%Q in *.
  set (r := ((w / inject_Z 180 + a + q * (185 # 100)) / inject_Z 60)%Q).
  assert (Hr0 : (0 <= r)%Q).
  { unfold r, Qdiv. change (/ inject_Z 180)%Q with (1 # 180)%Q.
    change (/ inject_Z 60)%Q with (1 # 60)%Q. lra. }
  change ((Fin w / of_Z 180 + Fin a + Fin q * Calc.minutesPerQuestion)
          / of_Z 60)%js with (Fin r).
  repeat split; simpl; change (inject_Z 0) with 0%Q; try assumption.
  - unfold Qdiv. change (/ inject_Z 180)%Q with (1 # 180)%Q. lra.
  - lra.
  - change (of_Z 0 ⪯ Calc.roundDown (Fin r)).
    eapply le_same_r; [symmetry; apply roundDown_nonneg, Hr0|].
    simpl. change (inject_Z 0) with 0%Q. rewrite Qhalf.
    pose proof (halves_nonneg r Hr0) as K. rewrite Zle_Qle in K.
    change (inject_Z 0) with 0%Q in K. lra.
  - eapply le_same_l; [symmetry; apply roundDown_nonneg, Hr0|].
    simpl. apply halves_below.
Qed.

Lemma metrics_non_negative_witness :
  let m := Calc.useCpeCalculator [bothSlide 1 "four words of text" 12]
             (of_Z 3) NaN in
  nonNegative (rawCpeHours m) ∧ roundedCpe m ⪯ rawCpeHours m.
Proof.
  intros m.
  assert (H : ∀ s, s ∈ [bothSlide 1 "four words of text" 12] →
              Spec.active s → selectedSource s ≠ OST →
              nonNegative (audioDuration s)).
  { intros s Hs _ _. apply list_elem_of_singleton in Hs. subst s.
    vm_compute. discriminate. }
  assert (C : cleanCount (of_Z 3)) by (vm_compute; discriminate).
  pose proof (metrics_non_negative _ (of_Z 3) NaN H C I) as P.
  split; [apply P | apply P].
Defined.

End EngineCallers.

(** ** The live statistics and the summary *)

Section Screens.

Import Samples ReviewScreen.

Lemma finalizedSlides_filter (slides : list Slide) :
  StatsPanel.finalizedSlides slides
  = filter (fun s => Spec.active s ∧ isFinalized s = true) slides.
Proof.
  unfold StatsPanel.finalizedSlides, StatsPanel.activeSlides.
  induction slides as [|s l IH]; [reflexivity|].
  rewrite filter_cons. simpl. unfold Calc.notDiscarded at 1.
  destruct (decide (Spec.active s ∧ isFinalized s = true)) as [[Ha Hf]|N].
  - unfold Spec.active in Ha.
    destruct (isDiscarded s) as [[|]|]; try congruence;
      simpl; rewrite Hf, IH; reflexivity.
  - destruct (isDiscarded s) as [[|]|] eqn:E; simpl; try exact IH;
      destruct (isFinalized s) eqn:F; try exact IH;
      exfalso; apply N; split; try reflexivity;
      unfold Spec.active; congruence.
Qed.

Lemma finalizedSlides_active (slides : list Slide) :
  Calc.activeSlides (StatsPanel.finalizedSlides slides)
  = StatsPanel.finalizedSlides slides.
Proof.
  unfold StatsPanel.finalizedSlides, StatsPanel.activeSlides, Calc.activeSlides.
  induction slides as [|s l IH]; [reflexivity|].
  simpl. destruct (Calc.notDiscarded s) eqn:E; [|exact IH].
  simpl. destruct (isFinalized s); [|exact IH].
  simpl. rewrite E, IH. reflexivity.
Qed.

Lemma finalizedSlides_app (l1 l2 : list Slide) :
  StatsPanel.finalizedSlides (l1 ++ l2)
  = StatsPanel.finalizedSlides l1 ++ StatsPanel.finalizedSlides l2.
Proof.
  unfold StatsPanel.finalizedSlides, StatsPanel.activeSlides.
  rewrite !List.filter_app. reflexivity.
Qed.

Lemma discarded_complement (slides : list Slide) :
  (length (FinalizationScreen.discardedSlides slides)
   + length (Calc.activeSlides slides) = length slides)%nat.
Proof.
  unfold FinalizationScreen.discardedSlides, Calc.activeSlides.
  induction slides as [|s l IH]; [reflexivity|].
  simpl. unfold Calc.notDiscarded at 1.
  destruct (isDiscarded s) as [[|]|]; simpl; lia.
Qed.

(** The live statistics count finalized slides only.  The metrics shown
    during the review are those of the slides that are neither discarded
    nor drafts, so a draft slide changes nothing in them; the counters add
    up: the discarded and the active slides make the total (and the
    discarded counter is the number of discarded slides that the summary
    shows), and the finalized slides are among the active ones. *)
Theorem live_stats_count_finalized_only
    (slides : list Slide) (rq fq : number) :
  StatsPanel.metrics slides rq fq
  = Calc.useCpeCalculator
      (filter (fun s => Spec.active s ∧ isFinalized s = true) slides) rq fq
  ∧ (∀ (l1 l2 : list Slide) (s : Slide),
       slides = l1 ++ s :: l2 → isFinalized s = false →
       StatsPanel.metrics slides rq fq = StatsPanel.metrics (l1 ++ l2) rq fq)
  ∧ StatsPanel.discardedCount slides + StatsPanel.activeCount slides
    = StatsPanel.totalCount slides
  ∧ StatsPanel.discardedCount slides
    = Z.of_nat (length (FinalizationScreen.discardedSlides slides))
  ∧ 0 <= StatsPanel.finalizedCount slides <= StatsPanel.activeCount slides.
Proof.
  split; [|split; [|split; [|split]]].
  - unfold StatsPanel.metrics. rewrite finalizedSlides_filter. reflexivity.
  - intros l1 l2 s -> Hs. unfold StatsPanel.metrics.
    rewrite !finalizedSlides_app. do 2 f_equal.
    unfold StatsPanel.finalizedSlides, StatsPanel.activeSlides. simpl.
    destruct (Calc.notDiscarded s); simpl; rewrite ?Hs; reflexivity.
  - unfold StatsPanel.discardedCount. lia.
  - unfold StatsPanel.discardedCount, StatsPanel.totalCount,
      StatsPanel.activeCount, StatsPanel.activeSlides.
    pose proof (discarded_complement slides) as H.
    unfold Calc.activeSlides in H. lia.
  - unfold StatsPanel.finalizedCount, StatsPanel.activeCount,
      StatsPanel.finalizedSlides.
    pose proof (List.filter_length_le isFinalized
                  (StatsPanel.activeSlides slides)). lia.
Qed.

Lemma live_stats_count_finalized_only_witness :
  StatsPanel.metrics [audioSlide 1 90; draftAudioSlide 2] (of_Z 0) (of_Z 0)
  = StatsPanel.metrics [audioSlide 1 90] (of_Z 0) (of_Z 0).
Proof.
  exact (proj1 (proj2 (live_stats_count_finalized_only
                         [audioSlide 1 90; draftAudioSlide 2]
                         (of_Z 0) (of_Z 0)))
           [audioSlide 1 90] [] (draftAudioSlide 2) eq_refl eq_refl).
Defined.

Lemma forallb_filter_length {A : Type} (p : A → bool) (l : list A) :
  forallb p l = true ↔ length (List.filter p l) = length l.
Proof.
  induction l as [|x l IH]; simpl; [tauto|].
  pose proof (List.filter_length_le p l) as L.
  destruct (p x); simpl.
  - rewrite IH. split; intros H; lia.
  - split; [discriminate | intros H; lia].
Qed.

Lemma forallb_filter_id {A : Type} (p : A → bool) (l : list A) :
  forallb p l = true → List.filter p l = l.
Proof.
  induction l as [|x l IH]; simpl; [reflexivity|].
  destruct (p x); simpl; [|discriminate].
  intros H. rewrite IH by exact H. reflexivity.
Qed.

Lemma finalization_metrics_engine (l : list Slide) (rq fq : number) :
  FinalizationScreen.metrics l rq fq = Calc.useCpeCalculator l rq fq.
Proof.
  unfold FinalizationScreen.metrics. apply useCpeCalculator_active.
  apply activeSlides_idem.
Qed.

(** "Complete Review" is enabled exactly when the live panel reads
    "n / n" finalized slides, and then the live metrics are the metrics of
    the summary; the summary's metrics are always those of the engine on
    the whole collection. *)
Theorem complete_review_agrees
    (r : ReviewScreen.State) (rq fq : number) :
  (allSlidesFinalized r = true
   ↔ StatsPanel.finalizedCount (slides r) = StatsPanel.activeCount (slides r))
  ∧ (allSlidesFinalized r = true →
     StatsPanel.metrics (slides r) rq fq
     = FinalizationScreen.metrics (slides r) rq fq)
  ∧ FinalizationScreen.metrics (slides r) rq fq
    = Calc.useCpeCalculator (slides r) rq fq.
Proof.
  split; [|split].
  - unfold allSlidesFinalized, StatsPanel.finalizedCount,
      StatsPanel.activeCount, StatsPanel.finalizedSlides,
      StatsPanel.activeSlides, Calc.activeSlides.
    rewrite forallb_filter_length. split; intros H; lia.
  - intros H. unfold StatsPanel.metrics, FinalizationScreen.metrics,
      StatsPanel.finalizedSlides, StatsPanel.activeSlides,
      FinalizationScreen.activeSlides.
    unfold allSlidesFinalized, Calc.activeSlides in H.
    rewrite (forallb_filter_id _ _ H). reflexivity.
  - apply finalization_metrics_engine.
Qed.

Lemma complete_review_agrees_witness :
  StatsPanel.metrics [audioSlide 1 90; discardedSlide 2] (of_Z 10) (of_Z 5)
  = FinalizationScreen.metrics [audioSlide 1 90; discardedSlide 2]
      (of_Z 10) (of_Z 5).
Proof.
  exact (proj1 (proj2 (complete_review_agrees
                         (store [audioSlide 1 90; discardedSlide 2])
                         (of_Z 10) (of_Z 5))) eq_refl).
Defined.

Lemma tableWords_total (slides : list Slide) :
  Spec.total Spec.wordContribution (Calc.activeSlides slides)
  ≃ of_nat (tableWords slides).
Proof.
  induction slides as [|s l IH]; [reflexivity|].
  unfold Calc.activeSlides in *. simpl.
  unfold FinalizationScreen.wordCountCell, Calc.notDiscarded.
  assert (O : JsString.or_else (ost s) [] = ost s)
    by (destruct (ost s); reflexivity).
  rewrite O.
  change (length (List.filter JsString.truthy (split_ws (trim (ost s)))))
    with (Calc.getWordCount (ost s)).
  rewrite getWordCount_wordCount.
  destruct (isDiscarded s) as [[|]|]; simpl; try exact IH;
    unfold Spec.wordContribution; destruct (selectedSource s); simpl default;
    rewrite ?of_nat_add, IH; try reflexivity; apply add_zero_l.
Qed.

(** The summary table adds up: the word counts in its rows (0 for a
    discarded slide, none for a narration-only slide) sum to the total of
    words of the metrics, which is therefore a whole number that is never
    negative or NaN. *)
Theorem summary_table_adds_up (slides : list Slide) (rq fq : number) :
  totalWords (FinalizationScreen.metrics slides rq fq)
  ≃ of_nat (tableWords slides)
  ∧ totalWords (Calc.useCpeCalculator slides rq fq)
    ≃ of_nat (tableWords slides).
Proof.
  assert (H : totalWords (Calc.useCpeCalculator slides rq fq)
              ≃ of_nat (tableWords slides)).
  { rewrite totalWords_total. apply tableWords_total. }
  split; [|exact H].
  rewrite finalization_metrics_engine. exact H.
Qed.

End Screens.

(** ** Words and segments *)

Section MoreWords.

Lemma words_nil_atBoundary (s : jsstring) :
  Spec.words s = [] → Spec.atBoundary s = true.
Proof.
  destruct s as [|c r]; [reflexivity|]. simpl.
  destruct (isWhiteSpace c); [reflexivity|].
  destruct (Spec.words r); [discriminate|].
  destruct (Spec.atBoundary r); discriminate.
Qed.

Lemma words_app_white (a b : jsstring) (c : N) :
  isWhiteSpace c = true →
  Spec.words (a ++ c :: b) = Spec.words a ++ Spec.words b.
Proof.
  intros Hc. induction a as [|x a IH].
  - simpl. rewrite Hc. reflexivity.
  - change ((x :: a) ++ c :: b) with (x :: (a ++ c :: b)).
    cbn [Spec.words]. destruct (isWhiteSpace x); [exact IH|].
    rewrite IH.
    destruct (Spec.words a) as [|w ws] eqn:E.
    + assert (B : Spec.atBoundary (a ++ c :: b) = true).
      { destruct a as [|y a']; [exact Hc|].
        apply words_nil_atBoundary in E. exact E. }
      rewrite B. simpl. destruct (Spec.words b); reflexivity.
    + assert (B : Spec.atBoundary (a ++ c :: b) = Spec.atBoundary a).
      { destruct a; [discriminate E | reflexivity]. }
      rewrite B. simpl. destruct (Spec.atBoundary a); reflexivity.
Qed.

(** Word counts add up across white space: the count of two texts joined
    by a white-space character is the sum of their counts. *)
Theorem word_count_additive (a b : jsstring) (c : N) :
  isWhiteSpace c = true →
  Calc.getWordCount (a ++ c :: b)
  = (Calc.getWordCount a + Calc.getWordCount b)%nat.
Proof.
  intros Hc. rewrite !getWordCount_wordCount. unfold Spec.wordCount.
  rewrite (words_app_white a b c Hc). apply length_app.
Qed.

Lemma word_count_additive_witness :
  Calc.getWordCount (lit "the quick" ++ 10%N :: lit " brown fox ")
  = (Calc.getWordCount (lit "the quick")
     + Calc.getWordCount (lit " brown fox "))%nat.
Proof. exact (word_count_additive _ _ 10%N eq_refl). Defined.

Lemma words_clean (s : jsstring) :
  Forall (fun w => w ≠ [] ∧ noWhite w) (Spec.words s)
  ∧ concat (Spec.words s)
    = List.filter (fun c => negb (isWhiteSpace c)) s.
Proof.
  induction s as [|c r [IHf IHc]]; [split; [constructor | reflexivity]|].
  cbn [Spec.words List.filter]. destruct (isWhiteSpace c) eqn:Hc; simpl.
  - split; assumption.
  - destruct (Spec.words r) as [|w ws].
    + split.
      * constructor; [|constructor]. split; [discriminate|].
        constructor; [exact Hc | constructor].
      * simpl. rewrite <- IHc. reflexivity.
    + inversion IHf as [|? ? [Hw Hn] Hrest]; subst.
      destruct (Spec.atBoundary r); split.
      * constructor; [|assumption]. split; [discriminate|].
        constructor; [exact Hc | constructor].
      * simpl. rewrite <- IHc. reflexivity.
      * constructor; [|assumption]. split; [discriminate|].
        constructor; assumption.
      * simpl. rewrite <- IHc. reflexivity.
Qed.

(** The pieces that are counted are clean and complete: no piece is empty,
    no piece contains a white-space character, and put end to end the
    pieces are the text without its white space (no character is lost or
    counted twice); so there are at most as many words as characters that
    are not white space. *)
Theorem counted_pieces_clean (text : jsstring) :
  let pieces := List.filter JsString.truthy (split_ws (trim text)) in
  Forall (fun w => w ≠ [] ∧ noWhite w) pieces
  ∧ concat pieces = List.filter (fun c => negb (isWhiteSpace c)) text
  ∧ (Calc.getWordCount text
     <= length (List.filter (fun c => negb (isWhiteSpace c)) text))%nat.
Proof.
  intros pieces. unfold pieces, Calc.getWordCount.
  rewrite kept_pieces_are_words.
  destruct (words_clean text) as [F C]. split; [exact F|]. split; [exact C|].
  rewrite <- C. clear C.
  induction F as [|w ws [Hw _] _ IH]; [reflexivity|].
  simpl. rewrite length_app. destruct w; [congruence|]. simpl. lia.
Qed.

Lemma endsWhite_snoc (s : jsstring) (c : N) :
  endsWhite (s ++ [c]) = isWhiteSpace c.
Proof.
  induction s as [|x r IH]; [reflexivity|].
  change ((x :: r) ++ [c]) with (x :: (r ++ [c])).
  cbn [endsWhite]. destruct (r ++ [c]) eqn:E; [|exact IH].
  destruct r; discriminate.
Qed.

Lemma startsWhite_trimStart (s : jsstring) : startsWhite (trimStart s) = false.
Proof.
  induction s as [|c r IH]; [reflexivity|]. simpl.
  destruct (isWhiteSpace c) eqn:E; [exact IH|]. simpl. exact E.
Qed.

Lemma endsWhite_trimEnd (s : jsstring) : endsWhite (trimEnd s) = false.
Proof.
  unfold trimEnd. pose proof (startsWhite_trimStart (rev s)) as H.
  destruct (trimStart (rev s)) as [|c r]; [reflexivity|].
  simpl rev. rewrite endsWhite_snoc. exact H.
Qed.

Lemma trimStart_fixed (s : jsstring) : startsWhite s = false → trimStart s = s.
Proof. destruct s as [|c r]; simpl; [reflexivity|]. intros ->. reflexivity. Qed.

Lemma startsWhite_trim (s : jsstring) : startsWhite (trim s) = false.
Proof.
  unfold trim. pose proof (startsWhite_trimStart s) as H.
  destruct (trimEnd_split (trimStart s)) as (w & Hw & E).
  destruct (trimEnd (trimStart s)) as [|c r]; [reflexivity|].
  rewrite E in H. exact H.
Qed.

(** On a text that does not end with white space, no piece of the split
    is empty once the scan has something to emit. *)
Lemma split_pieces_truthy (s : jsstring) :
  endsWhite s = false →
  (∀ cur, cur ≠ [] →
     forallb JsString.truthy (split_ws_from false cur s) = true)
  ∧ (s ≠ [] → forallb JsString.truthy (split_ws_from true [] s) = true).
Proof.
  induction s as [|c r IH]; intros He.
  - split; [|congruence]. intros cur Hcur. simpl.
    destruct (rev cur) eqn:E; [|reflexivity].
    apply (f_equal (@rev N)) in E. rewrite rev_involutive in E.
    simpl in E. congruence.
  - assert (Hr : r ≠ [] → endsWhite r = false).
    { intros Hn. destruct r; [congruence | exact He]. }
    assert (Hc : r = [] → isWhiteSpace c = false).
    { intros ->. exact He. }
    split.
    + intros cur Hcur. cbn [split_ws_from].
      destruct (isWhiteSpace c) eqn:Ec.
      * assert (Hn : r ≠ []) by (intros E; specialize (Hc E); congruence).
        simpl. rewrite (proj2 (IH (Hr Hn)) Hn), andb_true_r.
        destruct (rev cur) eqn:E; [|reflexivity].
        apply (f_equal (@rev N)) in E. rewrite rev_involutive in E.
        simpl in E. congruence.
      * destruct r as [|x r'].
        -- simpl. destruct (rev cur ++ [c]) eqn:E; [|reflexivity].
           destruct (rev cur); discriminate.
        -- apply (proj1 (IH (Hr ltac:(discriminate)))). discriminate.
    + intros _. cbn [split_ws_from].
      destruct (isWhiteSpace c) eqn:Ec.
      * assert (Hn : r ≠ []) by (intros E; specialize (Hc E); congruence).
        apply (proj2 (IH (Hr Hn)) Hn).
      * destruct r as [|x r']; [reflexivity|].
        apply (proj1 (IH (Hr ltac:(discriminate)))). discriminate.
Qed.

Lemma split_ws_from_nonempty (b : bool) (cur s : jsstring) :
  split_ws_from b cur s ≠ [].
Proof.
  revert b cur. induction s as [|c r IH]; intros b cur; simpl.
  - discriminate.
  - destruct (isWhiteSpace c); [destruct b|]; try apply IH. discriminate.
Qed.

Lemma segmentWords_max (text : jsstring) :
  AudioUploadModal.segmentWords text = Nat.max 1 (Calc.getWordCount text).
Proof.
  unfold AudioUploadModal.segmentWords, Calc.getWordCount.
  pose proof (startsWhite_trim text) as Hs.
  assert (He : endsWhite (trim text) = false) by apply endsWhite_trimEnd.
  destruct (trim text) as [|c r] eqn:E; [reflexivity|].
  simpl in Hs. unfold split_ws. cbn [split_ws_from]. rewrite Hs.
  assert (Hr : endsWhite r = false).
  { destruct r; [reflexivity | exact He]. }
  pose proof (proj1 (split_pieces_truthy r Hr) [c] ltac:(discriminate)) as T.
  rewrite (forallb_filter_id _ _ T).
  pose proof (split_ws_from_nonempty false [c] r) as N.
  destruct (split_ws_from false [c] r); [congruence | simpl; lia].
Qed.

Lemma transcriptionWordCount_from (segs : list Segment) (acc : nat) :
  fold_left (fun a s => (a + AudioUploadModal.segmentWords (seg_text s))%nat)
    segs acc
  = (acc + AudioUploadModal.transcriptionWordCount segs)%nat.
Proof.
  unfold AudioUploadModal.transcriptionWordCount.
  revert acc. induction segs as [|s l IH]; intros acc; simpl; [lia|].
  rewrite IH, (IH (AudioUploadModal.segmentWords (seg_text s))). lia.
Qed.

(** The word count stored with a transcription counts every segment at
    least once: a segment counts its words, but a segment whose text is
    empty or white space counts for one word (the split of the empty text
    has one piece and nothing filters it out), so the stored count is at
    least the number of segments. *)
Theorem transcription_counts_empty_segments (segs : list Segment) :
  (∀ text : jsstring,
     AudioUploadModal.segmentWords text = Nat.max 1 (Calc.getWordCount text))
  ∧ AudioUploadModal.transcriptionWordCount segs
    = foldr (fun s a => (Nat.max 1 (Calc.getWordCount (seg_text s)) + a)%nat)
        0%nat segs
  ∧ (length segs <= AudioUploadModal.transcriptionWordCount segs)%nat.
Proof.
  split; [exact segmentWords_max|].
  assert (E : AudioUploadModal.transcriptionWordCount segs
              = foldr (fun s a =>
                         (Nat.max 1 (Calc.getWordCount (seg_text s)) + a)%nat)
                  0%nat segs).
  { induction segs as [|s l IH]; [reflexivity|].
    unfold AudioUploadModal.transcriptionWordCount. simpl.
    rewrite transcriptionWordCount_from, IH, segmentWords_max. reflexivity. }
  split; [exact E|]. rewrite E. clear E.
  induction segs as [|s l IH]; simpl; lia.
Qed.

(** Toggling a segment is an involution on the selection: the segment
    changes side, every other text keeps its state (segments with the same
    text are one entry), and toggling twice restores the selection. *)
Theorem segment_toggle_involution
    (t : jsstring) (sel : gset jsstring) :
  (t ∈ AudioUploadModal.handleSegmentToggle t sel ↔ t ∉ sel)
  ∧ (∀ x, x ≠ t →
       (x ∈ AudioUploadModal.handleSegmentToggle t sel ↔ x ∈ sel))
  ∧ AudioUploadModal.handleSegmentToggle t
      (AudioUploadModal.handleSegmentToggle t sel) = sel.
Proof.
  assert (M : ∀ x s, x ∈ AudioUploadModal.handleSegmentToggle t s
                     ↔ (x = t ∧ t ∉ s) ∨ (x ≠ t ∧ x ∈ s)).
  { intros x s. unfold AudioUploadModal.handleSegmentToggle.
    destruct (decide (t ∈ s)) as [H|H].
    - rewrite elem_of_difference, elem_of_singleton.
      destruct (decide (x = t)) as [->|N];
        [pose proof (eq_refl t)|]; tauto.
    - rewrite elem_of_union, elem_of_singleton.
      destruct (decide (x = t)) as [->|N];
        [pose proof (eq_refl t)|]; tauto. }
  split; [|split].
  - rewrite M. tauto.
  - intros x N. rewrite M. tauto.
  - apply set_eq. intros x. rewrite !M.
    destruct (decide (x = t)) as [->|N];
      destruct (decide (t ∈ sel)); tauto.
Qed.

End MoreWords.

(** ** The editor: more of its handlers *)

Section EditorMore.

Import SlideEditor ReviewScreen Samples.

(** Finalize and unlock are inverse: when finalize succeeds on a draft,
    finalizing again (the unlock) gives back the editor as it was, with the
    validation error cleared, and reports to the store the same content
    marked as a draft. *)
Theorem finalize_then_unlock (e : SlideEditor.State) :
  e_isFinalized e = false →
  (handleFinalize e).1.1 = true →
  handleFinalize (handleFinalize e).1.2
  = (true, setFinalizeError None e, [onUpdate (snapshot e false)])
  ∧ (handleFinalize e).2 = [onUpdate (snapshot e true)].
Proof.
  intros Hd Hok.
  assert (E : handleFinalize e
              = (true, setIsFinalized true (setFinalizeError None e),
                 [onUpdate (snapshot e true)])).
  { unfold handleFinalize in Hok |- *. rewrite Hd in *.
    destruct (negb false && needsDuration (e_selectedSource e)
              && JsNum.strict_eq (e_audioDuration e) (of_Z 0));
      [discriminate Hok | reflexivity]. }
  rewrite E. split; [|reflexivity].
  destruct e. simpl in Hd. subst. reflexivity.
Qed.

Lemma finalize_then_unlock_witness :
  let e := mount (FileParser.createSlideObject 1 (lit "Hello world") []) in
  handleFinalize (handleFinalize e).1.2
  = (true, setFinalizeError None e, [onUpdate (snapshot e false)]).
Proof.
  intros e. exact (proj1 (finalize_then_unlock e eq_refl eq_refl)).
Defined.

(** "Finalize & Next" never unlocks and never leaves a slide it could not
    finalize: on a finalized editor it only navigates; on a draft it
    navigates exactly when the finalize succeeds; in every case it asks
    for the next slide if and only if the editor is finalized afterwards. *)
Theorem finalize_and_next_never_unlocks (e : SlideEditor.State) :
  (e_isFinalized e = true →
     handleFinalizeAndNextClick e = (e, [onFinalizeAndNext]))
  ∧ (e_isFinalized e = false →
       (handleFinalizeAndNextClick e).1 = (handleFinalize e).1.2
       ∧ ((handleFinalize e).1.1 = false →
            (handleFinalizeAndNextClick e).2 = []))
  ∧ (onFinalizeAndNext ∈ (handleFinalizeAndNextClick e).2
     ↔ e_isFinalized (handleFinalizeAndNextClick e).1 = true).
Proof.
  unfold handleFinalizeAndNextClick, handleFinalize.
  destruct (e_isFinalized e) eqn:F; simpl negb.
  - repeat split; try discriminate; intros; simpl; try assumption.
    apply list_elem_of_singleton. reflexivity.
  - destruct (true && needsDuration (e_selectedSource e)
              && JsNum.strict_eq (e_audioDuration e) (of_Z 0)) eqn:G; simpl.
    + repeat split; try discriminate; try reflexivity.
      * intros H. apply elem_of_nil in H. contradiction.
      * rewrite F. discriminate.
    + repeat split; try discriminate; try reflexivity.
      intros _. right. left.
Qed.

Lemma finalize_and_next_never_unlocks_witness :
  handleFinalizeAndNextClick (mount (audioSlide 1 90))
  = (mount (audioSlide 1 90), [onFinalizeAndNext])
  ∧ (handleFinalizeAndNextClick (mount (draftAudioSlide 1))).2 = [].
Proof.
  split.
  - exact (proj1 (finalize_and_next_never_unlocks (mount (audioSlide 1 90)))
             eq_refl).
  - exact (proj2 (proj1 (proj2 (finalize_and_next_never_unlocks
                                  (mount (draftAudioSlide 1)))) eq_refl)
             eq_refl).
Defined.

(** Discard commits the edits: the slide handed to the store carries the
    current cells of the editor (finalized or not), the time and the user;
    the note is kept only under the reason "Other" and is emptied under
    every other reason; and un-discarding the slide changes none of that
    content. *)
Theorem discard_commits_edits
    (now later : jsstring) (e : SlideEditor.State) :
  e_discardReason e ≠ [] →
  ∃ d u : Slide,
    (handleDiscardConfirm now e).2 = [onDiscardAndNext d]
    ∧ ost d = e_ost e ∧ transcript d = e_transcript e
    ∧ selectedSource d = e_selectedSource e
    ∧ audioDuration d = e_audioDuration e
    ∧ audioMeta d = e_audioMeta e
    ∧ discardedAt d = Some now ∧ discardedBy d = Some user
    ∧ (e_discardReason e = Other → discardNote d = Some (e_discardNote e))
    ∧ (e_discardReason e ≠ Other → discardNote d = Some [])
    ∧ (handleUndoDiscard later (mount d)).2 = [onUpdate u]
    ∧ ost u = e_ost e ∧ transcript u = e_transcript e
    ∧ selectedSource u = e_selectedSource e
    ∧ audioDuration u = e_audioDuration e
    ∧ audioMeta u = e_audioMeta e
    ∧ isDiscarded u = Some false.
Proof.
  intros H.
  assert (T : JsString.truthy (e_discardReason e) = true)
    by (destruct (e_discardReason e); [congruence | reflexivity]).
  unfold handleDiscardConfirm. rewrite T. cbn [negb snd].
  eexists. eexists. split; [reflexivity|].
  repeat split.
  - intros E. cbn [discardNote].
    destruct (decide (e_discardReason e = Other)); [reflexivity | congruence].
  - intros N. cbn [discardNote].
    destruct (decide (e_discardReason e = Other)); [congruence | reflexivity].
Qed.

Lemma discard_commits_edits_witness :
  let e := setDiscardNote (lit "typed by mistake")
             (setDiscardReason (lit "Duplicate content")
                (mount (draftAudioSlide 1))) in
  ∃ d u : Slide,
    (handleDiscardConfirm (lit "t0") e).2 = [onDiscardAndNext d]
    ∧ discardNote d = Some []
    ∧ (handleUndoDiscard (lit "t1") (mount d)).2 = [onUpdate u]
    ∧ ost u = e_ost e.
Proof.
  intros e.
  destruct (discard_commits_edits (lit "t0") (lit "t1") e
              ltac:(discriminate))
    as (d & u & E & _ & _ & _ & _ & _ & _ & _ & _ & N & U & O & _).
  exists d, u. split; [exact E|]. split; [apply N; discriminate|].
  split; [exact U | exact O].
Defined.

Lemma replaceChar_app (c : N) (b x y : jsstring) :
  replaceChar c b (x ++ y) = replaceChar c b x ++ replaceChar c b y.
Proof. apply flat_map_app. Qed.

Lemma replaceChar_flat_map (c : N) (b : jsstring) (f : N → jsstring)
    (s : jsstring) :
  replaceChar c b (flat_map f s) = flat_map (fun x => replaceChar c b (f x)) s.
Proof.
  induction s as [|x r IH]; [reflexivity|].
  simpl. rewrite replaceChar_app, IH. reflexivity.
Qed.

Lemma escapeHtml_flat_map (s : jsstring) :
  escapeHtml s = flat_map escapeChar s.
Proof.
  unfold escapeHtml. unfold replaceChar at 5.
  rewrite !replaceChar_flat_map.
  induction s as [|x r IH]; [reflexivity|].
  simpl. rewrite IH. f_equal. clear IH.
  unfold escapeChar.
  destruct (N.eqb_spec x 38) as [->|N38]; [reflexivity|].
  destruct (N.eqb_spec x 60) as [->|N60]; [reflexivity|].
  destruct (N.eqb_spec x 62) as [->|N62]; [reflexivity|].
  destruct (N.eqb_spec x 34) as [->|N34]; [reflexivity|].
  destruct (N.eqb_spec x 39) as [->|N39]; [reflexivity|].
  unfold replaceChar. simpl.
  apply N.eqb_neq in N60, N62, N34, N39.
  rewrite N60. simpl. rewrite N62. simpl. rewrite N34. simpl. rewrite N39.
  reflexivity.
Qed.

Lemma escapeChar_safe (c x : N) :
  x ∈ escapeChar c → x ≠ 60%N ∧ x ≠ 62%N ∧ x ≠ 34%N ∧ x ≠ 39%N.
Proof.
  unfold escapeChar.
  destruct (N.eqb_spec c 38); [|destruct (N.eqb_spec c 60);
    [|destruct (N.eqb_spec c 62); [|destruct (N.eqb_spec c 34);
      [|destruct (N.eqb_spec c 39)]]]];
    intros H; apply list_elem_of_In in H; simpl in H;
    repeat (destruct H as [<-|H]; [repeat split; (discriminate || congruence)|]);
    contradiction.
Qed.

(** Escaped text is safe to insert as markup: it contains no angle bracket
    and no quote, whatever the input; escaping works character by
    character (the escape of a concatenation is the concatenation of the
    escapes, an ampersand written by a later replacement is never escaped
    again), leaves a text without markup characters as it is, and never
    shortens a text. *)
Theorem escape_html_safe (a b : jsstring) :
  (∀ x, x ∈ escapeHtml a →
        x ≠ 60%N ∧ x ≠ 62%N ∧ x ≠ 34%N ∧ x ≠ 39%N)
  ∧ escapeHtml a = flat_map escapeChar a
  ∧ escapeHtml (a ++ b) = escapeHtml a ++ escapeHtml b
  ∧ (forallb (fun c => negb (markupChar c)) a = true → escapeHtml a = a)
  ∧ (length a <= length (escapeHtml a))%nat.
Proof.
  split; [|split; [|split; [|split]]].
  - intros x. rewrite escapeHtml_flat_map. intros H.
    apply list_elem_of_In, in_flat_map in H. destruct H as (c & _ & H).
    apply (escapeChar_safe c). apply list_elem_of_In. exact H.
  - apply escapeHtml_flat_map.
  - rewrite !escapeHtml_flat_map. apply flat_map_app.
  - rewrite escapeHtml_flat_map.
    induction a as [|c r IH]; [reflexivity|]. simpl.
    unfold markupChar at 1, escapeChar at 1.
    destruct (c =? 38)%N; [discriminate|].
    destruct (c =? 60)%N; [discriminate|].
    destruct (c =? 62)%N; [discriminate|].
    destruct (c =? 34)%N; [discriminate|].
    destruct (c =? 39)%N; [discriminate|].
    simpl. intros H. rewrite (IH H). reflexivity.
  - rewrite escapeHtml_flat_map.
    induction a as [|c r IH]; [reflexivity|]. simpl.
    rewrite length_app.
    assert (L : (1 <= length (escapeChar c))%nat).
    { unfold escapeChar.
      repeat (match goal with |- context [if ?t then _ else _] =>
                destruct t end); simpl; lia. }
    lia.
Qed.

Lemma escape_html_safe_witness :
  escapeHtml (lit "plain text 123") = lit "plain text 123".
Proof.
  exact (proj1 (proj2 (proj2 (proj2
           (escape_html_safe (lit "plain text 123") [])))) eq_refl).
Defined.

End EditorMore.

(** ** Durations in minutes and seconds *)

Section Durations.

Import SlideEditor Samples.

Local Open Scope Q_scope.

Lemma Qfloor_unique (x : Q) (k : Z) :
  inject_Z k <= x → x < inject_Z k + 1 → Qfloor x = k.
Proof.
  intros L U.
  pose proof (Qfloor_le x) as A. pose proof (Qlt_floor x) as B.
  rewrite inject_Z_plus in B. change (inject_Z 1) with 1 in B.
  assert (H1 : inject_Z k < inject_Z (Qfloor x + 1)).
  { rewrite inject_Z_plus. change (inject_Z 1) with 1. lra. }
  assert (H2 : inject_Z (Qfloor x) < inject_Z (k + 1)).
  { rewrite inject_Z_plus. change (inject_Z 1) with 1. lra. }
  rewrite <- Zlt_Qlt in H1, H2. lia.
Qed.

Lemma inject_Z_sub (a b : Z) : inject_Z (a - b) == inject_Z a - inject_Z b.
Proof.
  unfold Z.sub. rewrite inject_Z_plus, inject_Z_opp. reflexivity.
Qed.

Lemma minutes_bounds (x : Q) :
  0 <= x →
  let m := Qfloor (x / inject_Z 60) in
  (0 <= m)%Z ∧ inject_Z (60 * m) <= x ∧ x < inject_Z (60 * m) + 60.
Proof.
  intros H m.
  assert (E : x / inject_Z 60 == x * (1 # 60)) by (unfold Qdiv; reflexivity).
  pose proof (Qfloor_le (x / inject_Z 60)) as A.
  pose proof (Qlt_floor (x / inject_Z 60)) as B.
  fold m in A, B. rewrite inject_Z_plus in B. change (inject_Z 1) with 1 in B.
  rewrite E in A, B. rewrite inject_Z_mult. change (inject_Z 60) with 60.
  split; [|split; lra].
  change 0%Z with (Qfloor 0). apply Qfloor_resp_le. rewrite E. lra.
Qed.

Lemma seconds_bounds (y : Q) :
  0 <= y → y < 60 →
  let s := Qfloor (y + (1 # 2)) in
  (0 <= s <= 60)%Z ∧ y - (1 # 2) < inject_Z s ∧ inject_Z s <= y + (1 # 2).
Proof.
  intros L U s.
  pose proof (Qfloor_le (y + (1 # 2))) as A.
  pose proof (Qlt_floor (y + (1 # 2))) as B.
  fold s in A, B. rewrite inject_Z_plus in B. change (inject_Z 1) with 1 in B.
  split; [|split; lra].
  split.
  - change 0%Z with (Qfloor (1 # 2)). apply Qfloor_resp_le. lra.
  - change 60%Z with (Qfloor (121 # 2)). apply Qfloor_resp_le. lra.
Qed.

Lemma truncate_nonneg (q : Q) : 0 <= q → JsNum.truncate q = Qfloor q.
Proof.
  intros H. unfold JsNum.truncate.
  apply Qle_bool_iff in H. rewrite H. reflexivity.
Qed.

(** The minutes and seconds that [floor (x / 60)] and
    [round (x % 60)] give for a duration of [x] seconds. *)
Lemma split_seconds (x : Q) :
  0 <= x →
  let m := Qfloor (x / inject_Z 60) in
  let s := Qfloor (x - inject_Z 60 * inject_Z (JsNum.truncate (x / inject_Z 60))
                   + (1 # 2)) in
  (0 <= m)%Z ∧ (0 <= s <= 60)%Z
  ∧ inject_Z (60 * m) <= x ∧ x < inject_Z (60 * m) + 60
  ∧ x - (1 # 2) < inject_Z (60 * m + s)
  ∧ inject_Z (60 * m + s) <= x + (1 # 2).
Proof.
  intros H m s.
  destruct (minutes_bounds x H) as (M0 & ML & MU). fold m in M0, ML, MU.
  assert (Q0 : 0 <= x / inject_Z 60).
  { unfold Qdiv. change (/ inject_Z 60) with (1 # 60). lra. }
  unfold s. rewrite (truncate_nonneg _ Q0). fold m.
  rewrite inject_Z_mult in ML, MU. change (inject_Z 60) with 60 in *.
  destruct (seconds_bounds (x - 60 * inject_Z m)) as (S0 & SL & SU);
    [lra | lra |].
  rewrite inject_Z_plus, inject_Z_mult. change (inject_Z 60) with 60.
  repeat split; try lia; lra.
Qed.

Lemma or_else_whole (z : Z) :
  JsNum.or_else (of_Z z) (of_Z 0) ≃ of_Z z.
Proof. apply (or_else_nanAsZero (of_Z z)). Qed.

(** Accepting a duration from the audio dialog: a duration of [d] seconds
    that is not negative becomes whole minutes and whole seconds, the
    minutes being [floor (d / 60)] and the seconds the rest rounded to the
    nearest second, between 0 and 60 inclusive (59.5 seconds and more
    round up to 60, the minutes are not carried); the duration of the
    slide is then within half a second of [d]; the attachment is the one
    handed over and the dialog is closed.  A duration that is NaN is
    accepted as a duration of 0. *)
Theorem accept_duration_whole_seconds
    (meta : AudioMeta) (e : SlideEditor.State) :
  (∀ d : Q, 0 <= d →
     let e' := handleAcceptDuration (Fin d) meta e in
     ∃ m s : Z,
       minutes e' = of_Z m ∧ seconds e' = of_Z s
       ∧ (0 <= m)%Z ∧ (0 <= s <= 60)%Z
       ∧ inject_Z (60 * m) <= d ∧ d < inject_Z (60 * m) + 60
       ∧ d - (1 # 2) < inject_Z (60 * m + s)
       ∧ inject_Z (60 * m + s) <= d + (1 # 2)
       ∧ e_audioDuration e' ≃ Fin (inject_Z (60 * m + s) / 60)
       ∧ e_audioMeta e' = meta ∧ isAudioModalOpen e' = false)
  ∧ e_audioDuration (handleAcceptDuration NaN meta e) ≃ of_Z 0.
Proof.
  split; [|reflexivity].
  intros d Hd e'.
  destruct (split_seconds d Hd) as (M0 & S0 & ML & MU & SL & SU).
  set (m := Qfloor (d / inject_Z 60)) in *.
  set (s := Qfloor (d - inject_Z 60
                        * inject_Z (JsNum.truncate (d / inject_Z 60))
                    + (1 # 2))) in *.
  exists m, s.
  assert (Em : minutes e' = of_Z m) by reflexivity.
  assert (Es : seconds e' = of_Z s) by reflexivity.
  assert (Ed : e_audioDuration e'
               = (JsNum.or_else (of_Z m) (of_Z 0)
                  + JsNum.or_else (of_Z s) (of_Z 0) / of_Z 60)%js)
    by reflexivity.
  repeat (split; [first [assumption | apply S0]|]).
  split; [|split; reflexivity].
  rewrite Ed, !or_else_whole. simpl.
  rewrite inject_Z_plus, inject_Z_mult. unfold Qdiv.
  change (/ inject_Z 60) with (1 # 60). change (/ 60) with (1 # 60).
  change (inject_Z 60) with 60. ring.
Qed.

(** 119.6 seconds: one minute and sixty seconds. *)
Lemma accept_duration_whole_seconds_witness :
  let e' := handleAcceptDuration (Fin (1196 # 10)) manualMeta
              (mount (draftAudioSlide 1)) in
  (minutes e' ≃ of_Z 1 ∧ seconds e' ≃ of_Z 60)
  ∧ ∃ m s : Z,
      minutes e' = of_Z m ∧ seconds e' = of_Z s
      ∧ (0 <= m)%Z ∧ (0 <= s <= 60)%Z
      ∧ inject_Z (60 * m) <= 1196 # 10 ∧ 1196 # 10 < inject_Z (60 * m) + 60
      ∧ (1196 # 10) - (1 # 2) < inject_Z (60 * m + s)
      ∧ inject_Z (60 * m + s) <= (1196 # 10) + (1 # 2)
      ∧ e_audioDuration e' ≃ Fin (inject_Z (60 * m + s) / 60)
      ∧ e_audioMeta e' = manualMeta ∧ isAudioModalOpen e' = false.
Proof.
  intros e'. split; [split; vm_compute; reflexivity|].
  assert (P : 0 <= 1196 # 10) by (vm_compute; discriminate).
  exact (proj1 (accept_duration_whole_seconds manualMeta
                  (mount (draftAudioSlide 1))) (1196 # 10) P).
Defined.

(** Mounting the editor on a slide reads its duration as whole minutes and
    whole seconds: for a duration of [d] minutes that is not negative, the
    minutes are [floor d], the seconds are the rest rounded to the nearest
    second (0 to 60), and the duration the editor holds (and reports on
    its next update) is within half a second of [d]; it is [d] itself when
    [d] is a whole number of seconds. *)
Theorem mount_keeps_whole_seconds (sl : Slide) (d : Q) :
  audioDuration sl = Fin d → 0 <= d →
  let e := mount sl in
  ∃ m s : Z,
    minutes e = of_Z m ∧ seconds e = of_Z s
    ∧ (0 <= m)%Z ∧ (0 <= s <= 60)%Z
    ∧ e_audioDuration e ≃ Fin (inject_Z m + inject_Z s / 60)
    ∧ d - (1 # 120) <= inject_Z m + inject_Z s / 60
    ∧ inject_Z m + inject_Z s / 60 <= d + (1 # 120)
    ∧ (∀ k : Z, d * 60 == inject_Z k →
         e_audioDuration e ≃ Fin d ∧ (s < 60)%Z).
Proof.
  intros Hsl Hd e.
  set (m := Qfloor d).
  set (s := Qfloor ((d - inject_Z m) * inject_Z 60 + (1 # 2))).
  assert (Em : minutes e = of_Z m)
    by (unfold e, mount; rewrite Hsl; reflexivity).
  assert (Es : seconds e = of_Z s)
    by (unfold e, mount; rewrite Hsl; reflexivity).
  assert (Ed : e_audioDuration e
               = (JsNum.or_else (of_Z m) (of_Z 0)
                  + JsNum.or_else (of_Z s) (of_Z 0) / of_Z 60)%js)
    by (unfold e, mount; rewrite Hsl; reflexivity).
  pose proof (Qfloor_le d) as A. pose proof (Qlt_floor d) as B.
  fold m in A, B. rewrite inject_Z_plus in B. change (inject_Z 1) with 1 in B.
  assert (M0 : (0 <= m)%Z).
  { change 0%Z with (Qfloor 0). apply Qfloor_resp_le. exact Hd. }
  change (inject_Z 60) with 60 in s.
  destruct (seconds_bounds ((d - inject_Z m) * 60)) as (S0 & SL & SU);
    [lra | lra |]. fold s in S0, SL, SU.
  assert (D : e_audioDuration e ≃ Fin (inject_Z m + inject_Z s / 60)).
  { rewrite Ed, !or_else_whole. simpl. reflexivity. }
  exists m, s.
  repeat (split; [first [assumption | apply S0]|]).
  unfold Qdiv in *. change (/ 60) with (1 # 60) in *.
  split; [lra|]. split; [lra|].
  intros k Hk.
  assert (Sk : s = (k - 60 * m)%Z).
  { unfold s. apply Qfloor_unique;
      rewrite inject_Z_sub, inject_Z_mult; change (inject_Z 60) with 60;
      lra. }
  split.
  - rewrite D. simpl. rewrite Sk, inject_Z_sub, inject_Z_mult.
    change (inject_Z 60) with 60. lra.
  - assert (K : inject_Z k < inject_Z (60 * m + 60)).
    { rewrite inject_Z_plus, inject_Z_mult. change (inject_Z 60) with 60.
      lra. }
    rewrite <- Zlt_Qlt in K. lia.
Qed.

(** One minute and a half. *)
Lemma mount_keeps_whole_seconds_witness :
  e_audioDuration (mount (audioSlide 1 (3 # 2))) ≃ Fin (3 # 2).
Proof.
  assert (P : 0 <= 3 # 2) by (vm_compute; discriminate).
  destruct (mount_keeps_whole_seconds (audioSlide 1 (3 # 2)) (3 # 2)
              eq_refl P) as (m & s & _ & _ & _ & _ & _ & _ & _ & W).
  exact (proj1 (W 90%Z ltac:(vm_compute; reflexivity))).
Defined.

End Durations.

(** ** The slide store: updates and navigation *)

Section Store.

Import SlideEditor ReviewScreen Samples.

Lemma at_index_nat (l : list Slide) (j : nat) :
  at_index l (Z.of_nat j) = l !! j.
Proof.
  unfold at_index. destruct (Z.ltb_spec (Z.of_nat j) 0); [lia|].
  rewrite Nat2Z.id. reflexivity.
Qed.

Lemma findIndexFrom_first (l : list Slide) (b : Z) (i : nat) (s : Slide) :
  l !! i = Some s →
  (∀ j s', (j < i)%nat → l !! j = Some s' → id s' ≠ id s) →
  findIndexFrom b (id s) l = b + Z.of_nat i.
Proof.
  revert b i. induction l as [|x l IH]; intros b i Hi Hfirst;
    [discriminate|].
  destruct i as [|i]; simpl in *.
  - injection Hi as ->. rewrite Z.eqb_refl. lia.
  - destruct (Z.eqb_spec (id x) (id s)) as [E|N].
    + exfalso. apply (Hfirst 0%nat x); [lia | reflexivity | exact E].
    + rewrite (IH (b + 1) i Hi); [lia|].
      intros j s' Hj Hs'. apply (Hfirst (S j) s'); [lia | exact Hs'].
Qed.

Lemma findIndexFrom_absent (l : list Slide) (b k : Z) :
  (∀ s, s ∈ l → id s ≠ k) → findIndexFrom b k l = -1.
Proof.
  revert b. induction l as [|x l IH]; intros b H; [reflexivity|].
  simpl. destruct (Z.eqb_spec (id x) k) as [E|N].
  - exfalso. apply (H x); [left | exact E].
  - apply IH. intros s Hs. apply H. right. exact Hs.
Qed.

Lemma findIndex_NoDup (l : list Slide) (i : nat) (s : Slide) :
  NoDup (List.map id l) → l !! i = Some s →
  findIndex (id s) l = Z.of_nat i.
Proof.
  intros Hn Hi. unfold findIndex.
  rewrite (findIndexFrom_first l 0 i s Hi); [lia|].
  intros j s' Hj Hs' E.
  assert (A : List.map id l !! i = Some (id s)).
  { change (List.map id l) with (id <$> l).
    rewrite list_lookup_fmap, Hi. reflexivity. }
  assert (B : List.map id l !! j = Some (id s)).
  { change (List.map id l) with (id <$> l).
    rewrite list_lookup_fmap, Hs'. simpl. rewrite E. reflexivity. }
  pose proof (NoDup_lookup _ _ _ _ Hn A B). lia.
Qed.

Lemma findSlide_absent (k : Z) (l : list Slide) :
  (∀ s, s ∈ l → id s ≠ k) → findSlide k l = None.
Proof.
  unfold findSlide. induction l as [|x l IH]; intros H; [reflexivity|].
  simpl. destruct (Z.eqb_spec (id x) k) as [E|N].
  - exfalso. apply (H x); [left | exact E].
  - apply IH. intros s Hs. apply H. right. exact Hs.
Qed.

Lemma map_same_id (u : Slide) (l : list Slide) :
  List.map id
    (List.map (fun s => if Z.eqb (id s) (id u) then u else s) l)
  = List.map id l.
Proof.
  induction l as [|x l IH]; [reflexivity|]. simpl. rewrite IH. f_equal.
  destruct (Z.eqb_spec (id x) (id u)); congruence.
Qed.

(** An update keeps the collection in shape: the store has the same number
    of slides with the same ids in the same order; every slide with the id
    of the update is replaced by it (all of them, when ids repeat), every
    other slide is untouched, the focus does not move; an update for an id
    that no slide has changes nothing; and applying the same update twice
    is applying it once. *)
Theorem slide_update_keeps_shape (u : Slide) (r : ReviewScreen.State) :
  let r' := handleSlideUpdate u r in
  length (slides r') = length (slides r)
  ∧ List.map id (slides r') = List.map id (slides r)
  ∧ (∀ i s, slides r !! i = Some s →
       slides r' !! i = Some (if Z.eqb (id s) (id u) then u else s))
  ∧ activeSlideId r' = activeSlideId r
  ∧ ((∀ s, s ∈ slides r → id s ≠ id u) → r' = r)
  ∧ slides (handleSlideUpdate u r') = slides r'.
Proof.
  intros r'. split; [|split; [|split; [|split; [|split]]]].
  - apply length_map.
  - apply map_same_id.
  - intros i s Hi. unfold r', handleSlideUpdate. cbn [slides].
    change (List.map ?f ?l) with (f <$> l).
    rewrite list_lookup_fmap, Hi. reflexivity.
  - reflexivity.
  - intros H. unfold r', handleSlideUpdate.
    assert (M : List.map (fun s => if Z.eqb (id s) (id u) then u else s)
                  (slides r) = slides r).
    { clear r'. induction (slides r) as [|x l IH]; [reflexivity|].
      simpl. rewrite IH by (intros s Hs; apply H; right; exact Hs).
      destruct (Z.eqb_spec (id x) (id u)) as [E|N]; [|reflexivity].
      exfalso. apply (H x); [left | exact E]. }
    assert (F : findSlide (id u) (slides r) = None)
      by (apply findSlide_absent, H).
    rewrite M, F. destruct r; reflexivity.
  - unfold r', handleSlideUpdate. cbn [slides].
    rewrite List.map_map. apply List.map_ext. intros s.
    destruct (Z.eqb_spec (id s) (id u)) as [E|N].
    + rewrite Z.eqb_refl. reflexivity.
    + destruct (Z.eqb_spec (id s) (id u)); [contradiction | reflexivity].
Qed.

Lemma slide_update_keeps_shape_witness :
  handleSlideUpdate (audioSlide 9 30) (store [audioSlide 1 90])
  = store [audioSlide 1 90].
Proof.
  apply (proj1 (proj2 (proj2 (proj2 (proj2
           (slide_update_keeps_shape (audioSlide 9 30)
              (store [audioSlide 1 90]))))))).
  intros s Hs. apply list_elem_of_singleton in Hs. subst s. discriminate.
Defined.

(** After a discard the focus goes to the next slide by position, else to
    the previous one, else to none, whether or not that neighbour is
    itself discarded (with ids all different, for the slide at position
    [i]). *)
Theorem discard_moves_focus
    (u : Slide) (r : ReviewScreen.State) (i : nat) (s : Slide) :
  NoDup (List.map id (slides r)) → slides r !! i = Some s → id u = id s →
  let r' := handleDiscardAndNext u r in
  slides r' = slides (handleSlideUpdate u r)
  ∧ (∀ n, slides r !! S i = Some n → activeSlideId r' = Some (id n))
  ∧ (slides r !! S i = None →
     (∀ j p, i = S j → slides r !! j = Some p →
             activeSlideId r' = Some (id p))
     ∧ (i = 0%nat → activeSlideId r' = None)).
Proof.
  intros Hn Hi Hu r'.
  assert (F : findIndex (id u) (slides r) = Z.of_nat i)
    by (rewrite Hu; apply findIndex_NoDup; assumption).
  assert (L : (i < length (slides r))%nat)
    by (apply lookup_lt_Some in Hi; exact Hi).
  unfold r', handleDiscardAndNext. rewrite F.
  split; [|split].
  - repeat (destruct (_ <? _)); reflexivity.
  - intros n Hnx. apply lookup_lt_Some in Hnx as L'.
    destruct (Z.ltb_spec (Z.of_nat i) (Z.of_nat (length (slides r)) - 1)); [|lia].
    replace (Z.of_nat i + 1) with (Z.of_nat (S i)) by lia.
    cbn [activeSlideId setActiveSlideId].
    rewrite at_index_nat, Hnx. reflexivity.
  - intros Hnone. apply lookup_ge_None in Hnone.
    destruct (Z.ltb_spec (Z.of_nat i) (Z.of_nat (length (slides r)) - 1)); [lia|].
    split.
    + intros j p -> Hp.
      destruct (Z.ltb_spec 0 (Z.of_nat (S j))); [|lia].
      replace (Z.of_nat (S j) - 1) with (Z.of_nat j) by lia.
      cbn [activeSlideId setActiveSlideId].
      rewrite at_index_nat, Hp. reflexivity.
    + intros ->. reflexivity.
Qed.

Lemma discard_moves_focus_witness :
  activeSlideId
    (handleDiscardAndNext (discardedSlide 2)
       (store [audioSlide 1 90; audioSlide 2 30; discardedSlide 3]))
  = Some 3.
Proof.
  apply (proj1 (proj2 (discard_moves_focus (discardedSlide 2)
           (store [audioSlide 1 90; audioSlide 2 30; discardedSlide 3])
           1%nat (audioSlide 2 30)
           ltac:(apply (bool_decide_unpack _); vm_compute; exact I)
           eq_refl eq_refl)) (discardedSlide 3) eq_refl).
Defined.

(** Navigation stays in the collection, with ids all different and the
    focus on the slide at position [i]: "next" moves to position [i + 1]
    and does nothing on the last slide, "previous" moves to position
    [i - 1] and does nothing on the first, discarded slides are visited
    like the others, and "previous" undoes "next". *)
Theorem navigation_steps
    (r : ReviewScreen.State) (i : nat) (s : Slide) :
  NoDup (List.map id (slides r)) → slides r !! i = Some s →
  activeSlideId r = Some (id s) →
  (∀ n, slides r !! S i = Some n →
     handleNextSlide r = setActiveSlideId (Some (id n)) r
     ∧ handlePreviousSlide (handleNextSlide r) = r)
  ∧ (slides r !! S i = None → handleNextSlide r = r)
  ∧ (∀ j p, i = S j → slides r !! j = Some p →
       handlePreviousSlide r = setActiveSlideId (Some (id p)) r)
  ∧ (i = 0%nat → handlePreviousSlide r = r).
Proof.
  intros Hn Hi Ha.
  assert (F : activeIndex r = Z.of_nat i).
  { unfold activeIndex. rewrite Ha. apply findIndex_NoDup; assumption. }
  assert (L : (i < length (slides r))%nat)
    by (apply lookup_lt_Some in Hi; exact Hi).
  split; [|split; [|split]].
  - intros n Hnx. apply lookup_lt_Some in Hnx as L'.
    assert (E : handleNextSlide r = setActiveSlideId (Some (id n)) r).
    { unfold handleNextSlide. rewrite F.
      destruct (Z.ltb_spec (Z.of_nat i) (Z.of_nat (length (slides r)) - 1)); [|lia].
      replace (Z.of_nat i + 1) with (Z.of_nat (S i)) by lia.
      rewrite at_index_nat, Hnx. reflexivity. }
    split; [exact E|]. rewrite E.
    unfold handlePreviousSlide, activeIndex. cbn [activeSlideId slides
      setActiveSlideId].
    rewrite (findIndex_NoDup _ (S i) n Hn Hnx).
    destruct (Z.ltb_spec 0 (Z.of_nat (S i))); [|lia].
    replace (Z.of_nat (S i) - 1) with (Z.of_nat i) by lia.
    rewrite at_index_nat, Hi. unfold setActiveSlideId. cbn [slides
      reviewQuestions finalExamQuestions toastMessage].
    destruct r; simpl in *. congruence.
  - intros Hnone. apply lookup_ge_None in Hnone.
    unfold handleNextSlide. rewrite F.
    destruct (Z.ltb_spec (Z.of_nat i) (Z.of_nat (length (slides r)) - 1));
      [lia | reflexivity].
  - intros j p -> Hp. unfold handlePreviousSlide. rewrite F.
    destruct (Z.ltb_spec 0 (Z.of_nat (S j))); [|lia].
    replace (Z.of_nat (S j) - 1) with (Z.of_nat j) by lia.
    rewrite at_index_nat, Hp. reflexivity.
  - intros ->. unfold handlePreviousSlide. rewrite F. reflexivity.
Qed.

Lemma navigation_steps_witness :
  let r := store [audioSlide 1 90; discardedSlide 2] in
  handleNextSlide r = setActiveSlideId (Some 2) r
  ∧ handlePreviousSlide (handleNextSlide r) = r.
Proof.
  intros r.
  exact (proj1 (navigation_steps r 0%nat (audioSlide 1 90)
           ltac:(apply (bool_decide_unpack _); vm_compute; exact I)
           eq_refl eq_refl) (discardedSlide 2) eq_refl).
Defined.

End Store.

(** ** Ingestion: numbers, columns, file types *)

Section IngestionMore.

Import FileParser Samples.

Lemma digitsValue_acc (u : Decimal.uint) (acc : positive) (rest : jsstring) :
  noDigitAhead rest →
  digitsValue (Zpos acc) (uintCodes u ++ rest)
  = Zpos (Pos.of_uint_acc u acc).
Proof.
  intros Hr. revert acc.
  induction u as [|u IH|u IH|u IH|u IH|u IH|u IH|u IH|u IH|u IH|u IH];
    intros acc; cbn [uintCodes app Pos.of_uint_acc].
  1: { destruct rest as [|c r]; [reflexivity|]. simpl in *. rewrite Hr.
       reflexivity. }
  all: cbn [digitsValue];
    match goal with
    | |- context [isDigit ?c] => change (isDigit c) with true
    end;
    cbv iota; rewrite <- IH; f_equal; try lia.
Qed.

Lemma digitsValue_codes (u : Decimal.uint) (rest : jsstring) :
  noDigitAhead rest →
  digitsValue 0 (uintCodes u ++ rest) = Z.of_N (Pos.of_uint u).
Proof.
  intros Hr.
  induction u as [|u IH|u IH|u IH|u IH|u IH|u IH|u IH|u IH|u IH|u IH];
    cbn [uintCodes app Pos.of_uint].
  1: { destruct rest as [|c r]; [reflexivity|]. simpl in *. rewrite Hr.
       reflexivity. }
  1: { cbn [digitsValue]. change (isDigit 48) with true. cbv iota.
       exact IH. }
  all: cbn [digitsValue];
    match goal with
    | |- context [isDigit ?c] => change (isDigit c) with true
    end;
    cbv iota; simpl Z.of_N; rewrite <- (digitsValue_acc u _ rest Hr);
    reflexivity.
Qed.

Lemma uintCodes_head (u : Decimal.uint) :
  match uintCodes u with
  | [] => u = Decimal.Nil
  | c :: _ => isDigit c = true ∧ isWhiteSpace c = false
  end.
Proof. destruct u; simpl; auto. Qed.

Lemma to_uint_codes (p : positive) (rest : jsstring) :
  noDigitAhead rest →
  ∃ c r, uintCodes (Pos.to_uint p) = c :: r
         ∧ isDigit c = true ∧ isWhiteSpace c = false
         ∧ digitsValue 0 (c :: r ++ rest) = Zpos p.
Proof.
  intros Hr.
  pose proof (digitsValue_codes (Pos.to_uint p) rest Hr) as V.
  rewrite DecimalPos.Unsigned.of_to in V.
  pose proof (uintCodes_head (Pos.to_uint p)) as H.
  destruct (uintCodes (Pos.to_uint p)) as [|c r] eqn:E.
  - rewrite H in E. exfalso.
    pose proof (DecimalPos.Unsigned.of_to p) as O. rewrite H in O.
    discriminate O.
  - exists c, r. destruct H as [D W]. repeat split; assumption.
Qed.

Lemma trimStart_allWhite (w s : jsstring) :
  allWhite w → trimStart (w ++ s) = trimStart s.
Proof.
  induction 1 as [|c r Hc _ IH]; [reflexivity|]. simpl. rewrite Hc.
  exact IH.
Qed.

Lemma signed_digit (c : N) (r : jsstring) :
  isDigit c = true → signed (c :: r) = (1, c :: r).
Proof.
  intros D.
  assert (C : (c = 48 ∨ c = 49 ∨ c = 50 ∨ c = 51 ∨ c = 52 ∨ c = 53
               ∨ c = 54 ∨ c = 55 ∨ c = 56 ∨ c = 57)%N).
  { unfold isDigit in D. apply andb_true_iff in D as [D1 D2].
    apply N.leb_le in D1, D2. lia. }
  repeat (destruct C as [C|C]); subst c; reflexivity.
Qed.

Lemma parseInt_decimal (w rest : jsstring) (z : Z) :
  allWhite w → noDigitAhead rest →
  parseInt (w ++ decimal z ++ rest) = parsed z.
Proof.
  intros Hw Hr. unfold parseInt. rewrite (trimStart_allWhite _ _ Hw).
  destruct z as [|p|p]; cbn [decimal].
  - simpl. destruct rest as [|c r]; [reflexivity|]. simpl in Hr.
    cbn [digitsValue]. rewrite Hr. reflexivity.
  - destruct (to_uint_codes p rest Hr) as (c & r & E & D & W & V).
    rewrite E. cbn [app trimStart]. rewrite W.
    rewrite (signed_digit c (r ++ rest) D). rewrite D, V.
    reflexivity.
  - destruct (to_uint_codes p rest Hr) as (c & r & E & D & W & V).
    rewrite E. cbn [app trimStart]. change (isWhiteSpace 45) with false.
    cbv iota. cbn [signed]. rewrite D, V. reflexivity.
Qed.

Lemma parseInt_allWhite (w : jsstring) : allWhite w → parseInt w = parsedNaN.
Proof.
  intros Hw. unfold parseInt.
  pose proof (trimStart_allWhite w [] Hw) as T. rewrite app_nil_r in T.
  rewrite T. reflexivity.
Qed.

(** [parseInt] reads back the decimal numeral of a whole number, also
    after white space and before anything that is not a digit: exactly
    when the number is a safe integer; beyond, the number it gets is known
    by its sign only.  So a numeric slide-number cell is a valid id
    exactly when the number is positive, and the id is then the number;
    and a text of white space only (an empty cell) is no number. *)
Theorem parse_int_reads_numbers (w rest : jsstring) (z : Z) :
  allWhite w → noDigitAhead rest →
  (isSafeInteger z = true →
     parseInt (w ++ decimal z ++ rest) = parsedInt z)
  ∧ (isSafeInteger z = false →
       parseInt (w ++ decimal z ++ rest) = parsedBeyond (z <? 0))
  ∧ (∀ safe : Is_true (isSafeInteger z),
       Spec.hasNumericId (cellText (CellNumber z safe)) = (0 <? z)
       ∧ (0 < z → Spec.numericId (cellText (CellNumber z safe)) = z))
  ∧ parseInt w = parsedNaN.
Proof.
  intros Hw Hr.
  pose proof (parseInt_decimal w rest z Hw Hr) as E.
  split; [intros S; rewrite E; unfold parsed; rewrite S; reflexivity|].
  split; [intros S; rewrite E; unfold parsed; rewrite S; reflexivity|].
  split; [|apply parseInt_allWhite, Hw].
  intros safe.
  assert (P : parseInt (decimal z) = parsedInt z).
  { pose proof (parseInt_decimal [] [] z (Forall_nil_2 _) I) as H.
    rewrite app_nil_r in H. cbn [app] in H. rewrite H.
    unfold parsed. apply Is_true_eq_true in safe. rewrite safe.
    reflexivity. }
  unfold Spec.hasNumericId, Spec.numericId, cellText.
  destruct (Z.eqb_spec z 0) as [->|N].
  - split; [reflexivity | lia].
  - rewrite P. split; reflexivity.
Qed.

Lemma parse_int_reads_numbers_witness :
  parseInt (lit "  " ++ decimal 42 ++ lit "b") = parsedInt 42
  ∧ parseInt (decimal 9007199254740993 ++ []) = parsedBeyond false.
Proof.
  assert (W : allWhite (lit "  ")) by (repeat constructor).
  split.
  - exact (proj1 (parse_int_reads_numbers (lit "  ") (lit "b") 42 W eq_refl)
             eq_refl).
  - exact (proj1 (proj2 (parse_int_reads_numbers [] [] 9007199254740993
                           (Forall_nil_2 _) I))
             eq_refl).
Defined.

Lemma findIndexOf_found (name : jsstring) (header : list (option jsstring))
    (k j : nat) :
  findIndexOf name k header = found j →
  ∃ i h, j = (k + i)%nat ∧ header !! i = Some (Some h)
         ∧ trim (toLowerCase h) = toLowerCase name.
Proof.
  revert k. induction header as [|x l IH]; intros k H; [discriminate|].
  destruct x as [x|]; [|discriminate]. simpl in H.
  destruct (decide (trim (toLowerCase x) = toLowerCase name)) as [E|N].
  - injection H as <-. exists 0%nat, x. repeat split; [lia | exact E].
  - destruct (IH _ H) as (i & h & -> & Hi & Hm).
    exists (S i), h. repeat split; [lia | exact Hi | exact Hm].
Qed.

Lemma findIndexOf_notFound (name : jsstring)
    (header : list (option jsstring)) (k : nat) :
  findIndexOf name k header = notFound
  ↔ dense header
    ∧ ∀ h, Some h ∈ header → trim (toLowerCase h) ≠ toLowerCase name.
Proof.
  unfold dense. revert k. induction header as [|x l IH]; intros k.
  - split; [|reflexivity]. intros _. split; [constructor|].
    intros h Hh. apply elem_of_nil in Hh. contradiction.
  - destruct x as [x|]; simpl.
    + destruct (decide (trim (toLowerCase x) = toLowerCase name)) as [E|N].
      * split; [discriminate|]. intros [_ H]. exfalso.
        apply (H x); [left | exact E].
      * rewrite IH. split.
        -- intros [D H]. split; [constructor; [eexists; reflexivity|exact D]|].
           intros h Hh. apply elem_of_cons in Hh as [[= ->]|Hh]; auto.
        -- intros [D H]. split; [inversion D; assumption|].
           intros h Hh. apply H. right. exact Hh.
    + split; [discriminate|]. intros [D _]. exfalso.
      inversion D as [|? ? [? E] ?]. discriminate E.
Qed.

Lemma findIndexOf_hole (name : jsstring) (pre : list jsstring)
    (post : list (option jsstring)) (k : nat) :
  (∀ h, h ∈ pre → trim (toLowerCase h) ≠ toLowerCase name) →
  findIndexOf name k ((Some <$> pre) ++ None :: post) = thrown.
Proof.
  revert k. induction pre as [|x l IH]; intros k H; [reflexivity|].
  cbn [fmap list_fmap app findIndexOf].
  destruct (decide (trim (toLowerCase x) = toLowerCase name)) as [E|N].
  - exfalso. apply (H x); [left | exact E].
  - apply IH. intros h Hh. apply H. right. exact Hh.
Qed.

Lemma findColumn_found (header : list (option jsstring))
    (names : list jsstring) (k : nat) :
  findColumn header names = found k →
  ∃ name h, name ∈ names ∧ header !! k = Some (Some h)
            ∧ trim (toLowerCase h) = toLowerCase name.
Proof.
  induction names as [|n l IH]; [discriminate|]. simpl.
  destruct (findIndexOf n 0 header) as [j| |] eqn:E.
  - intros [= <-].
    destruct (findIndexOf_found _ _ _ _ E) as (i & h & -> & Hi & Hm).
    exists n, h. split; [left|]. split; assumption.
  - intros H. destruct (IH H) as (name & h & Hn & Hk & Hm).
    exists name, h. split; [right; exact Hn|]. split; assumption.
  - discriminate.
Qed.

Lemma findColumn_notFound (header : list (option jsstring))
    (names : list jsstring) :
  findColumn header names = notFound
  ↔ names = []
    ∨ (dense header
       ∧ ∀ name h, name ∈ names → Some h ∈ header →
                   trim (toLowerCase h) ≠ toLowerCase name).
Proof.
  induction names as [|n l IH]; simpl.
  - split; [left; reflexivity | reflexivity].
  - destruct (findIndexOf n 0 header) as [j| |] eqn:E.
    + split; [discriminate|]. intros [[=]|[_ H]]. exfalso.
      destruct (findIndexOf_found _ _ _ _ E) as (i & h & _ & Hi & Hm).
      apply (H n h); [left | |exact Hm].
      apply list_elem_of_lookup_2 in Hi. exact Hi.
    + apply findIndexOf_notFound in E as [D E]. rewrite IH. split.
      * intros H. right. split; [exact D|]. intros name h Hn Hh.
        apply elem_of_cons in Hn as [->|Hn]; [apply E; exact Hh|].
        destruct H as [->|[_ H]]; [apply elem_of_nil in Hn; contradiction|].
        apply H; assumption.
      * intros [[=]|[_ H]]. destruct l as [|m l']; [left; reflexivity|].
        right. split; [exact D|]. intros name h Hn Hh.
        apply H; [right|]; assumption.
    + split; [discriminate|]. intros [[=]|[D _]]. exfalso.
      apply (findIndexOf_dense n 0 header D). exact E.
Qed.

Lemma findKey_Some (names header : list jsstring) (h : jsstring) :
  findKey names header = Some h → h ∈ header ∧ trim (toLowerCase h) ∈ names.
Proof.
  unfold findKey. intros H. apply List.find_some in H as [Hin Hp].
  split; [apply list_elem_of_In; exact Hin|].
  apply bool_decide_eq_true in Hp. exact Hp.
Qed.

Lemma findKey_None (names header : list jsstring) :
  findKey names header = None
  ↔ ∀ h, h ∈ header → trim (toLowerCase h) ∉ names.
Proof.
  unfold findKey. induction header as [|x l IH]; simpl.
  - split; [|reflexivity]. intros _ h Hh. apply elem_of_nil in Hh.
    contradiction.
  - destruct (bool_decide (trim (toLowerCase x) ∈ names)) eqn:E.
    + split; [discriminate|]. intros H. exfalso.
      apply bool_decide_eq_true in E. apply (H x); [left | exact E].
    + apply bool_decide_eq_false in E. rewrite IH. split.
      * intros H h Hh. apply elem_of_cons in Hh as [->|Hh]; auto.
      * intros H h Hh. apply H. right. exact Hh.
Qed.

Lemma option_None_or_Some {A : Type} (o : option A) :
  is_Some o ↔ o ≠ None.
Proof.
  destruct o; split; intros H; try congruence; try (eexists; reflexivity).
  destruct H as [? [=]].
Qed.

Lemma dense_fmap_Some (fields : list jsstring) : dense (Some <$> fields).
Proof.
  unfold dense. induction fields; constructor; [eexists; reflexivity|].
  assumption.
Qed.

(** Looking up a column.  Both look-ups compare the header cells in lower
    case and without surrounding white space with the accepted names.  The
    spreadsheet look-up returns the position of a cell that carries one of
    the names; it returns [-1] exactly when the row has no blank cell and
    no cell carries any name; it throws on a row in which a blank cell
    comes before every cell that carries the first name, whatever the
    other cells and names are, and never on a row without blank cell.  The
    look-up of the delimited files returns a cell that carries one of the
    names and fails exactly when no cell carries any.  So, the accepted
    names being in lower case, on a header row without blank cell the two
    parsers find a column in exactly the same cases. *)
Theorem column_lookup
    (header : list (option jsstring)) (fields names : list jsstring) :
  (∀ k, findColumn header names = found k →
     ∃ name h, name ∈ names ∧ header !! k = Some (Some h)
               ∧ trim (toLowerCase h) = toLowerCase name)
  ∧ (findColumn header names = notFound
     ↔ names = []
       ∨ (dense header
          ∧ ∀ name h, name ∈ names → Some h ∈ header →
                      trim (toLowerCase h) ≠ toLowerCase name))
  ∧ (∀ pre post name rest,
       (∀ h, h ∈ pre → trim (toLowerCase h) ≠ toLowerCase name) →
       findColumn ((Some <$> pre) ++ None :: post) (name :: rest) = thrown)
  ∧ (dense header → findColumn header names ≠ thrown)
  ∧ (∀ h, findKey names fields = Some h →
          h ∈ fields ∧ trim (toLowerCase h) ∈ names)
  ∧ (findKey names fields = None
     ↔ ∀ h, h ∈ fields → trim (toLowerCase h) ∉ names)
  ∧ (Forall (fun n => toLowerCase n = n) names →
     (is_Some (columnIndex (findColumn (Some <$> fields) names))
      ↔ is_Some (findKey names fields)))
  ∧ Forall (fun n => toLowerCase n = n)
      (ostNames ++ transcriptNames ++ slideNoNames).
Proof.
  split; [exact (findColumn_found header names)|].
  split; [exact (findColumn_notFound header names)|].
  split.
  { intros pre post name rest H. cbn [findColumn].
    rewrite (findIndexOf_hole name pre post 0 H). reflexivity. }
  split; [apply findColumn_dense|].
  split; [exact (findKey_Some names fields)|].
  split; [exact (findKey_None names fields)|].
  split; [|repeat constructor].
  intros Hl. rewrite Forall_forall in Hl.
  pose proof (findColumn_dense (Some <$> fields) names
                (dense_fmap_Some fields)) as T.
  pose proof (findColumn_notFound (Some <$> fields) names) as NF.
  rewrite (option_None_or_Some (findKey names fields)), findKey_None.
  split.
  - intros [k Hk] C.
    destruct (findColumn (Some <$> fields) names) as [j| |] eqn:E;
      try discriminate.
    destruct (findColumn_found _ _ _ E) as (name & h & Hn & Hj & Hm).
    apply list_elem_of_lookup_2, list_elem_of_fmap in Hj
      as (h' & [= <-] & Hh).
    apply (C h Hh). rewrite Hm, (Hl name Hn). exact Hn.
  - intros H.
    destruct (findColumn (Some <$> fields) names) as [j| |] eqn:E;
      [eexists; reflexivity | | congruence].
    exfalso. apply H. intros h Hh Hin.
    destruct (proj1 NF eq_refl) as [->|[_ C]];
      [apply elem_of_nil in Hin; contradiction|].
    apply (C _ h Hin); [apply list_elem_of_fmap_2; exact Hh|].
    symmetry. apply Hl, Hin.
Qed.

Lemma column_lookup_witness :
  findColumn [None; Some (lit "OST")] ostNames = thrown
  ∧ (is_Some (columnIndex
                (findColumn
                   (Some <$> [lit "Slide No"; lit " On-Screen Text "])
                   ostNames))
     ↔ is_Some (findKey ostNames [lit "Slide No"; lit " On-Screen Text "])).
Proof.
  pose proof (column_lookup [] [lit "Slide No"; lit " On-Screen Text "]
                ostNames) as (_ & _ & H & _ & _ & _ & E & _).
  split.
  - apply (H [] [Some (lit "OST")] (lit "ost") [lit "on-screen text"]).
    intros h Hh. apply elem_of_nil in Hh. contradiction.
  - apply E. repeat constructor.
Defined.

Lemma splitOnFrom_nonempty (c : N) (cur s : jsstring) :
  splitOnFrom c cur s ≠ [].
Proof.
  revert cur. induction s as [|x r IH]; intros cur; simpl; [discriminate|].
  destruct (x =? c)%N; [discriminate | apply IH].
Qed.

Lemma splitOnFrom_plain (c : N) (cur s : jsstring) :
  (∀ x, x ∈ s → x ≠ c) → splitOnFrom c cur s = [rev cur ++ s].
Proof.
  revert cur. induction s as [|x r IH]; intros cur H; simpl.
  - rewrite app_nil_r. reflexivity.
  - destruct (N.eqb_spec x c) as [E|N].
    + exfalso. apply (H x); [left | exact E].
    + rewrite IH by (intros y Hy; apply H; right; exact Hy).
      simpl. rewrite <- app_assoc. reflexivity.
Qed.

Lemma last_cons_nonempty {A : Type} (x d : A) (l : list A) :
  l ≠ [] → List.last (x :: l) d = List.last l d.
Proof. destruct l; [congruence | reflexivity]. Qed.

Lemma last_splitOnFrom (c : N) (cur a b : jsstring) :
  List.last (splitOnFrom c cur (a ++ c :: b)) []
  = List.last (splitOnFrom c [] b) [].
Proof.
  revert cur. induction a as [|x r IH]; intros cur; simpl.
  - rewrite N.eqb_refl. apply last_cons_nonempty, splitOnFrom_nonempty.
  - destruct (x =? c)%N; [|apply IH].
    rewrite last_cons_nonempty by apply splitOnFrom_nonempty. apply IH.
Qed.

Lemma head_splitOnFrom (c : N) (cur a b : jsstring) :
  (∀ x, x ∈ a → x ≠ c) →
  head (splitOnFrom c cur (a ++ c :: b)) = Some (rev cur ++ a).
Proof.
  revert cur. induction a as [|x r IH]; intros cur H; simpl.
  - rewrite N.eqb_refl, app_nil_r. reflexivity.
  - destruct (N.eqb_spec x c) as [E|N].
    + exfalso. apply (H x); [left | exact E].
    + rewrite IH by (intros y Hy; apply H; right; exact Hy).
      simpl. rewrite <- app_assoc. reflexivity.
Qed.

(** The file type is read from the text after the last dot of the name, in
    any case: a name [base.ext] whose [ext] has no dot goes to the
    spreadsheet parser for xlsx and xls, to the delimited-text parser for
    csv, to the deck parser for pptx, and is refused with the
    "Unsupported file type" error for every other [ext], nothing being
    parsed; a name without a dot is its own extension. *)
Theorem file_type_by_last_extension (file : File) (base ext : jsstring) :
  (∀ x, x ∈ ext → x ≠ 46%N) →
  (name file = base ++ 46%N :: ext → extension (name file) = toLowerCase ext)
  ∧ (name file = ext → extension (name file) = toLowerCase ext)
  ∧ (extension (name file) = toLowerCase ext →
     (toLowerCase ext = lit "xlsx" ∨ toLowerCase ext = lit "xls" →
        parseFile file = parseXlsx (sheet file))
     ∧ (toLowerCase ext = lit "csv" →
          parseFile file = parseCsv (csvFields file) (csvData file))
     ∧ (toLowerCase ext = lit "pptx" →
          parseFile file = resolve (parsePptx (deck file)))
     ∧ (toLowerCase ext ∉ [lit "xlsx"; lit "xls"; lit "csv"; lit "pptx"] →
          parseFile file = reject unsupportedError
          ∧ handleFileChange file = uploadError unsupportedError)).
Proof.
  intros Hext. split; [|split].
  - intros ->. unfold extension, splitOn.
    rewrite last_splitOnFrom, (splitOnFrom_plain _ _ _ Hext). reflexivity.
  - intros ->. unfold extension, splitOn.
    rewrite (splitOnFrom_plain _ _ _ Hext). reflexivity.
  - intros E. unfold handleFileChange, parseFile. rewrite E.
    split; [|split; [|split]].
    + intros [-> | ->]; reflexivity.
    + intros ->. reflexivity.
    + intros ->. reflexivity.
    + intros H.
      assert (M : ∀ t, t ∈ [lit "xlsx"; lit "xls"; lit "csv"; lit "pptx"] →
                       toLowerCase ext ≠ t)
        by (intros t Ht Et; apply H; rewrite Et; exact Ht).
      destruct (decide (toLowerCase ext = lit "xlsx")) as [D|_];
        [exfalso; apply (M (lit "xlsx"));
         [apply list_elem_of_In; simpl; auto | exact D]|].
      destruct (decide (toLowerCase ext = lit "xls")) as [D|_];
        [exfalso; apply (M (lit "xls"));
         [apply list_elem_of_In; simpl; auto | exact D]|].
      destruct (decide (toLowerCase ext = lit "csv")) as [D|_];
        [exfalso; apply (M (lit "csv"));
         [apply list_elem_of_In; simpl; auto | exact D]|].
      destruct (decide (toLowerCase ext = lit "pptx")) as [D|_];
        [exfalso; apply (M (lit "pptx"));
         [apply list_elem_of_In; simpl; auto | exact D]|].
      split; reflexivity.
Qed.

Lemma file_type_by_last_extension_witness :
  let file := mkFile (lit "storyboard.final.CSV") [] (Some Sheet.fields)
                Sheet.data [] in
  extension (name file) = lit "csv"
  ∧ parseFile file = parseCsv (Some Sheet.fields) Sheet.data.
Proof.
  intros file.
  assert (H : ∀ x, x ∈ lit "CSV" → x ≠ 46%N).
  { intros x Hx. apply list_elem_of_In in Hx. simpl in Hx.
    repeat (destruct Hx as [<-|Hx]; [discriminate|]). contradiction. }
  pose proof (file_type_by_last_extension file (lit "storyboard.final")
                (lit "CSV") H) as (E & _ & P).
  split; [exact (E eq_refl)|].
  exact (proj1 (proj2 (P (E eq_refl))) eq_refl).
Defined.









Lemma Forall_imap_all {A B : Type} (P : B → Prop) (f : nat → A → B)
    (l : list A) :
  (∀ i x, P (f i x)) → Forall P (imap f l).
Proof.
  intros H. revert f H. induction l as [|x r IH]; intros f H; simpl.
  - constructor.
  - constructor; [apply H|]. apply IH. intros i y. apply H.
Qed.

Lemma createSlideObject_fresh (i : Z) (o t : jsstring) :
  freshDraft (createSlideObject i o t).
Proof. repeat split. Qed.

Lemma mapM_same_Forall {A : Type} (P : A → Prop) (options : list (option A))
    (l : list A) :
  (∀ o x, o ∈ options → o = Some x → P x) →
  mapM (fun slide => slide) options = Some l → Forall P l.
Proof.
  intros H E. apply mapM_Some_1 in E.
  induction E as [|o x L l Hx _ IH]; constructor.
  - apply (H o x); [left | exact Hx].
  - apply IH. intros o' x' Ho. apply H. right. exact Ho.
Qed.

Lemma slides_fresh {A : Type} (f : nat → A → option Slide) (rows : list A)
    (l : list Slide) :
  (∀ i row s, f i row = Some s → freshDraft s) →
  mapM (fun slide => slide) (imap f rows) = Some l → Forall freshDraft l.
Proof.
  intros H. apply mapM_same_Forall.
  intros o s Ho ->. apply list_elem_of_lookup_1 in Ho as [i Hi].
  rewrite list_lookup_imap in Hi.
  destruct (rows !! i) as [row|]; [|discriminate].
  injection Hi as Hi. apply (H i row s). exact Hi.
Qed.

Lemma parseFile_fresh (file : File) (slides : list Slide) :
  parseFile file = resolve slides → Forall freshDraft slides.
Proof.
  assert (X : ∀ json l, parseXlsx json = resolve l → Forall freshDraft l).
  { intros json l. unfold parseXlsx.
    destruct json as [|h [|r1 rest]]; try (intros [= <-]; constructor).
    cbv zeta.
    destruct (findColumn (List.map headerText h) ostNames),
      (findColumn (List.map headerText h) transcriptNames),
      (findColumn (List.map headerText h) slideNoNames); try discriminate;
      match goal with
      | |- context [xlsxSlides ?a ?b ?c ?d] =>
          destruct (xlsxSlides a b c d) as [got|] eqn:E
      end; try discriminate; intros [= <-];
      (eapply slides_fresh; [|exact E]);
      intros i row s; unfold xlsxSlide;
      match goal with
      | |- context [_ <$> ?o] => destruct o
      end; try discriminate; intros [= <-]; apply createSlideObject_fresh. }
  assert (C : ∀ f d l, parseCsv f d = resolve l → Forall freshDraft l).
  { intros f d l. unfold parseCsv.
    destruct (findKey ostNames _), (findKey transcriptNames _);
      try discriminate;
      match goal with
      | |- context [csvSlides ?a ?b ?c ?d] =>
          destruct (csvSlides a b c d) as [got|] eqn:E
      end; try discriminate; intros [= <-];
      (eapply slides_fresh; [|exact E]);
      intros i row s; unfold csvSlide;
      match goal with
      | |- context [_ <$> ?o] => destruct o
      end; try discriminate; intros [= <-]; apply createSlideObject_fresh. }
  unfold parseFile.
  repeat (destruct (decide _)); try discriminate; eauto.
  intros [= <-]. apply Forall_imap_all. intros. apply createSlideObject_fresh.
Qed.

Lemma fresh_not_finalized (slides : list Slide) :
  Forall freshDraft slides →
  StatsPanel.finalizedSlides slides = []
  ∧ StatsPanel.activeSlides slides = slides.
Proof.
  induction 1 as [|s l (_ & _ & F & _ & D & _) _ [IH1 IH2]];
    [split; reflexivity|].
  unfold StatsPanel.finalizedSlides, StatsPanel.activeSlides in *.
  assert (N : Calc.notDiscarded s = true)
    by (unfold Calc.notDiscarded; rewrite D; reflexivity).
  simpl. rewrite N. simpl.
  rewrite IH2 in IH1. rewrite F, IH2. split; [exact IH1 | reflexivity].
Qed.

(** A successful upload starts a clean review: the application gets the
    name of the file and a collection that is never empty (a file that
    yields no slide is reported as an error), every slide of it is a draft
    on its on-screen text without duration, attachment or discard; so the
    review opens on the first slide with no finalized slide, live totals
    of 0 words and 0 minutes, and "Complete Review" disabled. *)
Theorem upload_starts_clean
    (file : File) (slides : list Slide) (fileName : jsstring)
    (rq fq : number) :
  handleFileChange file = onFileUpload slides fileName →
  fileName = name file
  ∧ parseFile file = resolve slides
  ∧ (∃ first rest, slides = first :: rest
       ∧ ReviewScreen.activeSlideId (ReviewScreen.initial slides rq fq)
         = Some (id first))
  ∧ Forall freshDraft slides
  ∧ StatsPanel.finalizedCount slides = 0
  ∧ StatsPanel.activeCount slides = StatsPanel.totalCount slides
  ∧ totalWords (StatsPanel.metrics slides rq fq) = of_Z 0
  ∧ totalAvMinutes (StatsPanel.metrics slides rq fq) = of_Z 0
  ∧ ReviewScreen.allSlidesFinalized (ReviewScreen.initial slides rq fq)
    = false.
Proof.
  unfold handleFileChange.
  destruct (parseFile file) as [l| |m|] eqn:P; try discriminate.
  destruct l as [|s0 l0]; [discriminate|].
  intros [= <- <-].
  pose proof (parseFile_fresh _ _ P) as F.
  destruct (fresh_not_finalized _ F) as [N A].
  split; [reflexivity|]. split; [reflexivity|].
  split; [exists s0, l0; split; reflexivity|].
  split; [exact F|].
  unfold StatsPanel.finalizedCount, StatsPanel.activeCount,
    StatsPanel.totalCount, StatsPanel.metrics.
  rewrite N, A. repeat split.
  unfold ReviewScreen.allSlidesFinalized, ReviewScreen.initial.
  cbn [ReviewScreen.slides].
  change (Calc.activeSlides (s0 :: l0))
    with (StatsPanel.activeSlides (s0 :: l0)).
  rewrite A. simpl.
  inversion F as [|? ? (_ & _ & Fin & _) _]; subst. rewrite Fin. reflexivity.
Qed.

Lemma upload_starts_clean_witness :
  let file := mkFile (lit "storyboard.csv") [] (Some Sheet.fields)
                Sheet.data [] in
  ∃ slides,
    handleFileChange file = onFileUpload slides (lit "storyboard.csv")
    ∧ Forall freshDraft slides
    ∧ StatsPanel.finalizedCount slides = 0.
Proof.
  intros file.
  exists [createSlideObject 1 (lit "Introduction") [];
          createSlideObject 7 [] []].
  assert (H : handleFileChange file
              = onFileUpload [createSlideObject 1 (lit "Introduction") [];
                              createSlideObject 7 [] []]
                  (lit "storyboard.csv")) by (vm_compute; reflexivity).
  pose proof (upload_starts_clean file _ _ (of_Z 0) (of_Z 0) H)
    as (_ & _ & _ & F & N & _).
  split; [exact H|]. split; [exact F | exact N].
Defined.

End IngestionMore.

(** ** The reports *)

Section Reports.

Import AudioUploadModal Samples.

Lemma export_words_fold (l : list Slide) (acc : Calc.Totals) :
  Calc.t_totalWords (fold_left Calc.step (List.filter Calc.notDiscarded l) acc)
  = fold_left (fun sum s => (sum + of_nat (ExportService.getWordCount (ost s)))%js)
      (List.filter ExportService.countsWords l) (Calc.t_totalWords acc).
Proof.
  revert acc. induction l as [|a l IH]; intros acc; [reflexivity|].
  cbn [List.filter].
  assert (C : ExportService.countsWords a
              = Calc.notDiscarded a
                && match selectedSource a with
                   | OST | BOTH => true
                   | AUDIO => false
                   end) by reflexivity.
  rewrite C. destruct (Calc.notDiscarded a); cbn [andb]; [|apply IH].
  destruct (selectedSource a) eqn:E; cbn [fold_left]; rewrite IH;
    unfold Calc.step; rewrite E; reflexivity.
Qed.

Lemma export_time_fold (l : list Slide) (acc : Calc.Totals) :
  Calc.t_totalAvMinutes
    (fold_left Calc.step (List.filter Calc.notDiscarded l) acc)
  = fold_left (fun sum s => (sum + audioDuration s)%js)
      (List.filter ExportService.countsAudio l) (Calc.t_totalAvMinutes acc).
Proof.
  revert acc. induction l as [|a l IH]; intros acc; [reflexivity|].
  cbn [List.filter].
  assert (C : ExportService.countsAudio a
              = Calc.notDiscarded a
                && match selectedSource a with
                   | AUDIO | BOTH => true
                   | OST => false
                   end) by reflexivity.
  rewrite C. destruct (Calc.notDiscarded a); cbn [andb]; [|apply IH].
  destruct (selectedSource a) eqn:E; cbn [fold_left]; rewrite IH;
    unfold Calc.step; rewrite E; reflexivity.
Qed.

(** The two reports agree with the summary they are downloaded from: the
    "Total word count" of the word report is the summary's total of
    words and the total of the audio report is its total of minutes,
    whatever the slides are; every slide that is not discarded is a row of
    at least one of the two reports, and a discarded slide is a row of
    none. *)
Theorem reports_agree_with_summary (slides : list Slide) (rq fq : number) :
  ExportService.totalWordCount slides
  = totalWords (FinalizationScreen.metrics slides rq fq)
  ∧ ExportService.totalAvMinutes slides
    = totalAvMinutes (FinalizationScreen.metrics slides rq fq)
  ∧ (∀ s, s ∈ slides →
       if Calc.notDiscarded s
       then (s ∈ ExportService.wordCountSlides slides
             ∨ s ∈ ExportService.audioSlides slides)
       else ((s ∉ ExportService.wordCountSlides slides)
             ∧ (s ∉ ExportService.audioSlides slides))).
Proof.
  rewrite finalization_metrics_engine.
  split; [|split].
  - symmetry. apply (export_words_fold slides).
  - symmetry. apply (export_time_fold slides).
  - intros s Hs. unfold ExportService.wordCountSlides, ExportService.audioSlides.
    destruct (Calc.notDiscarded s) eqn:N.
    + destruct (selectedSource s) eqn:E.
      * left. apply list_elem_of_In, filter_In. split;
          [apply list_elem_of_In, Hs|].
        unfold ExportService.countsWords. rewrite N, E. reflexivity.
      * right. apply list_elem_of_In, filter_In. split;
          [apply list_elem_of_In, Hs|].
        unfold ExportService.countsAudio. rewrite N, E. reflexivity.
      * left. apply list_elem_of_In, filter_In. split;
          [apply list_elem_of_In, Hs|].
        unfold ExportService.countsWords. rewrite N, E. reflexivity.
    + split; intros H; apply list_elem_of_In, filter_In in H as [_ H];
        [unfold ExportService.countsWords in H | unfold ExportService.countsAudio in H];
        rewrite N in H; discriminate.
Qed.

Lemma flattenLines_cons (c : N) (r : jsstring) :
  (c = 13%N → head r ≠ Some 10%N) →
  ExportService.flattenLines (c :: r)
  = (if (c =? 13)%N || (c =? 10)%N then 32%N else c)
    :: ExportService.flattenLines r.
Proof.
  intros H. cbn [ExportService.flattenLines].
  destruct (N.eqb_spec c 13%N) as [E|_]; cbn [orb].
  - specialize (H E). destruct r as [|x r']; [reflexivity|].
    destruct x as [|p]; [reflexivity|].
    repeat (destruct p as [p|p|]; try reflexivity).
    exfalso. apply H. reflexivity.
  - destruct (c =? 10)%N; reflexivity.
Qed.

Lemma flattenLines_cases (P : jsstring → Prop) :
  P [] →
  (∀ r, P r → P (13%N :: 10%N :: r)) →
  (∀ c r, (c = 13%N → head r ≠ Some 10%N) → P r → P (c :: r)) →
  ∀ s, P s.
Proof.
  intros H0 H2 H1 s.
  assert (G : ∀ n s, (length s <= n)%nat → P s).
  { clear s. induction n as [|n IH]; intros s L.
    - destruct s; [exact H0 | simpl in L; lia].
    - destruct s as [|c r]; [exact H0|]. simpl in L.
      destruct (N.eq_dec c 13%N) as [->|Nc].
      + destruct r as [|x r']; [apply H1; [discriminate | exact H0]|].
        destruct (N.eq_dec x 10%N) as [->|Nx].
        * apply H2, IH. simpl in L. lia.
        * apply H1; [simpl; congruence | apply IH; lia].
      + apply H1; [congruence | apply IH; lia]. }
  apply (G (length s)). lia.
Qed.

Lemma flattenLines_atBoundary (s : jsstring) :
  Spec.atBoundary (ExportService.flattenLines s) = Spec.atBoundary s.
Proof.
  pattern s. apply flattenLines_cases; clear s.
  - reflexivity.
  - intros r _. reflexivity.
  - intros c r H _. rewrite flattenLines_cons by exact H.
    cbn [Spec.atBoundary].
    destruct (N.eqb_spec c 13%N) as [->|_]; [reflexivity|].
    destruct (N.eqb_spec c 10%N) as [->|_]; reflexivity.
Qed.

Lemma flattenLines_words (s : jsstring) :
  Spec.words (ExportService.flattenLines s) = Spec.words s.
Proof.
  pattern s. apply flattenLines_cases; clear s.
  - reflexivity.
  - intros r IH. exact IH.
  - intros c r H IH. rewrite flattenLines_cons by exact H.
    destruct (N.eqb_spec c 13%N) as [->|_]; [exact IH|].
    destruct (N.eqb_spec c 10%N) as [->|_]; [exact IH|].
    cbn [orb Spec.words]. rewrite IH, flattenLines_atBoundary. reflexivity.
Qed.

(** The text of a row of the word report is on one line and is counted as
    the text of the slide: after the replacement of the line breaks no
    carriage return and no line feed is left, the text is not longer, its
    words are those of the slide's text in the same order, and so the
    "Word Count" cell next to it is the count of the text that is
    shown. *)
Theorem report_text_on_one_line (s : jsstring) :
  let flat := ExportService.flattenLines s in
  (10%N ∉ flat) ∧ (13%N ∉ flat)
  ∧ (length flat <= length s)%nat
  ∧ Spec.words flat = Spec.words s
  ∧ ExportService.getWordCount flat = ExportService.getWordCount s
  ∧ Calc.getWordCount flat = Calc.getWordCount s.
Proof.
  intros flat.
  assert (W : Calc.getWordCount flat = Calc.getWordCount s).
  { rewrite !getWordCount_wordCount. unfold Spec.wordCount, flat.
    rewrite flattenLines_words. reflexivity. }
  assert (A : (10%N ∉ flat) ∧ (13%N ∉ flat) ∧ (length flat <= length s)%nat).
  { unfold flat. pattern s. apply flattenLines_cases; clear.
    - repeat split; [apply not_elem_of_nil .. | reflexivity].
    - intros r (A & B & C). cbn [ExportService.flattenLines N.eqb Pos.eqb].
      repeat split.
      + intros [E|E]%elem_of_cons; [discriminate | exact (A E)].
      + intros [E|E]%elem_of_cons; [discriminate | exact (B E)].
      + simpl. lia.
    - intros c r H (A & B & C). rewrite flattenLines_cons by exact H.
      repeat split.
      + intros [E|E]%elem_of_cons; [|exact (A E)].
        destruct (N.eqb_spec c 13%N) as [->|_]; [discriminate|].
        destruct (N.eqb_spec c 10%N) as [->|N]; [discriminate|].
        cbn [orb] in E. congruence.
      + intros [E|E]%elem_of_cons; [|exact (B E)].
        destruct (N.eqb_spec c 13%N) as [->|N]; [discriminate|].
        destruct (N.eqb_spec c 10%N) as [->|_]; [discriminate|].
        cbn [orb] in E. congruence.
      + simpl. lia. }
  destruct A as (A & B & C).
  repeat split; try assumption.
  unfold flat. apply flattenLines_words.
Qed.

Local Open Scope Q_scope.









(** The "Trimmed out duration" column reads [0 min 0 sec] unless the
    attachment of the slide is marked trimmed and carries an original and
    a trimmed duration, both numbers other than 0, the original being the
    longer one. *)
Theorem trimmed_out_column (s : Slide) :
  ExportService.formatTrimmedDuration (ExportService.trimmedOutDurationSec s)
  ≠ lit "0 min 0 sec" →
  isTrimmed (audioMeta s) = Some true
  ∧ ∃ o t, originalDuration (audioMeta s) = Some (Fin o)
           ∧ trimmedDuration (audioMeta s) = Some (Fin t)
           ∧ ¬ o == 0 ∧ ¬ t == 0 ∧ t < o.
Proof.
  unfold ExportService.trimmedOutDurationSec.
  destruct (isTrimmed (audioMeta s)) as [[|]|];
    try (intros H; exfalso; apply H; reflexivity).
  destruct (originalDuration (audioMeta s)) as [[|o]|];
    try (intros H; exfalso; apply H; reflexivity).
  destruct (trimmedDuration (audioMeta s)) as [[|t]|];
    try (cbn [ReviewScreen.truthyFlag ExportService.truthyNumber
              JsNum.truthy andb];
         rewrite ?andb_false_r;
         intros H; exfalso; apply H; reflexivity).
  cbn [ReviewScreen.truthyFlag ExportService.truthyNumber JsNum.truthy andb].
  destruct (Qeq_bool o 0) eqn:Eo;
    [intros H; exfalso; apply H; reflexivity|].
  destruct (Qeq_bool t 0) eqn:Et;
    [intros H; exfalso; apply H; reflexivity|].
  cbn [negb andb JsNum.sub]. intros H.
  split; [reflexivity|]. exists o, t.
  split; [reflexivity|]. split; [reflexivity|].
  split; [intros E; apply Qeq_bool_iff in E; congruence|].
  split; [intros E; apply Qeq_bool_iff in E; congruence|].
  destruct (Qlt_le_dec t o) as [L|G]; [exact L|].
  exfalso. apply H. unfold ExportService.formatTrimmedDuration.
  cbn [JsNum.isNaN orb].
  assert (L : JsNum.leb (Fin (o - t)) (of_Z 0) = true).
  { unfold JsNum.leb, of_Z. apply Qle_bool_iff. change (inject_Z 0) with 0.
    lra. }
  rewrite L. reflexivity.
Qed.

Lemma trimmed_out_column_witness :
  isTrimmed (audioMeta (trimmedSlide 1 100 40)) = Some true
  ∧ ∃ o t, originalDuration (audioMeta (trimmedSlide 1 100 40))
           = Some (Fin o)
           ∧ trimmedDuration (audioMeta (trimmedSlide 1 100 40))
             = Some (Fin t)
           ∧ ¬ o == 0 ∧ ¬ t == 0 ∧ t < o.
Proof.
  apply (trimmed_out_column (trimmedSlide 1 100 40)).
  vm_compute. discriminate.
Defined.

Local Close Scope Q_scope.

(** The reports are named after the text of the file name before its
    first dot, whatever follows it: from [a.b], [a] without a dot, the
    names are [WordCount_Export_a.csv] and [AudioCount_Export_a.csv]; a
    name without a dot is taken whole. *)
Theorem report_names_stop_at_first_dot (a b : jsstring) :
  (∀ x, x ∈ a → x ≠ 46%N) →
  ExportService.wordCountFileName (a ++ 46%N :: b)
  = lit "WordCount_Export_" ++ a ++ lit ".csv"
  ∧ ExportService.audioFileName (a ++ 46%N :: b)
    = lit "AudioCount_Export_" ++ a ++ lit ".csv"
  ∧ ExportService.wordCountFileName a
    = lit "WordCount_Export_" ++ a ++ lit ".csv"
  ∧ ExportService.audioFileName a
    = lit "AudioCount_Export_" ++ a ++ lit ".csv".
Proof.
  intros H.
  assert (B1 : ExportService.baseName (a ++ 46%N :: b) = a).
  { unfold ExportService.baseName, FileParser.splitOn.
    rewrite (head_splitOnFrom 46 [] a b H). reflexivity. }
  assert (B2 : ExportService.baseName a = a).
  { unfold ExportService.baseName, FileParser.splitOn.
    rewrite (splitOnFrom_plain 46 [] a H). reflexivity. }
  unfold ExportService.wordCountFileName, ExportService.audioFileName.
  rewrite B1, B2. repeat split.
Qed.

Lemma report_names_stop_at_first_dot_witness :
  ExportService.wordCountFileName (lit "deck.v2.pptx")
  = lit "WordCount_Export_deck.csv".
Proof.
  assert (H : ∀ x, x ∈ lit "deck" → x ≠ 46%N).
  { intros x Hx. apply list_elem_of_In in Hx. simpl in Hx.
    intuition (subst; discriminate). }
  exact (proj1 (report_names_stop_at_first_dot (lit "deck") (lit "v2.pptx") H)).
Defined.

End Reports.

(** ** The question fields *)

Section QuestionFields.

Import FileParser StatsPanel.

Lemma or_else_of_Z (z : Z) : JsNum.or_else (of_Z z) (of_Z 0) = of_Z z.
Proof.
  unfold JsNum.or_else, JsNum.truthy, of_Z.
  destruct (Qeq_bool (inject_Z z) 0) eqn:E; [|reflexivity].
  apply Qeq_bool_iff in E. simpl. f_equal. f_equal.
  unfold Qeq in E. simpl in E. lia.
Qed.

Lemma questionInput_read (value : jsstring) :
  questionInput value
  = match parseInt value with
    | parsedNaN => Some (of_Z 0)
    | parsedInt z => Some (of_Z z)
    | parsedBeyond _ => None
    end.
Proof.
  unfold questionInput. destruct (parseInt value) as [|z|b]; simpl;
    [reflexivity | | reflexivity].
  rewrite or_else_of_Z. reflexivity.
Qed.

(** A question field never hands over NaN.  Its value is 0 for a field
    that is empty or holds white space only, and the whole number typed
    when that is a safe integer, a negative one included (the value is not
    clamped at 0): every value of the model is a safe integer, and the
    texts without one are those that read beyond the safe integers, for
    which the code hands over a rounded or an infinite number.  On two
    safe integers whose sum is one, the engine's total of questions is
    that sum. *)
Theorem question_fields_hand_over_numbers
    (w value : jsstring) (z z1 z2 : Z) (slides : list Slide) :
  allWhite w → isSafeInteger z = true →
  questionInput (w ++ decimal z) = Some (of_Z z)
  ∧ questionInput w = Some (of_Z 0)
  ∧ (∀ n, questionInput value = Some n →
          ∃ v, n = of_Z v ∧ isSafeInteger v = true)
  ∧ (questionInput value = None
     ↔ ∃ negative, parseInt value = parsedBeyond negative)
  ∧ (isSafeInteger z1 = true → isSafeInteger z2 = true →
     isSafeInteger (z1 + z2) = true →
     totalQuestions (Calc.useCpeCalculator slides (of_Z z1) (of_Z z2))
     = of_Z (z1 + z2)).
Proof.
  intros Hw Hz. split; [|split; [|split; [|split]]].
  - rewrite questionInput_read.
    pose proof (parseInt_decimal w [] z Hw I) as P.
    rewrite app_nil_r in P. rewrite P. unfold parsed. rewrite Hz.
    reflexivity.
  - rewrite questionInput_read, (parseInt_allWhite w Hw). reflexivity.
  - intros n. rewrite questionInput_read.
    destruct (parseInt_cases value) as [E|[v E]]; rewrite E.
    + intros [= <-]. exists 0. split; reflexivity.
    + unfold parsed. destruct (isSafeInteger v) eqn:S; [|discriminate].
      intros [= <-]. exists v. split; [reflexivity | exact S].
  - rewrite questionInput_read.
    destruct (parseInt value) as [|v|b]; split;
      try discriminate; try (intros [? [=]]); try reflexivity.
    intros _. exists b. reflexivity.
  - intros _ _ _. cbn [Calc.useCpeCalculator totalQuestions].
    rewrite !or_else_of_Z. unfold of_Z, JsNum.add. f_equal.
    unfold inject_Z, Qplus. simpl. f_equal. lia.
Qed.

Lemma question_fields_hand_over_numbers_witness :
  questionInput (lit " " ++ decimal (-3)) = Some (of_Z (-3))
  ∧ questionInput (lit " ") = Some (of_Z 0).
Proof.
  assert (W : allWhite (lit " ")) by (repeat constructor).
  pose proof (question_fields_hand_over_numbers (lit " ") [] (-3) 0 0 []
                W eq_refl) as (A & B & _).
  split; [exact A | exact B].
Defined.

End QuestionFields.
